(** * pixel-blur: the overlay store, the pointer state machine and the scene
      compositor

    A shallow embedding of [src/app/page.tsx] (the [Home] component: overlay
    collections and undo history), [src/components/CanvasStage.tsx] (pointer
    handlers: hit-testing, drag, resize, creation) and [src/lib/canvas.ts]
    ([renderScene]).

    Conventions of the embedding.
    - A JavaScript [number] is a rational [Q]: the handlers only add,
      subtract, multiply, divide, compare and take [Math.min]/[Math.max], so
      every finite run is reproduced exactly; rounding, [NaN] and the
      infinities are outside the model.  Where the source divides by a value
      that can be zero, the result of the comparison that consumes the
      quotient is written out ([gtQuot], [isWithinLens]).
    - React state is a record; an event handler is a function from the state
      before the event to the state after it, with the callbacks the page
      passes to the stage ([onLensAdd], [onLensUpdate], ...) inlined as calls
      of the page's functions.
    - [crypto.randomUUID()] and [Date.now()] are inputs of the handler that
      calls them.
    - The 2D context is a log of paint operations, threaded through the
      drawing functions by a small writer monad. *)

From Stdlib Require Import QArith Qminmax Qabs ZArith NArith List String Ascii Bool
  Sorted Permutation Qround Lia Lqa.
Import ListNotations.
Open Scope string_scope.
Open Scope Q_scope.

(** ** Numbers *)

(** [Math.min] and [Math.max] on two arguments are [Qmin] and [Qmax]. *)

(* const clamp = (value, min, max) => Math.min(Math.max(value, min), max); *)
Definition clamp (value min max : Q) : Q := Qmin (Qmax value min) max.

Definition Qltb (a b : Q) : bool := negb (Qle_bool b a).
Definition Qleb (a b : Q) : bool := Qle_bool a b.
Definition Qgeb (a b : Q) : bool := Qle_bool b a.

(* [a / b > r] for [a, b >= 0]: a zero divisor gives [Infinity] (greater than
   every finite [r]) when [a > 0] and [NaN] (every comparison false) when
   [a = 0]. *)
Definition gtQuot (a b r : Q) : bool :=
  if Qeq_bool b 0 then Qltb 0 a else Qltb r (a / b).

Definition ofN (n : N) : Q := inject_Z (Z.of_N n).
Definition ofNat (n : nat) : Q := inject_Z (Z.of_nat n).

(** ** Strings *)

Definition isLF (c : ascii) : bool := Ascii.eqb c "010"%char.
Definition isCR (c : ascii) : bool := Ascii.eqb c "013"%char.

(* The white space [String.prototype.trim] strips, within the character
   range of [ascii]: TAB, LF, VT, FF, CR, SP and NBSP. *)
Definition isSpace (c : ascii) : bool :=
  let n := nat_of_ascii c in
  ((9 <=? n) && (n <=? 13) || (n =? 32) || (n =? 160))%nat.

Fixpoint trimStart (s : string) : string :=
  match s with
  | String c r => if isSpace c then trimStart r else s
  | EmptyString => EmptyString
  end.

Fixpoint revString (s acc : string) : string :=
  match s with
  | String c r => revString r (String c acc)
  | EmptyString => acc
  end.

Definition trim (s : string) : string :=
  revString (trimStart (revString (trimStart s) "")) "".

Definition isEmpty (s : string) : bool :=
  match s with EmptyString => true | _ => false end.

(* Drops the carriage return that closes a line, given the line reversed. *)
Definition dropCR (revLine : string) : string :=
  match revLine with
  | String c r => if isCR c then r else revLine
  | EmptyString => EmptyString
  end.

(* text.split(/\r?\n/), with the current line accumulated in reverse. *)
Fixpoint splitLinesFrom (s revLine : string) : list string :=
  match s with
  | EmptyString => [revString revLine ""]
  | String c r =>
      if isLF c then revString (dropCR revLine) "" :: splitLinesFrom r ""
      else splitLinesFrom r (String c revLine)
  end.

Definition splitLines (s : string) : list string := splitLinesFrom s "".

Fixpoint includesSpace (s : string) : bool :=
  match s with
  | String c r => Ascii.eqb c " "%char || includesSpace r
  | EmptyString => false
  end.

(** ** Data model ([src/lib/types.ts]) *)

Inductive Mode := MBlur | MMagnify | MSticker | MText.
Inductive LensShape := circle | rounded.
Inductive BackgroundMode := bgBlack | bgWhite | bgImage.

Definition Mode_eqb (a b : Mode) : bool :=
  match a, b with
  | MBlur, MBlur | MMagnify, MMagnify | MSticker, MSticker | MText, MText => true
  | _, _ => false
  end.

Definition LensShape_eqb (a b : LensShape) : bool :=
  match a, b with
  | circle, circle | rounded, rounded => true
  | _, _ => false
  end.

(* A decoded [HTMLImageElement]: its source and its natural size. *)
Record Bitmap := {
  src : string;
  naturalWidth : N;
  naturalHeight : N
}.

Record Point := { px : Q; py : Q }.
Record Offset := { dx : Q; dy : Q }.
Record Size := { sizeWidth : Q; sizeHeight : Q }.
Record Rect := { rx : Q; ry : Q; rwidth : Q; rheight : Q }.

Record Lens := {
  lens_id : string;
  lens_x : Q;
  lens_y : Q;
  lens_width : Q;
  lens_height : Q;
  lens_sourceX : Q;
  lens_sourceY : Q;
  lens_sourceImageX : Q;
  lens_sourceImageY : Q;
  lens_mode : Mode;
  lens_shape : LensShape;
  lens_blur : Q;
  lens_magnification : Q;
  lens_createdAt : Z
}.

Record LensPreview := {
  preview_x : Q;
  preview_y : Q;
  preview_width : Q;
  preview_height : Q;
  preview_shape : LensShape
}.

Record Sticker := {
  sticker_id : string;
  sticker_x : Q;
  sticker_y : Q;
  sticker_width : Q;
  sticker_height : Q;
  sticker_image : Bitmap;
  sticker_shape : LensShape
}.

Record TextOverlay := {
  text_id : string;
  text_x : Q;
  text_y : Q;
  text_text : string;
  text_color : string;
  text_size : Q;
  text_font : string
}.

(** [Partial<Lens>], [Partial<Sticker>], [Partial<TextOverlay>]: every field
    optional. *)

Record LensPatch := {
  lp_id : option string;
  lp_x : option Q;
  lp_y : option Q;
  lp_width : option Q;
  lp_height : option Q;
  lp_sourceX : option Q;
  lp_sourceY : option Q;
  lp_sourceImageX : option Q;
  lp_sourceImageY : option Q;
  lp_mode : option Mode;
  lp_shape : option LensShape;
  lp_blur : option Q;
  lp_magnification : option Q;
  lp_createdAt : option Z
}.

Record StickerPatch := {
  sp_id : option string;
  sp_x : option Q;
  sp_y : option Q;
  sp_width : option Q;
  sp_height : option Q;
  sp_image : option Bitmap;
  sp_shape : option LensShape
}.

Record TextPatch := {
  tp_id : option string;
  tp_x : option Q;
  tp_y : option Q;
  tp_text : option string;
  tp_color : option string;
  tp_size : option Q;
  tp_font : option string
}.

Definition orElse {A} (o : option A) (d : A) : A :=
  match o with Some a => a | None => d end.

(* { ...lens, ...payload } *)
Definition mergeLens (l : Lens) (p : LensPatch) : Lens :=
  {| lens_id := orElse (lp_id p) (lens_id l);
     lens_x := orElse (lp_x p) (lens_x l);
     lens_y := orElse (lp_y p) (lens_y l);
     lens_width := orElse (lp_width p) (lens_width l);
     lens_height := orElse (lp_height p) (lens_height l);
     lens_sourceX := orElse (lp_sourceX p) (lens_sourceX l);
     lens_sourceY := orElse (lp_sourceY p) (lens_sourceY l);
     lens_sourceImageX := orElse (lp_sourceImageX p) (lens_sourceImageX l);
     lens_sourceImageY := orElse (lp_sourceImageY p) (lens_sourceImageY l);
     lens_mode := orElse (lp_mode p) (lens_mode l);
     lens_shape := orElse (lp_shape p) (lens_shape l);
     lens_blur := orElse (lp_blur p) (lens_blur l);
     lens_magnification := orElse (lp_magnification p) (lens_magnification l);
     lens_createdAt := orElse (lp_createdAt p) (lens_createdAt l) |}.

(* { ...sticker, ...payload } *)
Definition mergeSticker (s : Sticker) (p : StickerPatch) : Sticker :=
  {| sticker_id := orElse (sp_id p) (sticker_id s);
     sticker_x := orElse (sp_x p) (sticker_x s);
     sticker_y := orElse (sp_y p) (sticker_y s);
     sticker_width := orElse (sp_width p) (sticker_width s);
     sticker_height := orElse (sp_height p) (sticker_height s);
     sticker_image := orElse (sp_image p) (sticker_image s);
     sticker_shape := orElse (sp_shape p) (sticker_shape s) |}.

(* { ...text, ...payload } *)
Definition mergeText (t : TextOverlay) (p : TextPatch) : TextOverlay :=
  {| text_id := orElse (tp_id p) (text_id t);
     text_x := orElse (tp_x p) (text_x t);
     text_y := orElse (tp_y p) (text_y t);
     text_text := orElse (tp_text p) (text_text t);
     text_color := orElse (tp_color p) (text_color t);
     text_size := orElse (tp_size p) (text_size t);
     text_font := orElse (tp_font p) (text_font t) |}.

(** The object literals the stage passes to the update callbacks. *)

Definition noLensPatch : LensPatch :=
  {| lp_id := None; lp_x := None; lp_y := None; lp_width := None;
     lp_height := None; lp_sourceX := None; lp_sourceY := None;
     lp_sourceImageX := None; lp_sourceImageY := None; lp_mode := None;
     lp_shape := None; lp_blur := None; lp_magnification := None;
     lp_createdAt := None |}.

(* { width: newWidth, height: newHeight } *)
Definition lensSizePatch (w h : Q) : LensPatch :=
  {| lp_id := None; lp_x := None; lp_y := None; lp_width := Some w;
     lp_height := Some h; lp_sourceX := None; lp_sourceY := None;
     lp_sourceImageX := None; lp_sourceImageY := None; lp_mode := None;
     lp_shape := None; lp_blur := None; lp_magnification := None;
     lp_createdAt := None |}.

(* { x: newX, y: newY, sourceX: ..., sourceY: ... } *)
Definition lensMovePatch (x y sx sy : Q) : LensPatch :=
  {| lp_id := None; lp_x := Some x; lp_y := Some y; lp_width := None;
     lp_height := None; lp_sourceX := Some sx; lp_sourceY := Some sy;
     lp_sourceImageX := None; lp_sourceImageY := None; lp_mode := None;
     lp_shape := None; lp_blur := None; lp_magnification := None;
     lp_createdAt := None |}.

(* { width: newWidth, height: newHeight } *)
Definition stickerSizePatch (w h : Q) : StickerPatch :=
  {| sp_id := None; sp_x := None; sp_y := None; sp_width := Some w;
     sp_height := Some h; sp_image := None; sp_shape := None |}.

(* { x: newX, y: newY } *)
Definition stickerMovePatch (x y : Q) : StickerPatch :=
  {| sp_id := None; sp_x := Some x; sp_y := Some y; sp_width := None;
     sp_height := None; sp_image := None; sp_shape := None |}.

(* { size: newSize } *)
Definition textSizePatch (s : Q) : TextPatch :=
  {| tp_id := None; tp_x := None; tp_y := None; tp_text := None;
     tp_color := None; tp_size := Some s; tp_font := None |}.

(* { x: newX, y: newY } *)
Definition textMovePatch (x y : Q) : TextPatch :=
  {| tp_id := None; tp_x := Some x; tp_y := Some y; tp_text := None;
     tp_color := None; tp_size := None; tp_font := None |}.

(* { text: e.target.value } *)
Definition textContentPatch (s : string) : TextPatch :=
  {| tp_id := None; tp_x := None; tp_y := None; tp_text := Some s;
     tp_color := None; tp_size := None; tp_font := None |}.

(* { text: textValue, color: textColor, size: textSize, font: textFont } *)
Definition textStylePatch (v c : string) (s : Q) (f : string) : TextPatch :=
  {| tp_id := None; tp_x := None; tp_y := None; tp_text := Some v;
     tp_color := Some c; tp_size := Some s; tp_font := Some f |}.

(** ** The page: overlay store and undo history ([src/app/page.tsx]) *)

(* One entry of [historyRef.current]. *)
Record Snapshot := {
  snap_lenses : list Lens;
  snap_stickers : list Sticker;
  snap_texts : list TextOverlay
}.

(* The state of [Home]: its [useState] cells and its two refs. *)
Record Home := {
  imageSrc : string;
  image : option Bitmap;
  stickerSrc : option string;
  stickerImage : option Bitmap;
  mode : Mode;
  lensShape : LensShape;
  lensSize : Q;
  blurAmount : Q;
  magnification : Q;
  lenses : list Lens;
  stickers : list Sticker;
  texts : list TextOverlay;
  textValue : string;
  textColor : string;
  textSize : Q;
  backgroundMode : BackgroundMode;
  historyRef : list Snapshot;
  isUndoingRef : bool
}.

Definition textFont : string := "Terminus".

Definition initialHome : Home :=
  {| imageSrc := ""; image := None; stickerSrc := None; stickerImage := None;
     mode := MBlur; lensShape := circle; lensSize := 320; blurAmount := 12;
     magnification := 2; lenses := []; stickers := []; texts := [];
     textValue := "Sample text"; textColor := "#f5f5f5"; textSize := 28;
     backgroundMode := bgImage; historyRef := []; isUndoingRef := false |}.

(** Setters: one per cell that a handler writes. *)

Definition setLenses (v : list Lens) (h : Home) : Home :=
  {| imageSrc := imageSrc h; image := image h; stickerSrc := stickerSrc h;
     stickerImage := stickerImage h; mode := mode h; lensShape := lensShape h;
     lensSize := lensSize h; blurAmount := blurAmount h;
     magnification := magnification h; lenses := v; stickers := stickers h;
     texts := texts h; textValue := textValue h; textColor := textColor h;
     textSize := textSize h; backgroundMode := backgroundMode h;
     historyRef := historyRef h; isUndoingRef := isUndoingRef h |}.

Definition setStickers (v : list Sticker) (h : Home) : Home :=
  {| imageSrc := imageSrc h; image := image h; stickerSrc := stickerSrc h;
     stickerImage := stickerImage h; mode := mode h; lensShape := lensShape h;
     lensSize := lensSize h; blurAmount := blurAmount h;
     magnification := magnification h; lenses := lenses h; stickers := v;
     texts := texts h; textValue := textValue h; textColor := textColor h;
     textSize := textSize h; backgroundMode := backgroundMode h;
     historyRef := historyRef h; isUndoingRef := isUndoingRef h |}.

Definition setTexts (v : list TextOverlay) (h : Home) : Home :=
  {| imageSrc := imageSrc h; image := image h; stickerSrc := stickerSrc h;
     stickerImage := stickerImage h; mode := mode h; lensShape := lensShape h;
     lensSize := lensSize h; blurAmount := blurAmount h;
     magnification := magnification h; lenses := lenses h;
     stickers := stickers h; texts := v; textValue := textValue h;
     textColor := textColor h; textSize := textSize h;
     backgroundMode := backgroundMode h; historyRef := historyRef h;
     isUndoingRef := isUndoingRef h |}.

Definition setHistory (v : list Snapshot) (h : Home) : Home :=
  {| imageSrc := imageSrc h; image := image h; stickerSrc := stickerSrc h;
     stickerImage := stickerImage h; mode := mode h; lensShape := lensShape h;
     lensSize := lensSize h; blurAmount := blurAmount h;
     magnification := magnification h; lenses := lenses h;
     stickers := stickers h; texts := texts h; textValue := textValue h;
     textColor := textColor h; textSize := textSize h;
     backgroundMode := backgroundMode h; historyRef := v;
     isUndoingRef := isUndoingRef h |}.

Definition setIsUndoing (v : bool) (h : Home) : Home :=
  {| imageSrc := imageSrc h; image := image h; stickerSrc := stickerSrc h;
     stickerImage := stickerImage h; mode := mode h; lensShape := lensShape h;
     lensSize := lensSize h; blurAmount := blurAmount h;
     magnification := magnification h; lenses := lenses h;
     stickers := stickers h; texts := texts h; textValue := textValue h;
     textColor := textColor h; textSize := textSize h;
     backgroundMode := backgroundMode h; historyRef := historyRef h;
     isUndoingRef := v |}.

Definition setImageSrc (v : string) (h : Home) : Home :=
  {| imageSrc := v; image := image h; stickerSrc := stickerSrc h;
     stickerImage := stickerImage h; mode := mode h; lensShape := lensShape h;
     lensSize := lensSize h; blurAmount := blurAmount h;
     magnification := magnification h; lenses := lenses h;
     stickers := stickers h; texts := texts h; textValue := textValue h;
     textColor := textColor h; textSize := textSize h;
     backgroundMode := backgroundMode h; historyRef := historyRef h;
     isUndoingRef := isUndoingRef h |}.

Definition setImage (v : option Bitmap) (h : Home) : Home :=
  {| imageSrc := imageSrc h; image := v; stickerSrc := stickerSrc h;
     stickerImage := stickerImage h; mode := mode h; lensShape := lensShape h;
     lensSize := lensSize h; blurAmount := blurAmount h;
     magnification := magnification h; lenses := lenses h;
     stickers := stickers h; texts := texts h; textValue := textValue h;
     textColor := textColor h; textSize := textSize h;
     backgroundMode := backgroundMode h; historyRef := historyRef h;
     isUndoingRef := isUndoingRef h |}.

Definition setStickerSrc (v : option string) (h : Home) : Home :=
  {| imageSrc := imageSrc h; image := image h; stickerSrc := v;
     stickerImage := stickerImage h; mode := mode h; lensShape := lensShape h;
     lensSize := lensSize h; blurAmount := blurAmount h;
     magnification := magnification h; lenses := lenses h;
     stickers := stickers h; texts := texts h; textValue := textValue h;
     textColor := textColor h; textSize := textSize h;
     backgroundMode := backgroundMode h; historyRef := historyRef h;
     isUndoingRef := isUndoingRef h |}.

Definition setStickerImage (v : option Bitmap) (h : Home) : Home :=
  {| imageSrc := imageSrc h; image := image h; stickerSrc := stickerSrc h;
     stickerImage := v; mode := mode h; lensShape := lensShape h;
     lensSize := lensSize h; blurAmount := blurAmount h;
     magnification := magnification h; lenses := lenses h;
     stickers := stickers h; texts := texts h; textValue := textValue h;
     textColor := textColor h; textSize := textSize h;
     backgroundMode := backgroundMode h; historyRef := historyRef h;
     isUndoingRef := isUndoingRef h |}.

Definition setTextControls (v c : string) (s : Q) (h : Home) : Home :=
  {| imageSrc := imageSrc h; image := image h; stickerSrc := stickerSrc h;
     stickerImage := stickerImage h; mode := mode h; lensShape := lensShape h;
     lensSize := lensSize h; blurAmount := blurAmount h;
     magnification := magnification h; lenses := lenses h;
     stickers := stickers h; texts := texts h; textValue := v;
     textColor := c; textSize := s; backgroundMode := backgroundMode h;
     historyRef := historyRef h; isUndoingRef := isUndoingRef h |}.

(* The configuration cells the control panel writes ([setMode],
   [setLensShape], [setLensSize], [setBlurAmount], [setMagnification],
   [setBackgroundMode]). *)
Definition setConfig (m : Mode) (sh : LensShape) (sz bl mg : Q)
    (bg : BackgroundMode) (h : Home) : Home :=
  {| imageSrc := imageSrc h; image := image h; stickerSrc := stickerSrc h;
     stickerImage := stickerImage h; mode := m; lensShape := sh;
     lensSize := sz; blurAmount := bl; magnification := mg;
     lenses := lenses h; stickers := stickers h; texts := texts h;
     textValue := textValue h; textColor := textColor h;
     textSize := textSize h; backgroundMode := bg;
     historyRef := historyRef h; isUndoingRef := isUndoingRef h |}.

(* The three collections of a state. *)
Definition collections (h : Home) : Snapshot :=
  {| snap_lenses := lenses h; snap_stickers := stickers h;
     snap_texts := texts h |}.

(* historyRef.current.slice(-49): the last 49 entries. *)
Definition sliceLast (n : nat) {A} (l : list A) : list A :=
  skipn (List.length l - n) l.

(* snapshot.map((l) => ({ ...l })): a copy of every entity. *)
Definition copyAll {A} (l : list A) : list A := map (fun e => e) l.

Definition pushHistory (lensSnapshot : list Lens)
    (stickerSnapshot : list Sticker) (textSnapshot : list TextOverlay)
    (h : Home) : Home :=
  if isUndoingRef h then h
  else
    let trimmed := sliceLast 49 (historyRef h) in
    setHistory
      (trimmed ++ [ {| snap_lenses := copyAll lensSnapshot;
                       snap_stickers := copyAll stickerSnapshot;
                       snap_texts := copyAll textSnapshot |} ])
      h.

(* historyRef.current.pop(): the last entry and the entries before it. *)
Definition pop {A} (l : list A) : option (A * list A) :=
  match rev l with
  | [] => None
  | last :: before => Some (last, rev before)
  end.

Definition handleUndo (h : Home) : Home :=
  match historyRef h with
  | [] => h
  | _ =>
      match pop (historyRef h) with
      | None => h
      | Some (snapshot, rest) =>
          let h := setHistory rest h in
          let h := setIsUndoing true h in
          let h := setLenses (snap_lenses snapshot) h in
          let h := setStickers (snap_stickers snapshot) h in
          setTexts (snap_texts snapshot) h
      end
  end.

(* The callback of [setTimeout(..., 0)] that [handleUndo] schedules. *)
Definition undoTimeout (h : Home) : Home := setIsUndoing false h.

Definition handleLensAdd (lens : Lens) (h : Home) : Home :=
  let h := pushHistory (lenses h) (stickers h) (texts h) h in
  setLenses (lenses h ++ [lens]) h.

(* [reader.onload] of [handleFilePicked]. *)
Definition handleFilePicked (result : string) (h : Home) : Home :=
  let h := setImageSrc result h in
  let h := setLenses [] h in
  let h := setStickers [] h in
  let h := setTexts [] h in
  setHistory [] h.

Definition handleReset (h : Home) : Home :=
  let h := pushHistory (lenses h) (stickers h) (texts h) h in
  let h := setLenses [] h in
  let h := setStickers [] h in
  let h := setTexts [] h in
  setStickerSrc (stickerSrc h) h.

(* [reader.onload] of [handleStickerPicked]. *)
Definition handleStickerPicked (result : string) (h : Home) : Home :=
  let h := setStickerSrc (Some result) h in
  setHistory [] h.

(* [img.onload] of the effect on [imageSrc]. *)
Definition imageLoaded (img : Bitmap) (h : Home) : Home :=
  setImage (Some img) h.

(* [img.onload] of the effect on [stickerSrc]. *)
Definition stickerLoaded (img : Bitmap) (h : Home) : Home :=
  setStickerImage (Some img) h.

Definition handleStickerAdd (s : Sticker) (h : Home) : Home :=
  let h := pushHistory (lenses h) (stickers h) (texts h) h in
  setStickers (stickers h ++ [s]) h.

Definition handleTextAdd (t : TextOverlay) (h : Home) : Home :=
  if isEmpty (trim (text_text t)) then h
  else
    let h := pushHistory (lenses h) (stickers h) (texts h) h in
    setTexts (texts h ++ [t]) h.

Definition handleTextSelect (t : TextOverlay) (h : Home) : Home :=
  setTextControls (text_text t) (text_color t) (text_size t) h.

(* onLensUpdate={(id, payload) => setLenses((prev) => { pushHistory(...);
     return prev.map((lens) => lens.id === id ? {...lens, ...payload} : lens) })} *)
Definition onLensUpdate (id : string) (payload : LensPatch) (h : Home) : Home :=
  let prev := lenses h in
  let h := pushHistory prev (stickers h) (texts h) h in
  setLenses
    (map (fun lens => if String.eqb (lens_id lens) id
                      then mergeLens lens payload else lens) prev) h.

Definition onStickerUpdate (id : string) (payload : StickerPatch) (h : Home)
    : Home :=
  let prev := stickers h in
  let h := pushHistory (lenses h) prev (texts h) h in
  setStickers
    (map (fun s => if String.eqb (sticker_id s) id
                   then mergeSticker s payload else s) prev) h.

Definition onTextUpdate (id : string) (payload : TextPatch) (h : Home) : Home :=
  let prev := texts h in
  let h := pushHistory (lenses h) (stickers h) prev h in
  setTexts
    (map (fun t => if String.eqb (text_id t) id
                   then mergeText t payload else t) prev) h.

(** ** The stage ([src/components/CanvasStage.tsx]) *)

(* [resizeState], [stickerResizeState] and [textResizeState]. *)
Record ResizeState := {
  rs_id : string;
  rs_start : Rect;
  rs_startPoint : Point
}.

(* The state of [CanvasStage]: its [useState] cells and its refs. *)
Record Stage := {
  size : Size;
  dragStart : option Point;
  dragCurrent : option Point;
  activeLensId : option string;
  dragOffsetRef : option Offset;
  resizeState : option ResizeState;
  activeStickerId : option string;
  stickerDragOffsetRef : option Offset;
  stickerResizeState : option ResizeState;
  activeTextId : option string;
  editingText : string;
  textDragOffsetRef : option Offset;
  textResizeState : option ResizeState
}.

Definition initialStage : Stage :=
  {| size := {| sizeWidth := 920; sizeHeight := 620 |};
     dragStart := None; dragCurrent := None; activeLensId := None;
     dragOffsetRef := None; resizeState := None; activeStickerId := None;
     stickerDragOffsetRef := None; stickerResizeState := None;
     activeTextId := None; editingText := ""; textDragOffsetRef := None;
     textResizeState := None |}.

Definition setSize (v : Size) (s : Stage) : Stage :=
  {| size := v; dragStart := dragStart s; dragCurrent := dragCurrent s;
     activeLensId := activeLensId s; dragOffsetRef := dragOffsetRef s;
     resizeState := resizeState s; activeStickerId := activeStickerId s;
     stickerDragOffsetRef := stickerDragOffsetRef s;
     stickerResizeState := stickerResizeState s;
     activeTextId := activeTextId s; editingText := editingText s;
     textDragOffsetRef := textDragOffsetRef s;
     textResizeState := textResizeState s |}.

Definition setDragStart (v : option Point) (s : Stage) : Stage :=
  {| size := size s; dragStart := v; dragCurrent := dragCurrent s;
     activeLensId := activeLensId s; dragOffsetRef := dragOffsetRef s;
     resizeState := resizeState s; activeStickerId := activeStickerId s;
     stickerDragOffsetRef := stickerDragOffsetRef s;
     stickerResizeState := stickerResizeState s;
     activeTextId := activeTextId s; editingText := editingText s;
     textDragOffsetRef := textDragOffsetRef s;
     textResizeState := textResizeState s |}.

Definition setDragCurrent (v : option Point) (s : Stage) : Stage :=
  {| size := size s; dragStart := dragStart s; dragCurrent := v;
     activeLensId := activeLensId s; dragOffsetRef := dragOffsetRef s;
     resizeState := resizeState s; activeStickerId := activeStickerId s;
     stickerDragOffsetRef := stickerDragOffsetRef s;
     stickerResizeState := stickerResizeState s;
     activeTextId := activeTextId s; editingText := editingText s;
     textDragOffsetRef := textDragOffsetRef s;
     textResizeState := textResizeState s |}.

Definition setActiveLensId (v : option string) (s : Stage) : Stage :=
  {| size := size s; dragStart := dragStart s; dragCurrent := dragCurrent s;
     activeLensId := v; dragOffsetRef := dragOffsetRef s;
     resizeState := resizeState s; activeStickerId := activeStickerId s;
     stickerDragOffsetRef := stickerDragOffsetRef s;
     stickerResizeState := stickerResizeState s;
     activeTextId := activeTextId s; editingText := editingText s;
     textDragOffsetRef := textDragOffsetRef s;
     textResizeState := textResizeState s |}.

Definition setDragOffset (v : option Offset) (s : Stage) : Stage :=
  {| size := size s; dragStart := dragStart s; dragCurrent := dragCurrent s;
     activeLensId := activeLensId s; dragOffsetRef := v;
     resizeState := resizeState s; activeStickerId := activeStickerId s;
     stickerDragOffsetRef := stickerDragOffsetRef s;
     stickerResizeState := stickerResizeState s;
     activeTextId := activeTextId s; editingText := editingText s;
     textDragOffsetRef := textDragOffsetRef s;
     textResizeState := textResizeState s |}.

Definition setResizeState (v : option ResizeState) (s : Stage) : Stage :=
  {| size := size s; dragStart := dragStart s; dragCurrent := dragCurrent s;
     activeLensId := activeLensId s; dragOffsetRef := dragOffsetRef s;
     resizeState := v; activeStickerId := activeStickerId s;
     stickerDragOffsetRef := stickerDragOffsetRef s;
     stickerResizeState := stickerResizeState s;
     activeTextId := activeTextId s; editingText := editingText s;
     textDragOffsetRef := textDragOffsetRef s;
     textResizeState := textResizeState s |}.

Definition setActiveStickerId (v : option string) (s : Stage) : Stage :=
  {| size := size s; dragStart := dragStart s; dragCurrent := dragCurrent s;
     activeLensId := activeLensId s; dragOffsetRef := dragOffsetRef s;
     resizeState := resizeState s; activeStickerId := v;
     stickerDragOffsetRef := stickerDragOffsetRef s;
     stickerResizeState := stickerResizeState s;
     activeTextId := activeTextId s; editingText := editingText s;
     textDragOffsetRef := textDragOffsetRef s;
     textResizeState := textResizeState s |}.

Definition setStickerDragOffset (v : option Offset) (s : Stage) : Stage :=
  {| size := size s; dragStart := dragStart s; dragCurrent := dragCurrent s;
     activeLensId := activeLensId s; dragOffsetRef := dragOffsetRef s;
     resizeState := resizeState s; activeStickerId := activeStickerId s;
     stickerDragOffsetRef := v;
     stickerResizeState := stickerResizeState s;
     activeTextId := activeTextId s; editingText := editingText s;
     textDragOffsetRef := textDragOffsetRef s;
     textResizeState := textResizeState s |}.

Definition setStickerResizeState (v : option ResizeState) (s : Stage) : Stage :=
  {| size := size s; dragStart := dragStart s; dragCurrent := dragCurrent s;
     activeLensId := activeLensId s; dragOffsetRef := dragOffsetRef s;
     resizeState := resizeState s; activeStickerId := activeStickerId s;
     stickerDragOffsetRef := stickerDragOffsetRef s;
     stickerResizeState := v;
     activeTextId := activeTextId s; editingText := editingText s;
     textDragOffsetRef := textDragOffsetRef s;
     textResizeState := textResizeState s |}.

Definition setActiveTextId (v : option string) (s : Stage) : Stage :=
  {| size := size s; dragStart := dragStart s; dragCurrent := dragCurrent s;
     activeLensId := activeLensId s; dragOffsetRef := dragOffsetRef s;
     resizeState := resizeState s; activeStickerId := activeStickerId s;
     stickerDragOffsetRef := stickerDragOffsetRef s;
     stickerResizeState := stickerResizeState s;
     activeTextId := v; editingText := editingText s;
     textDragOffsetRef := textDragOffsetRef s;
     textResizeState := textResizeState s |}.

Definition setEditingText (v : string) (s : Stage) : Stage :=
  {| size := size s; dragStart := dragStart s; dragCurrent := dragCurrent s;
     activeLensId := activeLensId s; dragOffsetRef := dragOffsetRef s;
     resizeState := resizeState s; activeStickerId := activeStickerId s;
     stickerDragOffsetRef := stickerDragOffsetRef s;
     stickerResizeState := stickerResizeState s;
     activeTextId := activeTextId s; editingText := v;
     textDragOffsetRef := textDragOffsetRef s;
     textResizeState := textResizeState s |}.

Definition setTextDragOffset (v : option Offset) (s : Stage) : Stage :=
  {| size := size s; dragStart := dragStart s; dragCurrent := dragCurrent s;
     activeLensId := activeLensId s; dragOffsetRef := dragOffsetRef s;
     resizeState := resizeState s; activeStickerId := activeStickerId s;
     stickerDragOffsetRef := stickerDragOffsetRef s;
     stickerResizeState := stickerResizeState s;
     activeTextId := activeTextId s; editingText := editingText s;
     textDragOffsetRef := v;
     textResizeState := textResizeState s |}.

Definition setTextResizeState (v : option ResizeState) (s : Stage) : Stage :=
  {| size := size s; dragStart := dragStart s; dragCurrent := dragCurrent s;
     activeLensId := activeLensId s; dragOffsetRef := dragOffsetRef s;
     resizeState := resizeState s; activeStickerId := activeStickerId s;
     stickerDragOffsetRef := stickerDragOffsetRef s;
     stickerResizeState := stickerResizeState s;
     activeTextId := activeTextId s; editingText := editingText s;
     textDragOffsetRef := textDragOffsetRef s;
     textResizeState := v |}.

(* The page together with the stage it renders. *)
Record App := { home : Home; stage : Stage }.

Definition initialApp : App := {| home := initialHome; stage := initialStage |}.

Definition withHome (f : Home -> Home) (a : App) : App :=
  {| home := f (home a); stage := stage a |}.

Definition withStage (f : Stage -> Stage) (a : App) : App :=
  {| home := home a; stage := f (stage a) |}.

(* A pointer event: its button and [toCanvasPoint(event)], the pointer in
   canvas coordinates (any rational, also outside the canvas). *)
Record PointerEvent := { button : Z; point : Point }.

(* A string or null used as a condition: null and the empty string are
   falsy. *)
Definition truthy (o : option string) : bool :=
  match o with Some s => negb (isEmpty s) | None => false end.

(* The font shorthand assigned to [ctx.font]: the pixel size and the family
   list that follows it. *)
Record FontString := { font_px : Q; font_families : string }.

(* `${size}px ${font.includes(" ") ? `'${font}'` : font}, Terminus, monospace` *)
Definition fontString (sz : Q) (font : string) : FontString :=
  {| font_px := sz;
     font_families :=
       (if includesSpace font then "'" ++ font ++ "'" else font)
       ++ ", Terminus, monospace" |}.

Record TextBounds := {
  tb_width : Q;
  tb_height : Q;
  tb_lineHeight : Q;
  tb_lines : list string
}.

(* Math.max(first, ...rest) *)
Definition maxOf (first : Q) (rest : list Q) : Q := fold_left Qmax rest first.

Section Handlers.

(* [ctx.measureText(text).width] under [ctx.font = font], when the module
   could create a 2D context; [None] when it could not. *)
Variable ctx : option (string -> FontString -> Q).

(* The [width] of [measureText(text, font)]. *)
Definition measureText (s : string) (font : FontString) : Q :=
  match ctx with
  | None => Qmax 30 (ofNat (String.length s) * 12 * (3 # 5))
  | Some measure => Qmax 30 (measure s font)
  end.

Definition estimateTextBounds (s : string) (sz : Q) (font : string)
    : TextBounds :=
  let fs := fontString sz font in
  let lines := splitLines (if isEmpty s then "Text" else s) in
  let lineHeight := sz * (6 # 5) in
  let widths :=
    map (fun line => measureText (if isEmpty line then " " else line) fs)
        lines in
  let width := maxOf 30 widths in
  let height := Qmax lineHeight (ofNat (List.length lines) * lineHeight) in
  {| tb_width := width; tb_height := height; tb_lineHeight := lineHeight;
     tb_lines := lines |}.

Definition getTextBounds (t : TextOverlay) : TextBounds :=
  estimateTextBounds (text_text t) (text_size t) (text_font t).

(* The hit test shared by lenses and stickers.  With a zero radius the
   source's quotient is [Infinity] or [NaN] and [norm <= 1] is false. *)
Definition isWithinLens (x y width height : Q) (shape : LensShape)
    (p : Point) : bool :=
  let withinRect :=
    Qgeb (px p) x && Qleb (px p) (x + width) &&
    Qgeb (py p) y && Qleb (py p) (y + height) in
  if negb withinRect then false
  else
    match shape with
    | rounded => true
    | circle =>
        let rx := width / 2 in
        let ry := height / 2 in
        let cx := x + rx in
        let cy := y + ry in
        if Qeq_bool rx 0 || Qeq_bool ry 0 then false
        else
          let norm :=
            ((px p - cx) * (px p - cx)) / (rx * rx) +
            ((py p - cy) * (py p - cy)) / (ry * ry) in
          Qleb norm 1
    end.

Definition isWithinText (t : TextOverlay) (p : Point) : bool :=
  let bounds := getTextBounds t in
  Qgeb (px p) (text_x t) && Qleb (px p) (text_x t + tb_width bounds) &&
  Qgeb (py p) (text_y t) && Qleb (py p) (text_y t + tb_height bounds).

(* backgroundMode === "image" ? image : null *)
Definition effectiveImage (h : Home) : option Bitmap :=
  match backgroundMode h with bgImage => image h | _ => None end.

Record ImageMetrics := {
  scale : Q;
  offsetX : Q;
  offsetY : Q;
  drawWidth : Q;
  drawHeight : Q
}.

(* The fit of a bitmap into a [width] x [height] surface.  A decoded bitmap
   has a positive natural size. *)
Definition fitImage (img : Bitmap) (width height : Q) : ImageMetrics :=
  let scale :=
    Qmin (width / ofN (naturalWidth img)) (height / ofN (naturalHeight img)) in
  let drawWidth := ofN (naturalWidth img) * scale in
  let drawHeight := ofN (naturalHeight img) * scale in
  {| scale := scale;
     offsetX := (width - drawWidth) / 2;
     offsetY := (height - drawHeight) / 2;
     drawWidth := drawWidth;
     drawHeight := drawHeight |}.

Definition imageMetrics (a : App) : option ImageMetrics :=
  match effectiveImage (home a) with
  | None => None
  | Some img =>
      Some (fitImage img (sizeWidth (size (stage a)))
                     (sizeHeight (size (stage a))))
  end.

Definition toImagePoint (a : App) (p : Point) : Point :=
  match imageMetrics a, effectiveImage (home a) with
  | Some m, Some img =>
      {| px := clamp ((px p - offsetX m) / scale m) 0 (ofN (naturalWidth img));
         py := clamp ((py p - offsetY m) / scale m) 0 (ofN (naturalHeight img)) |}
  | _, _ => {| px := px p; py := py p |}
  end.

(* The live preview shown while a region is drawn. *)
Definition preview (a : App) : option LensPreview :=
  let h := home a in
  let st := stage a in
  match mode h with
  | MText => None
  | m =>
      match dragStart st, dragCurrent st with
      | Some ds, Some dc =>
          match m with
          | MMagnify =>
              Some {| preview_x := px dc - lensSize h / 2;
                      preview_y := py dc - lensSize h / 2;
                      preview_width := lensSize h;
                      preview_height := lensSize h;
                      preview_shape := lensShape h |}
          | _ =>
              Some {| preview_x := Qmin (px ds) (px dc);
                      preview_y := Qmin (py ds) (py dc);
                      preview_width := Qabs (px ds - px dc);
                      preview_height := Qabs (py ds - py dc);
                      preview_shape := lensShape h |}
          end
      | _, _ => None
      end
  end.

(* Clears the text selection: setActiveTextId(null); setEditingText("");
   textDragOffsetRef.current = null. *)
Definition clearTextSelection (s : Stage) : Stage :=
  setTextDragOffset None (setEditingText "" (setActiveTextId None s)).

(* texts.slice().reverse().find(...) and its two siblings: the entity added
   last wins. *)
Definition topmost {A} (hit : A -> bool) (l : list A) : option A :=
  find hit (rev l).

Definition rectOf (x y w h : Q) : Rect :=
  {| rx := x; ry := y; rwidth := w; rheight := h |}.

Definition handlePointerDown (ev : PointerEvent) (a : App) : App :=
  let h := home a in
  let p := point ev in
  let textHit := topmost (fun t => isWithinText t p) (texts h) in
  let stickerHit :=
    topmost (fun s => isWithinLens (sticker_x s) (sticker_y s)
                        (sticker_width s) (sticker_height s)
                        (sticker_shape s) p) (stickers h) in
  let hit :=
    topmost (fun l => isWithinLens (lens_x l) (lens_y l) (lens_width l)
                        (lens_height l) (lens_shape l) p) (lenses h) in
  let onEmpty :=
    match effectiveImage h, mode h with
    | Some _, _ | None, MText =>
        match textHit, stickerHit, hit with
        | None, None, None =>
            if truthy (activeTextId (stage a))
            then withStage clearTextSelection a
            else withStage (fun s => setDragCurrent (Some p)
                                       (setDragStart (Some p) s)) a
        | _, _, _ =>
            withStage (fun s => setDragCurrent (Some p)
                                  (setDragStart (Some p) s)) a
        end
    | None, _ => withStage clearTextSelection a
    end in
  let onLens :=
    match hit with
    | Some l =>
        if (button ev =? 0)%Z then
          withStage (fun s =>
            setDragOffset (Some {| dx := px p - lens_x l;
                                   dy := py p - lens_y l |})
              (setActiveLensId (Some (lens_id l)) s)) a
        else if (button ev =? 2)%Z then
          withStage (setResizeState
            (Some {| rs_id := lens_id l;
                     rs_start := rectOf (lens_x l) (lens_y l) (lens_width l)
                                        (lens_height l);
                     rs_startPoint := p |})) a
        else onEmpty
    | None => onEmpty
    end in
  let onSticker :=
    match stickerHit with
    | Some s =>
        if (button ev =? 0)%Z then
          withStage (fun st =>
            setStickerDragOffset (Some {| dx := px p - sticker_x s;
                                          dy := py p - sticker_y s |})
              (setActiveStickerId (Some (sticker_id s)) st)) a
        else if (button ev =? 2)%Z then
          withStage (setStickerResizeState
            (Some {| rs_id := sticker_id s;
                     rs_start := rectOf (sticker_x s) (sticker_y s)
                                        (sticker_width s) (sticker_height s);
                     rs_startPoint := p |})) a
        else onLens
    | None => onLens
    end in
  match textHit with
  | Some t =>
      if (button ev =? 0)%Z then
        let a := withStage (fun s =>
                   setTextDragOffset (Some {| dx := px p - text_x t;
                                              dy := py p - text_y t |})
                     (setActiveTextId (Some (text_id t)) s)) a in
        let a := withHome (handleTextSelect t) a in
        withStage (setEditingText (text_text t)) a
      else if (button ev =? 2)%Z then
        let bounds := getTextBounds t in
        let a := withStage (setActiveTextId (Some (text_id t))) a in
        let a := withHome (handleTextSelect t) a in
        let a := withStage (setEditingText (text_text t)) a in
        withStage (setTextResizeState
          (Some {| rs_id := text_id t;
                   rs_start := rectOf (text_x t) (text_y t)
                                      (tb_width bounds) (tb_height bounds);
                   rs_startPoint := p |})) a
      else onSticker
  | None => onSticker
  end.

Definition isSome {A} (o : option A) : bool :=
  match o with Some _ => true | None => false end.

(* naturalWidth && naturalHeight ? naturalWidth / naturalHeight : 1 *)
Definition stickerRatio (img : Bitmap) : Q :=
  if (negb (naturalWidth img =? 0) && negb (naturalHeight img =? 0))%N
  then ofN (naturalWidth img) / ofN (naturalHeight img)
  else 1.

(* lines.reduce((max, line) => Math.max(max, line.length), 1) *)
Definition longestLine (lines : list string) : Q :=
  fold_left (fun max line => Qmax max (ofNat (String.length line))) lines 1.

Definition lensById (id : string) (l : list Lens) : option Lens :=
  find (fun x => String.eqb (lens_id x) id) l.

Definition stickerById (id : string) (l : list Sticker) : option Sticker :=
  find (fun x => String.eqb (sticker_id x) id) l.

Definition textById (id : string) (l : list TextOverlay) : option TextOverlay :=
  find (fun x => String.eqb (text_id x) id) l.

(* The branch of [handlePointerMove] under [if (textResizeState)]. *)
Definition moveTextResize (r : ResizeState) (p : Point) (a : App) : App :=
  let start := rs_start r in
  let dx := px p - px (rs_startPoint r) in
  let dy := py p - py (rs_startPoint r) in
  let nextWidth := Qmax 30 (rwidth start + dx) in
  let nextHeight := Qmax 18 (rheight start + dy) in
  match textById (rs_id r) (texts (home a)) with
  | Some currentText =>
      let lines := splitLines (text_text currentText) in
      let longest := longestLine lines in
      let newSize :=
        Qmax 10
          (Qmin 200
             (Qmin (nextWidth / Qmax 1 longest / (3 # 5))
                   (nextHeight / (6 # 5) / ofNat (List.length lines)))) in
      withHome (onTextUpdate (rs_id r) (textSizePatch newSize)) a
  | None => a
  end.

(* The branch under [if (activeTextId && textDragOffsetRef.current)]. *)
Definition moveTextDrag (id : string) (off : Offset) (p : Point) (a : App)
    : App :=
  match textById id (texts (home a)) with
  | Some t =>
      let bounds := getTextBounds t in
      let newX := clamp (px p - dx off) 0
                    (sizeWidth (size (stage a)) - tb_width bounds) in
      let newY := clamp (py p - dy off) 0
                    (sizeHeight (size (stage a)) - tb_height bounds) in
      withHome (onTextUpdate (text_id t) (textMovePatch newX newY)) a
  | None => a
  end.

(* The branch under [if (stickerResizeState && stickerImage)]. *)
Definition moveStickerResize (r : ResizeState) (img : Bitmap) (p : Point)
    (a : App) : App :=
  let start := rs_start r in
  let dx := px p - px (rs_startPoint r) in
  let dy := py p - py (rs_startPoint r) in
  let ratio := stickerRatio img in
  let newWidth0 := rwidth start + dx in
  let newHeight0 := newWidth0 / ratio in
  let grow := Qltb newHeight0 (rheight start + dy) in
  let newHeight1 := if grow then rheight start + dy else newHeight0 in
  let newWidth1 := if grow then newHeight1 * ratio else newWidth0 in
  let newWidth := clamp newWidth1 40 (sizeWidth (size (stage a)) - rx start) in
  let newHeight :=
    clamp newHeight1 40 (sizeHeight (size (stage a)) - ry start) in
  withHome (onStickerUpdate (rs_id r) (stickerSizePatch newWidth newHeight)) a.

(* The branch under [if (activeStickerId && stickerDragOffsetRef.current)]. *)
Definition moveStickerDrag (id : string) (off : Offset) (p : Point) (a : App)
    : App :=
  match stickerById id (stickers (home a)) with
  | Some s =>
      let newX := clamp (px p - dx off) 0
                    (sizeWidth (size (stage a)) - sticker_width s) in
      let newY := clamp (py p - dy off) 0
                    (sizeHeight (size (stage a)) - sticker_height s) in
      withHome (onStickerUpdate (sticker_id s) (stickerMovePatch newX newY)) a
  | None => a
  end.

(* ["circle"].includes(lenses.find((l) => l.id === id)?.shape ?? "") *)
Definition isCircleLens (id : string) (l : list Lens) : bool :=
  match lensById id l with
  | Some x => LensShape_eqb (lens_shape x) circle
  | None => false
  end.

(* The branch under [if (resizeState)]. *)
Definition moveLensResize (r : ResizeState) (p : Point) (a : App) : App :=
  let start := rs_start r in
  let dx := px p - px (rs_startPoint r) in
  let dy := py p - py (rs_startPoint r) in
  let roomX := sizeWidth (size (stage a)) - rx start in
  let roomY := sizeHeight (size (stage a)) - ry start in
  let newWidth := clamp (rwidth start + dx) 60 roomX in
  let newHeight := clamp (rheight start + dy) 60 roomY in
  if isCircleLens (rs_id r) (lenses (home a)) then
    let unified := Qmin (Qmax newWidth newHeight) (Qmin roomX roomY) in
    withHome (onLensUpdate (rs_id r) (lensSizePatch unified unified)) a
  else
    withHome (onLensUpdate (rs_id r) (lensSizePatch newWidth newHeight)) a.

(* The branch under [if (activeLensId && dragOffsetRef.current)]. *)
Definition moveLensDrag (id : string) (off : Offset) (p : Point) (a : App)
    : App :=
  match lensById id (lenses (home a)) with
  | Some l =>
      let newX := clamp (px p - dx off) 0
                    (sizeWidth (size (stage a)) - lens_width l) in
      let newY := clamp (py p - dy off) 0
                    (sizeHeight (size (stage a)) - lens_height l) in
      withHome
        (onLensUpdate (lens_id l)
           (lensMovePatch newX newY
              (lens_sourceX l + (newX - lens_x l))
              (lens_sourceY l + (newY - lens_y l)))) a
  | None => a
  end.

(* The gesture a pointer move is dispatched to: the first condition of the
   chain of [if]s in [handlePointerMove] that holds. *)
Inductive MoveBranch :=
| BTextResize (r : ResizeState)
| BTextDrag (id : string) (off : Offset)
| BStickerResize (r : ResizeState) (img : Bitmap)
| BStickerDrag (id : string) (off : Offset)
| BLensResize (r : ResizeState)
| BLensDrag (id : string) (off : Offset)
| BPreview
| BIdle.

Definition moveBranch (a : App) : MoveBranch :=
  let st := stage a in
  match textResizeState st with
  | Some r => BTextResize r
  | None =>
  match (if truthy (activeTextId st) then activeTextId st else None),
        textDragOffsetRef st with
  | Some id, Some off => BTextDrag id off
  | _, _ =>
  match stickerResizeState st, stickerImage (home a) with
  | Some r, Some img => BStickerResize r img
  | _, _ =>
  match (if truthy (activeStickerId st) then activeStickerId st else None),
        stickerDragOffsetRef st with
  | Some id, Some off => BStickerDrag id off
  | _, _ =>
  match resizeState st with
  | Some r => BLensResize r
  | None =>
  match (if truthy (activeLensId st) then activeLensId st else None),
        dragOffsetRef st with
  | Some id, Some off => BLensDrag id off
  | _, _ =>
  match dragStart st with
  | Some _ => BPreview
  | None => BIdle
  end end end end end end end.

Definition handlePointerMove (ev : PointerEvent) (a : App) : App :=
  let p := point ev in
  match moveBranch a with
  | BTextResize r => moveTextResize r p a
  | BTextDrag id off => moveTextDrag id off p a
  | BStickerResize r img => moveStickerResize r img p a
  | BStickerDrag id off => moveStickerDrag id off p a
  | BLensResize r => moveLensResize r p a
  | BLensDrag id off => moveLensDrag id off p a
  | BPreview => withStage (setDragCurrent (Some p)) a
  | BIdle => a
  end.

Definition endDrag (a : App) : App :=
  withStage (fun s => setDragCurrent None (setDragStart None s)) a.

(* The [mode === "text"] branch of [handlePointerUp]. *)
Definition upText (ds e : Point) (isClick : bool) (uuid : string) (a : App)
    : App :=
  let h := home a in
  let content := trim (textValue h) in
  if isEmpty content then endDrag a
  else
    let est := estimateTextBounds content (textSize h) textFont in
    let estWidth := tb_width est in
    let estHeight := tb_height est in
    let x := clamp (if isClick then px ds - estWidth / 2
                    else Qmin (px ds) (px e))
               0 (sizeWidth (size (stage a)) - estWidth) in
    let y := clamp (if isClick then py ds - estHeight / 2
                    else Qmin (py ds) (py e))
               0 (sizeHeight (size (stage a)) - estHeight) in
    let newText :=
      {| text_id := uuid; text_x := x; text_y := y; text_text := content;
         text_color := textColor h; text_size := textSize h;
         text_font := textFont |} in
    let a := withHome (handleTextAdd newText) a in
    let a := withHome (handleTextSelect newText) a in
    let a := withStage (setActiveTextId (Some uuid)) a in
    let a := withStage (setTextDragOffset None) a in
    endDrag a.

(* The [mode === "sticker" && stickerImage] branch of [handlePointerUp]. *)
Definition upSticker (img : Bitmap) (ds e : Point) (uuid : string) (a : App)
    : App :=
  let h := home a in
  let width0 := Qabs (px e - px ds) in
  let height0 := Qabs (py e - py ds) in
  let isClick := Qltb width0 8 && Qltb height0 8 in
  let width1 := if isClick then lensSize h else width0 in
  let height1 := if isClick then lensSize h else height0 in
  let ratio := stickerRatio img in
  let wide := gtQuot width1 height1 ratio in
  let width := if wide then height1 * ratio else width1 in
  let height := if wide then height1 else width1 / ratio in
  let x := if isClick then px ds - width / 2 else Qmin (px ds) (px e) in
  let y := if isClick then py ds - height / 2 else Qmin (py ds) (py e) in
  let clampedWidth := clamp width 40 (sizeWidth (size (stage a))) in
  let clampedHeight := clamp height 40 (sizeHeight (size (stage a))) in
  let clampedX := clamp x 0 (sizeWidth (size (stage a)) - clampedWidth) in
  let clampedY := clamp y 0 (sizeHeight (size (stage a)) - clampedHeight) in
  let a :=
    withHome
      (handleStickerAdd
         {| sticker_id := uuid; sticker_x := clampedX; sticker_y := clampedY;
            sticker_width := clampedWidth; sticker_height := clampedHeight;
            sticker_image := img; sticker_shape := lensShape h |}) a in
  endDrag a.

(* The lens the [mode === "magnify"] branch builds. *)
Definition magnifyLens (ds e : Point) (isClick : bool) (uuid : string)
    (now : Z) (a : App) : Lens :=
  let h := home a in
  let W := sizeWidth (size (stage a)) in
  let H := sizeHeight (size (stage a)) in
  let widthHeight := Qmin (Qmin (lensSize h) W) H in
  let targetCenter :=
    if isClick
    then {| px := clamp (px ds + widthHeight * (65 # 100)) 0 W;
            py := clamp (py ds - widthHeight * (25 # 100)) 0 H |}
    else {| px := px e; py := py e |} in
  let x := clamp (px targetCenter - widthHeight / 2) 0 (W - widthHeight) in
  let y := clamp (py targetCenter - widthHeight / 2) 0 (H - widthHeight) in
  let imagePoint := toImagePoint a ds in
  {| lens_id := uuid; lens_x := x; lens_y := y;
     lens_width := widthHeight; lens_height := widthHeight;
     lens_sourceX := clamp (px ds) 0 W; lens_sourceY := clamp (py ds) 0 H;
     lens_sourceImageX := px imagePoint; lens_sourceImageY := py imagePoint;
     lens_shape := lensShape h; lens_mode := mode h;
     lens_blur := blurAmount h; lens_magnification := magnification h;
     lens_createdAt := now |}.

(* The lens the final [else] branch builds, for every mode that reaches it. *)
Definition regionLens (ds e : Point) (width0 height0 : Q) (isClick : bool)
    (uuid : string) (now : Z) (a : App) : Lens :=
  let h := home a in
  let W := sizeWidth (size (stage a)) in
  let H := sizeHeight (size (stage a)) in
  let width := if isClick then lensSize h else width0 in
  let height := if isClick then lensSize h else height0 in
  let x := if isClick then px ds - width / 2 else Qmin (px ds) (px e) in
  let y := if isClick then py ds - height / 2 else Qmin (py ds) (py e) in
  let clampedWidth := Qmin width W in
  let clampedHeight := Qmin height H in
  let clampedX := clamp x 0 (W - clampedWidth) in
  let clampedY := clamp y 0 (H - clampedHeight) in
  let imagePoint :=
    toImagePoint a {| px := clampedX + clampedWidth / 2;
                      py := clampedY + clampedHeight / 2 |} in
  {| lens_id := uuid; lens_x := clampedX; lens_y := clampedY;
     lens_width := clampedWidth; lens_height := clampedHeight;
     lens_sourceX := clampedX + clampedWidth / 2;
     lens_sourceY := clampedY + clampedHeight / 2;
     lens_sourceImageX := px imagePoint; lens_sourceImageY := py imagePoint;
     lens_shape := lensShape h; lens_mode := mode h;
     lens_blur := blurAmount h; lens_magnification := magnification h;
     lens_createdAt := now |}.

(* What remains of [handlePointerUp] once no drag or resize is active and
   [dragStart] is set. *)
Definition upCreate (ds : Point) (uuid : string) (now : Z) (a : App) : App :=
  let h := home a in
  let e := orElse (dragCurrent (stage a)) ds in
  let width := Qabs (px e - px ds) in
  let height := Qabs (py e - py ds) in
  let isClick := Qltb width 8 && Qltb height 8 in
  match mode h, stickerImage h with
  | MText, _ => upText ds e isClick uuid a
  | MSticker, Some img => upSticker img ds e uuid a
  | MMagnify, _ =>
      endDrag (withHome (handleLensAdd (magnifyLens ds e isClick uuid now a)) a)
  | _, _ =>
      endDrag
        (withHome
           (handleLensAdd (regionLens ds e width height isClick uuid now a)) a)
  end.

(* Also the handler of [pointerleave].  [uuid] and [now] are the values
   [crypto.randomUUID()] and [Date.now()] return if the handler calls them. *)
Definition handlePointerUp (uuid : string) (now : Z) (a : App) : App :=
  let st := stage a in
  if isSome (textResizeState st) then withStage (setTextResizeState None) a
  else
    let a := withStage (setTextDragOffset None) a in
    if isSome (stickerResizeState st)
    then withStage (setStickerResizeState None) a
    else if truthy (activeStickerId st)
    then withStage (fun s => setStickerDragOffset None
                               (setActiveStickerId None s)) a
    else if isSome (resizeState st)
    then withStage (setResizeState None) a
    else if truthy (activeLensId st)
    then withStage (fun s => setDragOffset None (setActiveLensId None s)) a
    else
      match dragStart st with
      | None => withStage (setTextDragOffset None) a
      | Some ds => upCreate ds uuid now a
      end.

(* The [keydown] listener of the stage, on Escape. *)
Definition handleEscape (a : App) : App := withStage clearTextSelection a.

(* The effect that mirrors the text controls into the selected text. *)
Definition liveTextUpdate (a : App) : App :=
  match activeTextId (stage a) with
  | Some id =>
      if isEmpty id then a
      else
        withHome
          (onTextUpdate id
             (textStylePatch (textValue (home a)) (textColor (home a))
                (textSize (home a)) textFont)) a
  | None => a
  end.

End Handlers.

(* Whether the dependencies of the live-update effect, [activeTextId],
   [textColor], [textSize] and [textValue] ([textFont] is a constant), are
   the same in two renders. *)
Definition sameTextDeps (a b : App) : bool :=
  match activeTextId (stage a), activeTextId (stage b) with
  | Some x, Some y => String.eqb x y
  | None, None => true
  | _, _ => false
  end &&
  String.eqb (textColor (home a)) (textColor (home b)) &&
  Qeq_bool (textSize (home a)) (textSize (home b)) &&
  String.eqb (textValue (home a)) (textValue (home b)).

(* The page once the render that follows a change from [before] to [after]
   has run its effects: the live-update effect runs if one of its
   dependencies changed. *)
Definition rendered (before after : App) : App :=
  if sameTextDeps before after then after else liveTextUpdate after.

(* Math.round: the nearest integer, a half going up. *)
Definition round (x : Q) : Q := inject_Z (Qfloor (x + (1 # 2))).

(* Math.min(maxWidth / naturalWidth, maxHeight / naturalHeight, 1).  Both
   dividends are positive, so a quotient by 0 is [Infinity] and drops out of
   the minimum. *)
Definition fitRatio (maxWidth maxHeight : Q) (img : Bitmap) : Q :=
  let r :=
    if (naturalHeight img =? 0)%N then 1
    else Qmin (maxHeight / ofN (naturalHeight img)) 1 in
  if (naturalWidth img =? 0)%N then r
  else Qmin (maxWidth / ofN (naturalWidth img)) r.

(* Sets the canvas size; called when the stage mounts and whenever its
   container is resized.  [containerWidth] and [containerHeight] stand for
   [containerRef.current?.clientWidth ?? window.innerWidth ?? 1024] and its
   sibling. *)
Definition computeSize (containerWidth containerHeight : Q) (a : App) : App :=
  let maxWidth := Qmax (containerWidth - 24) 480 in
  let maxHeight := Qmax 420 (containerHeight - 40) in
  match effectiveImage (home a) with
  | Some img =>
      let ratio := fitRatio maxWidth maxHeight img in
      withStage
        (setSize
           {| sizeWidth := Qmax 420 (round (ofN (naturalWidth img) * ratio));
              sizeHeight :=
                Qmax 320 (round (ofN (naturalHeight img) * ratio)) |}) a
  | None =>
      let targetW := 1920 in
      let targetH := 1080 in
      let width := Qmin maxWidth targetW in
      let height := round (width * (targetH / targetW)) in
      let tooHigh := Qltb maxHeight height in
      let height' := if tooHigh then maxHeight else height in
      let width' :=
        if tooHigh then round (height' * (targetW / targetH)) else width in
      withStage
        (setSize {| sizeWidth := Qmax 640 width';
                    sizeHeight := Qmax 360 height' |}) a
  end.

(* event.currentTarget.getBoundingClientRect() *)
Record DOMRect := {
  rect_left : Q;
  rect_top : Q;
  rect_width : Q;
  rect_height : Q
}.

(* size.width || 1 *)
Definition orOne (x : Q) : Q := if Qeq_bool x 0 then 1 else x.

(* [None] when the element has no extent on some axis: the quotient by 0
   leaves no finite coordinate. *)
Definition toCanvasPoint (rect : DOMRect) (clientX clientY : Q) (a : App)
    : option Point :=
  if Qeq_bool (rect_width rect) 0 || Qeq_bool (rect_height rect) 0 then None
  else
    Some {| px := (clientX - rect_left rect) / rect_width rect *
                  orOne (sizeWidth (size (stage a)));
            py := (clientY - rect_top rect) / rect_height rect *
                  orOne (sizeHeight (size (stage a))) |}.

(** ** The scene compositor ([src/lib/canvas.ts]) *)

(* What a drawing function puts on the surface: one constructor per painting
   call (or clipped group of calls) of [canvas.ts]. *)
Inductive Paint :=
| PClear (width height : Q)
    (* ctx.clearRect(0, 0, width, height) *)
| PBaseImage (img : Bitmap) (m : ImageMetrics)
    (* renderScene: ctx.drawImage(image, ..., offsetX, offsetY, drawWidth, drawHeight) *)
| PBackground (color : string) (width height : Q)
    (* drawPlaceholder: fillRect(0, 0, width, height) in backgroundColor *)
| PPlaceholderLabel (x y : Q)
    (* drawPlaceholder: fillText("OPEN AN IMAGE TO START EDITING.", x, y) *)
| PSticker (s : Sticker)
    (* drawSticker: drawImage of sticker.image into its rectangle, clipped *)
| PTextLine (t : TextOverlay) (line : string) (x y : Q)
    (* drawText: fillText(line, x, y) *)
| PConnector (l : Lens) (source target : Point) (startWidth endWidth : Q)
    (* drawConnector: the tapered quadrilateral, filled and stroked *)
| PConnectorDot (l : Lens) (source : Point)
    (* drawConnector: the marker arc at the source point *)
| PLensBlur (l : Lens) (img : Bitmap) (m : ImageMetrics)
    (* drawLens: the base image under filter blur(lens.blur), clipped *)
| PLensMagnify (l : Lens) (center : Point) (factor : Q) (source : Point)
    (img : Bitmap) (m : ImageMetrics)
    (* drawLens: translate(center); scale(factor); translate(-source);
       the base image, clipped *)
| PGlass (l : Lens)
    (* drawGlassOverlay: the radial highlight, clipped *)
| PPreviewFill (p : LensPreview)
| PPreviewStroke (p : LensPreview).

(* The surface as a log of paint operations; a drawing function appends to
   it. *)
Definition Draw (A : Type) : Type := list Paint -> A * list Paint.

Definition ret {A} (a : A) : Draw A := fun log => (a, log).

Definition bind {A B} (d : Draw A) (k : A -> Draw B) : Draw B :=
  fun log => let (a, log') := d log in k a log'.

Definition emit (p : Paint) : Draw unit := fun log => (tt, (log ++ [p])%list).

Definition skip : Draw unit := ret tt.

Declare Scope draw_scope.
Delimit Scope draw_scope with draw.
Notation "d1 ;; d2" := (bind d1 (fun _ => d2))
  (at level 61, right associativity) : draw_scope.

(* list.forEach(f) *)
Fixpoint forEach {A} (l : list A) (f : A -> Draw unit) : Draw unit :=
  match l with
  | [] => skip
  | x :: r => bind (f x) (fun _ => forEach r f)
  end.

(* lines.forEach((line, idx) => f(line, idx)), from index [idx]. *)
Fixpoint forEachIdx {A} (l : list A) (idx : nat) (f : A -> nat -> Draw unit)
    : Draw unit :=
  match l with
  | [] => skip
  | x :: r => bind (f x idx) (fun _ => forEachIdx r (S idx) f)
  end.

Definition exec (d : Draw unit) : list Paint := snd (d []).

Open Scope draw_scope.

Definition drawPlaceholder (width height : Q) (backgroundColor : string)
    (showPlaceholder : bool) : Draw unit :=
  emit (PBackground backgroundColor width height) ;;
  if negb showPlaceholder then skip
  else emit (PPlaceholderLabel (width / 2) (height / 2)).

(* The point of the base image, in canvas coordinates, that a lens samples. *)
Definition sourceDisplay (l : Lens) (m : ImageMetrics) : Point :=
  {| px := offsetX m + lens_sourceImageX l * scale m;
     py := offsetY m + lens_sourceImageY l * scale m |}.

Definition lensCenter (l : Lens) : Point :=
  {| px := lens_x l + lens_width l / 2; py := lens_y l + lens_height l / 2 |}.

Definition drawLens (img : option Bitmap) (canvasWidth canvasHeight : Q)
    (l : Lens) (draw : option ImageMetrics) : Draw unit :=
  match img, draw with
  | Some image, Some m =>
      (match lens_mode l with
       | MBlur => emit (PLensBlur l image m)
       | _ =>
           emit (PLensMagnify l (lensCenter l)
                   (clamp (lens_magnification l) 1 4) (sourceDisplay l m)
                   image m)
       end) ;;
      (match lens_mode l with
       | MMagnify => emit (PGlass l)
       | _ => skip
       end)
  | _, _ => skip
  end.

Definition drawConnector (l : Lens) (m : ImageMetrics) : Draw unit :=
  let target := lensCenter l in
  let source := sourceDisplay l m in
  let endWidth := Qmin (lens_width l * (12 # 100)) 16 in
  let startWidth := 4 in
  emit (PConnector l source target startWidth endWidth) ;;
  emit (PConnectorDot l source).

Definition drawSticker (s : Sticker) : Draw unit := emit (PSticker s).

Definition drawText (t : TextOverlay) : Draw unit :=
  let lines := splitLines (text_text t) in
  let lineHeight := text_size t * (6 # 5) in
  forEachIdx lines 0
    (fun line idx =>
       emit (PTextLine t line (text_x t) (text_y t + ofNat idx * lineHeight))).

Definition drawPreview (p : LensPreview) : Draw unit :=
  emit (PPreviewFill p) ;; emit (PPreviewStroke p).

(* The canvas element: its pixel size, whether [getContext("2d")] answers,
   and what has been painted on it. *)
Record Canvas := {
  canvas_width : Q;
  canvas_height : Q;
  has2d : bool;
  painted : list Paint
}.

Record RenderArgs := {
  arg_canvas : option Canvas;
  arg_image : option Bitmap;
  arg_lenses : list Lens;
  arg_stickers : list Sticker;
  arg_texts : list TextOverlay;
  arg_preview : option LensPreview;
  arg_width : Q;
  arg_height : Q;
  arg_backgroundColor : string;
  arg_showPlaceholder : bool
}.

(* The body of [renderScene] from [ctx.clearRect] on. *)
Definition paintScene (r : RenderArgs) : Draw unit :=
  let width := arg_width r in
  let height := arg_height r in
  let draw :=
    match arg_image r with
    | Some img => Some (fitImage img width height)
    | None => None
    end in
  emit (PClear width height) ;;
  (match arg_image r, draw with
   | Some img, Some m => emit (PBaseImage img m)
   | _, _ =>
       drawPlaceholder width height (arg_backgroundColor r)
         (arg_showPlaceholder r)
   end) ;;
  (if isSome draw then forEach (arg_stickers r) drawSticker else skip) ;;
  forEach (arg_texts r) drawText ;;
  forEach
    (filter (fun l => Mode_eqb (lens_mode l) MMagnify) (arg_lenses r))
    (fun l => match draw with
              | Some m => drawConnector l m
              | None => skip
              end) ;;
  forEach (arg_lenses r)
    (fun l => drawLens (arg_image r) width height l draw) ;;
  match arg_preview r with
  | Some p => drawPreview p
  | None => skip
  end.

(* Assigning [canvas.width] or [canvas.height] resets the bitmap. *)
Definition renderScene (r : RenderArgs) : option Canvas :=
  match arg_canvas r with
  | None => None
  | Some c =>
      if negb (has2d c) then Some c
      else
        let resized :=
          negb (Qeq_bool (canvas_width c) (arg_width r)) ||
          negb (Qeq_bool (canvas_height c) (arg_height r)) in
        let before := if resized then [] else painted c in
        Some {| canvas_width := if resized then arg_width r else canvas_width c;
                canvas_height :=
                  if resized then arg_height r else canvas_height c;
                has2d := true;
                painted := snd (paintScene r before) |}
  end.

(* What one call of [renderScene] paints. *)
Definition scenePaints (r : RenderArgs) : list Paint :=
  match arg_canvas r with
  | Some c => if has2d c then exec (paintScene r) else []
  | None => []
  end.




(* The arguments the stage's effect hands to [renderScene]. *)
Definition stageRenderArgs (canvas : option Canvas) (a : App) : RenderArgs :=
  let h := home a in
  {| arg_canvas := canvas;
     arg_image := effectiveImage h;
     arg_lenses := lenses h;
     arg_stickers := stickers h;
     arg_texts := texts h;
     arg_preview := preview a;
     arg_width := sizeWidth (size (stage a));
     arg_height := sizeHeight (size (stage a));
     arg_backgroundColor :=
       match backgroundMode h with
       | bgWhite => "#ffffff"
       | bgBlack => "#000000"
       | bgImage => "#0a0a0a"
       end;
     arg_showPlaceholder :=
       match backgroundMode h with bgImage => true | _ => false end |}.

Close Scope draw_scope.

(** ** The colour sliders ([RgbPicker] of [src/components/ControlPanel.tsx]) *)

Module RgbPicker.

(* A channel is a number: an integer, or [NaN] ([None]) when [parseInt] found
   no digit. *)
Record Rgb := { r : option Z; g : option Z; b : option Z }.

Inductive Channel := chR | chG | chB.

(* hex.replace("#", ""): the first occurrence only. *)
Fixpoint removeFirst (c : ascii) (s : string) : string :=
  match s with
  | String d rest => if Ascii.eqb d c then rest else String d (removeFirst c rest)
  | EmptyString => EmptyString
  end.

(* s.slice(from, to) for 0 <= from <= to. *)
Definition slice (from to : nat) (s : string) : string :=
  substring from (to - from) s.

Definition hexValue (c : ascii) : option N :=
  let n := N_of_ascii c in
  if ((48 <=? n) && (n <=? 57))%N then Some (n - 48)%N
  else if ((97 <=? n) && (n <=? 102))%N then Some (n - 87)%N
  else if ((65 <=? n) && (n <=? 70))%N then Some (n - 55)%N
  else None.

(* The value of the longest prefix of hexadecimal digits, if it has one. *)
Fixpoint hexPrefix (s : string) (acc : option N) : option N :=
  match s with
  | String c rest =>
      match hexValue c with
      | Some d => hexPrefix rest (Some (16 * orElse acc 0 + d)%N)
      | None => acc
      end
  | EmptyString => acc
  end.

(* parseInt(s, 16): leading white space, a sign and a 0x prefix are skipped,
   then the digits are read as far as they go. *)
Definition parseInt16 (s : string) : option Z :=
  let s := trimStart s in
  let signed :=
    match s with
    | String "-" rest => (true, rest)
    | String "+" rest => (false, rest)
    | _ => (false, s)
    end in
  let digits :=
    match snd signed with
    | String "0" (String "x" rest) => rest
    | String "0" (String "X" rest) => rest
    | other => other
    end in
  match hexPrefix digits None with
  | Some n => Some (if fst signed then (- Z.of_N n)%Z else Z.of_N n)
  | None => None
  end.

Definition white : Rgb := {| r := Some 255%Z; g := Some 255%Z; b := Some 255%Z |}.

Definition hexToRgb (hex : string) : Rgb :=
  let normalized := removeFirst "#" hex in
  if negb (String.length normalized =? 6)%nat then white
  else {| r := parseInt16 (slice 0 2 normalized);
          g := parseInt16 (slice 2 4 normalized);
          b := parseInt16 (slice 4 6 normalized) |}.

Definition hexDigit (n : N) : ascii :=
  ascii_of_N (if (n <? 10)%N then 48 + n else 87 + n).

(* The digits of [n] in base 16 in front of [acc]; [fuel] bounds their
   number. *)
Fixpoint hexDigits (fuel : nat) (n : N) (acc : string) : string :=
  match fuel with
  | O => acc
  | S fuel' =>
      let acc := String (hexDigit (n mod 16)) acc in
      if (n <? 16)%N then acc else hexDigits fuel' (n / 16) acc
  end.

(* n.toString(16) for an integer n >= 0. *)
Definition toString16 (n : N) : string :=
  hexDigits (S (N.to_nat (N.log2 n))) n "".

Fixpoint repeatChar (n : nat) (c : ascii) : string :=
  match n with
  | O => EmptyString
  | S n' => String c (repeatChar n' c)
  end.

(* s.padStart(n, c) for a one-character pad. *)
Definition padStart (n : nat) (c : ascii) (s : string) : string :=
  (repeatChar (n - String.length s) c ++ s)%string.

(* Math.max(0, Math.min(255, c)) *)
Definition clamp255 (c : Z) : Z := Z.max 0 (Z.min 255 c).

(* Math.max(0, Math.min(255, c)).toString(16).padStart(2, "0"); [NaN] stays
   [NaN] and prints as such. *)
Definition channelHex (c : option Z) : string :=
  match c with
  | Some z => padStart 2 "0" (toString16 (Z.to_N (clamp255 z)))
  | None => "NaN"
  end.

Definition toHex (cr cg cb : option Z) : string :=
  String "#" (channelHex cr ++ channelHex cg ++ channelHex cb)%string.

(* const rgb = hexToRgb(value || "#ffffff") *)
Definition current (value : string) : Rgb :=
  hexToRgb (if isEmpty value then "#ffffff" else value).

(* [update(channel, val)]: the colour handed to [onChange]. *)
Definition update (value : string) (channel : Channel) (val : Z) : string :=
  let rgb := current value in
  let next :=
    match channel with
    | chR => {| r := Some val; g := g rgb; b := b rgb |}
    | chG => {| r := r rgb; g := Some val; b := b rgb |}
    | chB => {| r := r rgb; g := g rgb; b := Some val |}
    end in
  toHex (r next) (g next) (b next).

(* The two-digit form of every value from 0 to 255 reads back as the value
   and holds no "#". *)
Definition twoDigits (n : N) : bool :=
  match channelHex (Some (Z.of_N n)) with
  | String c1 (String c2 EmptyString) =>
      negb (Ascii.eqb c1 "#") &&
      match parseInt16 (String c1 (String c2 EmptyString)) with
      | Some z => (z =? Z.of_N n)%Z
      | None => false
      end
  | _ => false
  end.

End RgbPicker.

(** ** Histories of events *)

(* The mutating actions of the overlay store. *)
Inductive Mutation :=
| AddLens (l : Lens)
| AddSticker (s : Sticker)
| AddText (t : TextOverlay)
| UpdateLens (id : string) (payload : LensPatch)
| UpdateSticker (id : string) (payload : StickerPatch)
| UpdateText (id : string) (payload : TextPatch)
| Reset.

Definition mutate (m : Mutation) (h : Home) : Home :=
  match m with
  | AddLens l => handleLensAdd l h
  | AddSticker s => handleStickerAdd s h
  | AddText t => handleTextAdd t h
  | UpdateLens id payload => onLensUpdate id payload h
  | UpdateSticker id payload => onStickerUpdate id payload h
  | UpdateText id payload => onTextUpdate id payload h
  | Reset => handleReset h
  end.

(* [handleTextAdd] returns at once on a blank text; every other action goes
   through [pushHistory]. *)
Definition mutates (m : Mutation) : bool :=
  match m with
  | AddText t => negb (isEmpty (trim (text_text t)))
  | _ => true
  end.

(* Everything that can happen to the page. *)
Inductive HomeEvent :=
| EMutate (m : Mutation)
| EUndo
| EUndoTimeout
| EFilePicked (result : string)
| EStickerPicked (result : string)
| EImageLoaded (img : Bitmap)
| EStickerLoaded (img : Bitmap)
| ETextSelect (t : TextOverlay)
| EConfig (m : Mode) (sh : LensShape) (sz bl mg : Q) (bg : BackgroundMode).

Definition stepHome (h : Home) (e : HomeEvent) : Home :=
  match e with
  | EMutate m => mutate m h
  | EUndo => handleUndo h
  | EUndoTimeout => undoTimeout h
  | EFilePicked result => handleFilePicked result h
  | EStickerPicked result => handleStickerPicked result h
  | EImageLoaded img => imageLoaded img h
  | EStickerLoaded img => stickerLoaded img h
  | ETextSelect t => handleTextSelect t h
  | EConfig m sh sz bl mg bg => setConfig m sh sz bl mg bg h
  end.

Definition runHome (es : list HomeEvent) (h : Home) : Home :=
  fold_left stepHome es h.

Definition runMutations (ms : list Mutation) (h : Home) : Home :=
  fold_left (fun h m => mutate m h) ms h.

(* The collections each mutation of [ms] found, oldest first. *)
Fixpoint preStates (ms : list Mutation) (h : Home) : list Snapshot :=
  match ms with
  | [] => []
  | m :: r => collections h :: preStates r (mutate m h)
  end.

(** ** Canvas bounds *)

Definition within (sz : Size) (x y w h : Q) : Prop :=
  0 <= x /\ 0 <= y /\ x + w <= sizeWidth sz /\ y + h <= sizeHeight sz.

Definition lensWithin (sz : Size) (l : Lens) : Prop :=
  within sz (lens_x l) (lens_y l) (lens_width l) (lens_height l).

Definition stickerWithin (sz : Size) (s : Sticker) : Prop :=
  within sz (sticker_x s) (sticker_y s) (sticker_width s) (sticker_height s).

(* A text occupies its derived bounding box. *)
Definition textWithin (ctx : option (string -> FontString -> Q)) (sz : Size)
    (t : TextOverlay) : Prop :=
  within sz (text_x t) (text_y t) (tb_width (getTextBounds ctx t))
    (tb_height (getTextBounds ctx t)).

Definition allWithin (ctx : option (string -> FontString -> Q)) (a : App)
    : Prop :=
  Forall (lensWithin (size (stage a))) (lenses (home a)) /\
  Forall (stickerWithin (size (stage a))) (stickers (home a)) /\
  Forall (textWithin ctx (size (stage a))) (texts (home a)).

(* Identifiers come from [crypto.randomUUID()]: no two entities of a
   collection share one. *)
Definition uniqueIds (a : App) : Prop :=
  NoDup (map lens_id (lenses (home a))) /\
  NoDup (map sticker_id (stickers (home a))) /\
  NoDup (map text_id (texts (home a))).

(* The start geometry a resize gesture captured at pointer-down is still the
   position of its target. *)
Definition anchored (a : App) : Prop :=
  (forall r l, resizeState (stage a) = Some r ->
     In l (lenses (home a)) -> lens_id l = rs_id r ->
     lens_x l == rx (rs_start r) /\ lens_y l == ry (rs_start r)) /\
  (forall r s, stickerResizeState (stage a) = Some r ->
     In s (stickers (home a)) -> sticker_id s = rs_id r ->
     sticker_x s == rx (rs_start r) /\ sticker_y s == ry (rs_start r)).

(* What a drag or a resize leaves alone in a lens. *)
Definition sameSource (l0 l1 : Lens) : Prop :=
  lens_id l1 = lens_id l0 /\
  lens_sourceImageX l1 = lens_sourceImageX l0 /\
  lens_sourceImageY l1 = lens_sourceImageY l0 /\
  lens_mode l1 = lens_mode l0 /\
  lens_shape l1 = lens_shape l0 /\
  lens_blur l1 = lens_blur l0 /\
  lens_magnification l1 = lens_magnification l0 /\
  lens_createdAt l1 = lens_createdAt l0.

(** ** Auxiliary definitions *)

(* prev.map((e) => e.id === id ? { ...e, ...payload } : e) *)
Definition patchLenses (id : string) (p : LensPatch) (l : list Lens) : list Lens :=
  map (fun x => if String.eqb (lens_id x) id then mergeLens x p else x) l.

Definition patchStickers (id : string) (p : StickerPatch) (l : list Sticker)
    : list Sticker :=
  map (fun x => if String.eqb (sticker_id x) id then mergeSticker x p else x) l.

Definition patchTexts (id : string) (p : TextPatch) (l : list TextOverlay)
    : list TextOverlay :=
  map (fun x => if String.eqb (text_id x) id then mergeText x p else x) l.


(* Whether [handlePointerUp] only ends a drag or a resize: one of the
   conditions before [if (!dragStart)] holds. *)
Definition gestureActive (st : Stage) : bool :=
  isSome (textResizeState st) || isSome (stickerResizeState st) ||
  truthy (activeStickerId st) || isSome (resizeState st) ||
  truthy (activeLensId st).

(* A drawing that only appends to the log, whatever the log holds. *)
Definition appends (d : Draw unit) : Prop :=
  forall log, snd (d log) = (log ++ exec d)%list.


(* What [drawPreview] paints, if there is a preview. *)
Definition previewPaints (p : option LensPreview) : list Paint :=
  match p with
  | Some p => [PPreviewFill p; PPreviewStroke p]
  | None => []
  end.

(* A patch that carries none of the fields of [sameSource]. *)
Definition keepsSource (p : LensPatch) : Prop :=
  lp_id p = None /\ lp_sourceImageX p = None /\ lp_sourceImageY p = None /\
  lp_mode p = None /\ lp_shape p = None /\ lp_blur p = None /\
  lp_magnification p = None /\ lp_createdAt p = None.

(* [n] undos in a row. *)
Fixpoint undoTimes (n : nat) (h : Home) : Home :=
  match n with
  | O => h
  | S n => undoTimes n (handleUndo h)
  end.

(* No text, sticker or lens lies under the point [p]. *)
Definition nothingAt (ctx : option (string -> FontString -> Q)) (a : App)
    (p : Point) : bool :=
  negb (isSome (topmost (fun t => isWithinText ctx t p) (texts (home a)))) &&
  negb (isSome (topmost (fun s => isWithinLens (sticker_x s) (sticker_y s)
                                    (sticker_width s) (sticker_height s)
                                    (sticker_shape s) p)
                  (stickers (home a)))) &&
  negb (isSome (topmost (fun l => isWithinLens (lens_x l) (lens_y l)
                                    (lens_width l) (lens_height l)
                                    (lens_shape l) p)
                  (lenses (home a)))).

(* The string is empty or starts with a character that is not white
   space. *)
Definition headNonSpace (s : string) : Prop :=
  match s with
  | String c _ => isSpace c = false
  | EmptyString => True
  end.

(* The number of line feeds of a string. *)
Fixpoint countLF (s : string) : nat :=
  match s with
  | String c r => (if isLF c then 1 else 0) + countLF r
  | EmptyString => 0
  end.

Fixpoint hasCR (s : string) : bool :=
  match s with
  | String c r => isCR c || hasCR r
  | EmptyString => false
  end.

(* lines.join("\n") *)
Fixpoint joinLines (lines : list string) : string :=
  match lines with
  | [] => ""
  | [l] => l
  | l :: r => l ++ String "010"%char (joinLines r)
  end.

(* The point lies in the rectangle, edges included. *)
Definition inRect (x y w h : Q) (p : Point) : Prop :=
  x <= px p /\ px p <= x + w /\ y <= py p /\ py p <= y + h.

(** Runs of pointer events, and what they maintain. *)

(* The pointer events the stage listens to. *)
Inductive PointerAction :=
| PDown (ev : PointerEvent)
| PMove (ev : PointerEvent)
| PUp (uuid : string) (now : Z).

Definition stepPointer (ctx : option (string -> FontString -> Q)) (a : App)
    (p : PointerAction) : App :=
  match p with
  | PDown ev => handlePointerDown ctx ev a
  | PMove ev => handlePointerMove ctx ev a
  | PUp uuid now => handlePointerUp ctx uuid now a
  end.

Definition runPointer (ctx : option (string -> FontString -> Q))
    (ps : list PointerAction) (a : App) : App :=
  fold_left (stepPointer ctx) ps a.

(* The values [crypto.randomUUID()] has in store for the releases. *)
Definition upIds (ps : list PointerAction) : list string :=
  flat_map (fun p => match p with PUp uuid _ => [uuid] | _ => [] end) ps.

(* Those values are new: they differ from each other and from the ids in
   use, which differ from each other too. *)
Definition freshIds (ps : list PointerAction) (a : App) : Prop :=
  NoDup (upIds ps ++ map lens_id (lenses (home a))) /\
  NoDup (upIds ps ++ map sticker_id (stickers (home a))).

Definition lensAnchored (a : App) : Prop :=
  forall r l, resizeState (stage a) = Some r ->
    In l (lenses (home a)) -> lens_id l = rs_id r ->
    lens_x l == rx (rs_start r) /\ lens_y l == ry (rs_start r).

Definition stickerAnchored (a : App) : Prop :=
  forall r s, stickerResizeState (stage a) = Some r ->
    In s (stickers (home a)) -> sticker_id s = rs_id r ->
    sticker_x s == rx (rs_start r) /\ sticker_y s == ry (rs_start r).

(* What a run of pointer events maintains on a page without texts. *)
Definition pointerInv (ctx : option (string -> FontString -> Q))
    (ps : list PointerAction) (a : App) : Prop :=
  freshIds ps a /\ lensAnchored a /\
  (stickerImage (home a) = None \/ stickerAnchored a) /\
  textResizeState (stage a) = None /\ texts (home a) = [] /\
  mode (home a) <> MText /\ allWithin ctx a.

(* What a release outside text mode does to a page [a], giving [a']: it ends
   a gesture, or it appends one lens or one sticker that lies within the
   canvas and carries the new id. *)
Definition upOutcome (uuid : string) (a a' : App) : Prop :=
  size (stage a') = size (stage a) /\
  textResizeState (stage a') = None /\
  mode (home a') = mode (home a) /\
  stickerImage (home a') = stickerImage (home a) /\
  texts (home a') = texts (home a) /\
  ((lenses (home a') = lenses (home a) /\
    stickers (home a') = stickers (home a) /\
    (resizeState (stage a') = None \/
     resizeState (stage a') = resizeState (stage a)) /\
    (stickerResizeState (stage a') = None \/
     stickerResizeState (stage a') = stickerResizeState (stage a))) \/
   (resizeState (stage a') = None /\ stickerResizeState (stage a') = None /\
    ((exists l, lens_id l = uuid /\ lensWithin (size (stage a)) l /\
        lenses (home a') = (lenses (home a) ++ [l])%list /\
        stickers (home a') = stickers (home a)) \/
     (exists s, sticker_id s = uuid /\ stickerWithin (size (stage a)) s /\
        stickers (home a') = (stickers (home a) ++ [s])%list /\
        lenses (home a') = lenses (home a))))).

(** Boolean versions of the predicates above, for concrete states. *)

Definition withinb (sz : Size) (x y w h : Q) : bool :=
  Qleb 0 x && Qleb 0 y && Qleb (x + w) (sizeWidth sz) &&
  Qleb (y + h) (sizeHeight sz).

Definition allWithinb (ctx : option (string -> FontString -> Q)) (a : App)
    : bool :=
  let sz := size (stage a) in
  forallb (fun l => withinb sz (lens_x l) (lens_y l) (lens_width l)
                      (lens_height l)) (lenses (home a)) &&
  forallb (fun s => withinb sz (sticker_x s) (sticker_y s) (sticker_width s)
                      (sticker_height s)) (stickers (home a)) &&
  forallb (fun t => withinb sz (text_x t) (text_y t)
                      (tb_width (getTextBounds ctx t))
                      (tb_height (getTextBounds ctx t))) (texts (home a)).

Fixpoint distinct (l : list string) : bool :=
  match l with
  | [] => true
  | x :: r => negb (existsb (String.eqb x) r) && distinct r
  end.

Definition uniqueIdsb (a : App) : bool :=
  distinct (map lens_id (lenses (home a))) &&
  distinct (map sticker_id (stickers (home a))) &&
  distinct (map text_id (texts (home a))).

Definition anchoredb (a : App) : bool :=
  match resizeState (stage a) with
  | Some r =>
      forallb (fun l => negb (String.eqb (lens_id l) (rs_id r)) ||
                        Qeq_bool (lens_x l) (rx (rs_start r)) &&
                        Qeq_bool (lens_y l) (ry (rs_start r)))
        (lenses (home a))
  | None => true
  end &&
  match stickerResizeState (stage a) with
  | Some r =>
      forallb (fun s => negb (String.eqb (sticker_id s) (rs_id r)) ||
                        Qeq_bool (sticker_x s) (rx (rs_start r)) &&
                        Qeq_bool (sticker_y s) (ry (rs_start r)))
        (stickers (home a))
  | None => true
  end.

(** ** Concrete scenes *)

Module Scene.

Definition pt (x y : Q) : Point := {| px := x; py := y |}.

Definition down (b : Z) (x y : Q) : PointerEvent :=
  {| button := b; point := pt x y |}.

Definition photo : Bitmap :=
  {| src := "photo.png"; naturalWidth := 900; naturalHeight := 600 |}.

(* A sticker bitmap of ratio 2. *)
Definition badge : Bitmap :=
  {| src := "badge.png"; naturalWidth := 400; naturalHeight := 200 |}.

Definition configured (m : Mode) (sh : LensShape) (sz : Q) (h : Home) : Home :=
  setConfig m sh sz (blurAmount h) (magnification h) (backgroundMode h) h.

(* The page once [photo] is loaded, on the initial 920 x 620 stage. *)
Definition withPhoto : App :=
  {| home := imageLoaded photo (handleFilePicked "photo.png" initialHome);
     stage := initialStage |}.

(* ... and once [badge] is the sticker source, in sticker mode. *)
Definition withBadge : App :=
  withHome
    (fun h => configured MSticker circle 320
                (stickerLoaded badge (handleStickerPicked "badge.png" h)))
    withPhoto.

(* Sticker mode with no sticker source picked. *)
Definition stickerModeNoBitmap : App :=
  withHome (configured MSticker circle 320) withPhoto.

(* A press at [(x0, y0)], a move to [(x1, y1)] and the release. *)
Definition gesture (b : Z) (x0 y0 x1 y1 : Q) (uuid : string) (a : App) : App :=
  handlePointerUp None uuid 0
    (handlePointerMove None (down b x1 y1)
       (handlePointerDown None (down b x0 y0) a)).

(* A press at [(x0, y0)] and a move to [(x1, y1)], the button still held. *)
Definition pressAndMove (b : Z) (x0 y0 x1 y1 : Q) (a : App) : App :=
  handlePointerMove None (down b x1 y1)
    (handlePointerDown None (down b x0 y0) a).

(* A circle sticker of 200 x 100 drawn by dragging from (100,100) to
   (300,300) with [badge]. *)
Definition oneSticker : App := gesture 0 100 100 300 300 "s1" withBadge.

(* A circle blur lens of 100 x 100 at (100,100). *)
Definition oneLens : App :=
  gesture 0 100 100 200 200 "l1"
    (withHome (configured MBlur circle 320) withPhoto).

(* A one-line text placed by a click at (100, 500) in text mode. *)
Definition oneText : App :=
  gesture 0 100 500 100 500 "t1"
    (withHome (fun h => configured MText circle 320
                          (setTextControls "Hi" "#f5f5f5" 28 h)) withPhoto).

(* [oneLens] with the secondary button pressed at its centre. *)
Definition lensPressed : App := handlePointerDown None (down 2 150 150) oneLens.

Definition lensPressedResize : ResizeState :=
  {| rs_id := "l1"; rs_start := rectOf 100 100 100 100;
     rs_startPoint := pt 150 150 |}.

Definition theLens : Lens :=
  Eval vm_compute in
    orElse (lensById "l1" (lenses (home oneLens)))
      (magnifyLens (pt 0 0) (pt 0 0) true "" 0 initialApp).

(* [withBadge] after a press at (100,100) and a move to (300,300). *)
Definition badgeDragged : App := pressAndMove 0 100 100 300 300 withBadge.





(* Sixty additions of [theLens]. *)
Definition sixtyLenses : list Mutation := repeat (AddLens theLens) 60.

(* A press at (50,50) on a 900 x 600 stage showing [photo], in magnify mode
   with lens size 200. *)
Definition magnifyPressed : App :=
  handlePointerDown None (down 0 50 50)
    {| home := configured MMagnify circle 200 (home withPhoto);
       stage := setSize {| sizeWidth := 900; sizeHeight := 600 |}
                  initialStage |}.

Definition freshCanvas : Canvas :=
  {| canvas_width := 300; canvas_height := 150; has2d := true; painted := [] |}.

(* [oneSticker] with a magnify lens added by a click at (400,300). *)
Definition stickerAndLens : App :=
  gesture 0 400 300 400 300 "m2"
    (withHome (configured MMagnify circle 200) oneSticker).

Definition renderArgs : RenderArgs :=
  stageRenderArgs (Some freshCanvas) stickerAndLens.

(* [oneLens] with the primary button pressed at (120,130). *)
Definition lensGrabbed : App := handlePointerDown None (down 0 120 130) oneLens.

Definition threeLenses : list Mutation := repeat (AddLens theLens) 3.

(* The initial page, no image loaded, in blur mode. *)
Definition noImage : App := initialApp.

(* [oneText] with the secondary button pressed on the text at (95,505). *)
Definition textPressed : App := handlePointerDown None (down 2 95 505) oneText.

Definition textPressedResize : ResizeState :=
  Eval vm_compute in
    orElse (textResizeState (stage textPressed)) lensPressedResize.

Definition theText : TextOverlay :=
  Eval vm_compute in
    orElse (textById "t1" (texts (home oneText)))
      {| text_id := ""; text_x := 0; text_y := 0; text_text := "";
         text_color := ""; text_size := 0; text_font := "" |}.

(* Text mode with the text " Hi " typed, after a press at (100,500). *)
Definition textClick : App :=
  handlePointerDown None (down 0 100 500)
    (withHome (fun h => configured MText circle 320
                          (setTextControls " Hi " "#f5f5f5" 28 h)) withPhoto).

(* The lens that a click in sticker mode without a sticker bitmap adds. *)
Definition stickerModeLens : Lens :=
  Eval vm_compute in
    orElse (lensById "x" (lenses (home (gesture 0 100 100 100 100 "x"
                                          stickerModeNoBitmap))))
      theLens.

(* Blur mode after a press at (100,100) and a move to (200,200). *)
Definition blurDragged : App :=
  pressAndMove 0 100 100 200 200
    (withHome (configured MBlur circle 320) withPhoto).

(* The lens of [oneLens] after a resize from (150,150) towards (0,0). *)
Definition theLensShrunk : Lens :=
  Eval vm_compute in
    orElse (lensById "l1"
              (lenses (home (handlePointerMove None (down 2 0 0)
                               lensPressed))))
      theLens.

(* A sticker resize, a click that adds a lens, and a drag of that lens past
   the corner of the canvas, on [stickerAndLens]. *)
Definition pointerRun : list PointerAction :=
  [PDown (down 2 200 150); PMove (down 2 260 300); PUp "u1" 1;
   PDown (down 0 700 500); PMove (down 0 702 502); PUp "m3" 2;
   PDown (down 0 800 450); PMove (down 0 2000 (-50)); PUp "u3" 3].



(* A blur lens of 100 x 100 drawn at (700,400), dragged to (100,100) by a
   press at its centre and one move, released, and pressed there with the
   secondary button: the resize has captured the corner (100,100). *)
Definition lensMovedPressed : App :=
  handlePointerDown None (down 2 150 150)
    (gesture 0 750 450 150 150 "u"
       (gesture 0 700 400 800 500 "l1"
          (withHome (configured MBlur circle 320) withPhoto))).

(* Ctrl+Z while the button is held: the lens is back at (700,400). *)
Definition lensUndoneWhilePressed : App := withHome handleUndo lensMovedPressed.

(* A blur lens of 700 x 400 at (100,100) on the 920 x 620 canvas, after the
   container has shrunk to 500 x 400 and the canvas to 480 x 320. *)
Definition shrunk : App :=
  computeSize 500 400
    (gesture 0 100 100 800 500 "l1"
       (withHome (configured MBlur circle 320) withPhoto)).





(* [oneText] after the render that followed its creation, with the selection
   cleared by Escape. *)
Definition textDeselected : App := handleEscape (liveTextUpdate oneText).

End Scene.

(** * Properties *)

(** ** Arithmetic of [clamp] *)

Lemma Qmin_cases a b : a <= b /\ Qmin a b == a \/ b <= a /\ Qmin a b == b.
Proof.
  destruct (Q.min_spec a b) as [[H E] | [H E]]; [left | right]; split;
    try exact E; try exact H; apply Qlt_le_weak, H.
Qed.

Lemma Qmax_cases a b : a <= b /\ Qmax a b == b \/ b <= a /\ Qmax a b == a.
Proof.
  destruct (Q.max_spec a b) as [[H E] | [H E]]; [left | right]; split;
    try exact E; try exact H; apply Qlt_le_weak, H.
Qed.

(* Names every [Qmin] and [Qmax] of the goal and its hypotheses and splits on
   which argument it equals, leaving linear goals. *)
Ltac minmax_cases :=
  repeat match goal with
  | |- context [Qmin ?a ?b] =>
      let H := fresh "Hmin" in
      let x := fresh "m" in
      pose proof (Qmin_cases a b) as H; set (x := Qmin a b) in *; clearbody x
  | |- context [Qmax ?a ?b] =>
      let H := fresh "Hmax" in
      let x := fresh "m" in
      pose proof (Qmax_cases a b) as H; set (x := Qmax a b) in *; clearbody x
  | _ : context [Qmin ?a ?b] |- _ =>
      let H := fresh "Hmin" in
      let x := fresh "m" in
      pose proof (Qmin_cases a b) as H; set (x := Qmin a b) in *; clearbody x
  | _ : context [Qmax ?a ?b] |- _ =>
      let H := fresh "Hmax" in
      let x := fresh "m" in
      pose proof (Qmax_cases a b) as H; set (x := Qmax a b) in *; clearbody x
  end;
  repeat match goal with
  | H : _ /\ _ \/ _ /\ _ |- _ => destruct H as [[? ?] | [? ?]]
  end.

Lemma clamp_le_max v lo hi : clamp v lo hi <= hi.
Proof. unfold clamp. minmax_cases; lra. Qed.

Lemma clamp_ge_min v lo hi : lo <= hi -> lo <= clamp v lo hi.
Proof. unfold clamp. intros. minmax_cases; lra. Qed.


Lemma Qltb_lt a b : Qltb a b = true <-> a < b.
Proof.
  unfold Qltb. rewrite negb_true_iff. split; intro H.
  - apply Qnot_le_lt. intro L. apply Qle_bool_iff in L. congruence.
  - destruct (Qle_bool b a) eqn:E; [|reflexivity].
    apply Qle_bool_iff in E. lra.
Qed.

Lemma Qltb_ge a b : Qltb a b = false <-> b <= a.
Proof.
  unfold Qltb. rewrite negb_false_iff. apply Qle_bool_iff.
Qed.

(** ** The store under [pushHistory] and the update callbacks *)

Lemma map_same {A} (l : list A) : map (fun e => e) l = l.
Proof. induction l as [|x l IH]; simpl; [reflexivity | now rewrite IH]. Qed.

Lemma pushHistory_collections ls ss ts h :
  collections (pushHistory ls ss ts h) = collections h.
Proof. unfold pushHistory. destruct (isUndoingRef h); reflexivity. Qed.

Lemma pushHistory_lenses ls ss ts h : lenses (pushHistory ls ss ts h) = lenses h.
Proof. unfold pushHistory. destruct (isUndoingRef h); reflexivity. Qed.

Lemma pushHistory_stickers ls ss ts h :
  stickers (pushHistory ls ss ts h) = stickers h.
Proof. unfold pushHistory. destruct (isUndoingRef h); reflexivity. Qed.

Lemma pushHistory_texts ls ss ts h : texts (pushHistory ls ss ts h) = texts h.
Proof. unfold pushHistory. destruct (isUndoingRef h); reflexivity. Qed.

Lemma pushHistory_isUndoing ls ss ts h :
  isUndoingRef (pushHistory ls ss ts h) = isUndoingRef h.
Proof. unfold pushHistory. destruct (isUndoingRef h) eqn:E; simpl; auto. Qed.

Lemma onLensUpdate_collections id p h :
  collections (onLensUpdate id p h) =
  {| snap_lenses := patchLenses id p (lenses h);
     snap_stickers := stickers h; snap_texts := texts h |}.
Proof.
  unfold onLensUpdate, collections, patchLenses; simpl.
  now rewrite pushHistory_stickers, pushHistory_texts.
Qed.

Lemma onStickerUpdate_collections id p h :
  collections (onStickerUpdate id p h) =
  {| snap_lenses := lenses h;
     snap_stickers := patchStickers id p (stickers h);
     snap_texts := texts h |}.
Proof.
  unfold onStickerUpdate, collections, patchStickers; simpl.
  now rewrite pushHistory_lenses, pushHistory_texts.
Qed.

Lemma onTextUpdate_collections id p h :
  collections (onTextUpdate id p h) =
  {| snap_lenses := lenses h; snap_stickers := stickers h;
     snap_texts := patchTexts id p (texts h) |}.
Proof.
  unfold onTextUpdate, collections, patchTexts; simpl.
  now rewrite pushHistory_lenses, pushHistory_stickers.
Qed.

Lemma collections_inj h1 h2 :
  collections h1 = collections h2 ->
  lenses h1 = lenses h2 /\ stickers h1 = stickers h2 /\ texts h1 = texts h2.
Proof. unfold collections. intro H. now inversion H. Qed.

(* A patch that carries no [id] leaves the first entity of a given id where
   it is. *)
Lemma lensById_patch id p l :
  lp_id p = None ->
  lensById id (patchLenses id p l) =
  option_map (fun x => mergeLens x p) (lensById id l).
Proof.
  intro Hp. unfold lensById, patchLenses.
  induction l as [|x l IH]; simpl; [reflexivity|].
  destruct (String.eqb (lens_id x) id) eqn:E; simpl.
  - rewrite Hp. simpl. now rewrite E.
  - now rewrite E.
Qed.

Lemma in_patchLenses id p l x' :
  lp_id p = None ->
  In x' (patchLenses id p l) -> lens_id x' = id ->
  exists x, In x l /\ lens_id x = id /\ x' = mergeLens x p.
Proof.
  intros Hp Hin Hid. unfold patchLenses in Hin.
  apply in_map_iff in Hin. destruct Hin as [x [Hx Hin]].
  destruct (String.eqb (lens_id x) id) eqn:E.
  - apply String.eqb_eq in E. now exists x.
  - apply String.eqb_neq in E. subst x'. contradiction.
Qed.

Lemma in_patchStickers id p l x' :
  sp_id p = None ->
  In x' (patchStickers id p l) -> sticker_id x' = id ->
  exists x, In x l /\ sticker_id x = id /\ x' = mergeSticker x p.
Proof.
  intros Hp Hin Hid. unfold patchStickers in Hin.
  apply in_map_iff in Hin. destruct Hin as [x [Hx Hin]].
  destruct (String.eqb (sticker_id x) id) eqn:E.
  - apply String.eqb_eq in E. now exists x.
  - apply String.eqb_neq in E. subst x'. contradiction.
Qed.

(** ** C1: circularity under resize *)

(** C1 (as amended): when a resize gesture targets a lens of shape [circle],
    a pointer move gives every lens of that id the same width and height,
    namely min(max(newWidth, newHeight), room left on both axes), where
    newWidth and newHeight are the start extents plus the pointer deltas
    clamped to [60, room]; the resized lens is still in the collection. *)
Theorem C1_circle_lens_resize_is_square
    (ctx : option (string -> FontString -> Q)) (ev : PointerEvent) (a : App)
    (r : ResizeState) (l0 : Lens) :
  moveBranch a = BLensResize r ->
  lensById (rs_id r) (lenses (home a)) = Some l0 ->
  lens_shape l0 = circle ->
  let roomX := sizeWidth (size (stage a)) - rx (rs_start r) in
  let roomY := sizeHeight (size (stage a)) - ry (rs_start r) in
  let newWidth :=
    clamp (rwidth (rs_start r) + (px (point ev) - px (rs_startPoint r))) 60
      roomX in
  let newHeight :=
    clamp (rheight (rs_start r) + (py (point ev) - py (rs_startPoint r))) 60
      roomY in
  let unified := Qmin (Qmax newWidth newHeight) (Qmin roomX roomY) in
  let a' := handlePointerMove ctx ev a in
  (exists l1, lensById (rs_id r) (lenses (home a')) = Some l1) /\
  forall l, In l (lenses (home a')) -> lens_id l = rs_id r ->
    lens_width l = lens_height l /\ lens_width l = unified.
Proof.
  intros Hb Hfind Hshape roomX roomY newWidth newHeight unified a'.
  assert (Ha' : lenses (home a') =
                patchLenses (rs_id r) (lensSizePatch unified unified)
                  (lenses (home a))).
  { unfold a', handlePointerMove. rewrite Hb.
    unfold moveLensResize, isCircleLens. rewrite Hfind, Hshape.
    reflexivity. }
  rewrite Ha'. split.
  - rewrite lensById_patch by reflexivity. rewrite Hfind. simpl. eauto.
  - intros l Hin Hid.
    apply in_patchLenses in Hin; [|reflexivity|exact Hid].
    destruct Hin as [x [_ [_ ->]]].
    simpl. split; reflexivity.
Qed.

(** A witness of C1: the circle lens of [Scene.oneLens], pressed with the
    secondary button at (150,150) and moved to (190,140). *)
Lemma C1_circle_lens_resize_witness :
  exists l1,
    lensById "l1"
      (lenses (home (handlePointerMove None (Scene.down 2 190 140)
                       Scene.lensPressed)))
    = Some l1.
Proof.
  refine (proj1 (C1_circle_lens_resize_is_square None (Scene.down 2 190 140)
                   Scene.lensPressed Scene.lensPressedResize Scene.theLens
                   _ _ _)).
  - vm_compute. reflexivity.
  - vm_compute. reflexivity.
  - reflexivity.
Defined.

(** C1, counterexample: the circle sticker of [Scene.oneSticker] (200 x 100,
    bitmap of ratio 2), resized by a secondary-button drag from (200,150) to
    (220,150), is 220 wide and 110 high. *)
Lemma C1_circle_sticker_resize_not_square :
  exists s,
    In s (stickers (home (Scene.pressAndMove 2 200 150 220 150
                            Scene.oneSticker))) /\
    sticker_shape s = circle /\
    sticker_width s == 220 /\ sticker_height s == 110 /\
    ~ sticker_width s == sticker_height s.
Proof.
  eexists. split; [vm_compute; left; reflexivity|].
  repeat split; try reflexivity. vm_compute. discriminate.
Qed.

(** ** Pointer-up dispatch *)

Lemma handlePointerUp_create ctx uuid now a ds :
  gestureActive (stage a) = false ->
  dragStart (stage a) = Some ds ->
  handlePointerUp ctx uuid now a =
  upCreate ctx ds uuid now (withStage (setTextDragOffset None) a).
Proof.
  unfold gestureActive. intros Hg Hd.
  repeat (apply orb_false_iff in Hg; destruct Hg as [Hg ?]).
  unfold handlePointerUp.
  repeat match goal with H : _ = false |- _ => rewrite H; clear H end.
  now rewrite Hd.
Qed.

Lemma ofN_pos n : (n <> 0)%N -> 0 < ofN n.
Proof.
  intro H. unfold ofN, Qlt. simpl. lia.
Qed.



(** ** C2: sticker aspect ratio *)


Lemma moveStickerResize_stickers r img p a :
  exists w h,
    w == h * stickerRatio img /\
    stickers (home (moveStickerResize r img p a)) =
    patchStickers (rs_id r)
      (stickerSizePatch
         (clamp w 40 (sizeWidth (size (stage a)) - rx (rs_start r)))
         (clamp h 40 (sizeHeight (size (stage a)) - ry (rs_start r))))
      (stickers (home a)).
Proof.
  unfold moveStickerResize. cbv zeta.
  set (w0 := rwidth (rs_start r) + (px p - px (rs_startPoint r))).
  set (h1 := rheight (rs_start r) + (py p - py (rs_startPoint r))).
  destruct (Qltb (w0 / stickerRatio img) h1);
    do 2 eexists; (split; cycle 1; [reflexivity|]); [reflexivity|].
  assert (Hr : ~ stickerRatio img == 0).
  { unfold stickerRatio.
    destruct (negb (naturalWidth img =? 0)%N && negb (naturalHeight img =? 0)%N)
      eqn:E; [|discriminate].
    apply andb_true_iff in E. destruct E as [E1 E2].
    apply negb_true_iff, N.eqb_neq in E1. apply negb_true_iff, N.eqb_neq in E2.
    intro Hz. pose proof (ofN_pos _ E1) as P1. pose proof (ofN_pos _ E2) as P2.
    assert (0 < ofN (naturalWidth img) / ofN (naturalHeight img)).
    { apply Qlt_shift_div_l; [exact P2|]. now rewrite Qmult_0_l. }
    lra. }
  field. exact Hr.
Qed.






(** ** C3: picking a sticker source *)

(** C3 (as amended): picking a new sticker file sets the sticker source and
    empties the undo history; the stickers, the lenses and the texts of the
    overlay store stay as they are, also once the new bitmap is decoded. *)
Theorem C3_sticker_pick_keeps_stickers (result : string) (img : Bitmap)
    (h : Home) :
  let h1 := handleStickerPicked result h in
  let h2 := stickerLoaded img h1 in
  stickerSrc h1 = Some result /\ historyRef h1 = [] /\
  stickerImage h2 = Some img /\
  stickers h1 = stickers h /\ stickers h2 = stickers h /\
  collections h1 = collections h /\ collections h2 = collections h.
Proof. repeat split. Qed.

(** C3, counterexample: with the sticker of [Scene.oneSticker] on the canvas,
    picking another sticker file and decoding it leaves that sticker in the
    store. *)
Lemma C3_stickers_survive_sticker_pick :
  stickers
    (stickerLoaded Scene.photo
       (handleStickerPicked "other.png" (home Scene.oneSticker)))
  <> [].
Proof. vm_compute. discriminate. Qed.

(** ** C4: sticker mode without a sticker bitmap *)

Lemma sticker_mode_without_bitmap_adds_lens ctx uuid now a ds :
  gestureActive (stage a) = false ->
  dragStart (stage a) = Some ds ->
  mode (home a) = MSticker ->
  stickerImage (home a) = None ->
  exists l,
    lenses (home (handlePointerUp ctx uuid now a)) =
      (lenses (home a) ++ [l])%list /\
    lens_id l = uuid /\ lens_mode l = MSticker.
Proof.
  intros Hg Hd Hm Hi.
  rewrite (handlePointerUp_create ctx uuid now a ds Hg Hd).
  unfold upCreate. simpl. rewrite Hm, Hi.
  eexists. split.
  - simpl. rewrite pushHistory_lenses. reflexivity.
  - simpl. split; [reflexivity | exact Hm].
Qed.

(** C4 (the code at the failing input): with an image loaded, sticker mode
    selected and no sticker source picked, a click at (100,100) on the empty
    canvas adds a 320 x 320 lens whose mode is "sticker". *)
Theorem C4_sticker_mode_without_bitmap_adds_lens :
  stickerImage (home Scene.stickerModeNoBitmap) = None /\
  mode (home Scene.stickerModeNoBitmap) = MSticker /\
  lenses (home Scene.stickerModeNoBitmap) = [] /\
  exists l,
    lenses (home (Scene.gesture 0 100 100 100 100 "x"
                    Scene.stickerModeNoBitmap)) = [l] /\
    lens_mode l = MSticker /\ lens_width l == 320 /\ lens_height l == 320.
Proof.
  repeat split. eexists. split; [vm_compute; reflexivity|].
  repeat split.
Qed.

(** ** C5: undo after one mutation *)

Lemma pop_snoc {A} (l : list A) (x : A) : pop (l ++ [x]) = Some (x, l).
Proof. unfold pop. rewrite rev_unit, rev_involutive. reflexivity. Qed.

Lemma pushHistory_history ls ss ts h :
  isUndoingRef h = false ->
  historyRef (pushHistory ls ss ts h) =
  (sliceLast 49 (historyRef h) ++
   [ {| snap_lenses := ls; snap_stickers := ss; snap_texts := ts |} ])%list.
Proof.
  intro H. unfold pushHistory. rewrite H. unfold copyAll.
  rewrite !map_same. reflexivity.
Qed.

Lemma mutate_history m h :
  isUndoingRef h = false -> mutates m = true ->
  historyRef (mutate m h) = (sliceLast 49 (historyRef h) ++ [collections h])%list /\
  isUndoingRef (mutate m h) = false.
Proof.
  intros Hu Hm. unfold collections.
  destruct m; simpl in *;
    unfold handleLensAdd, handleStickerAdd, handleTextAdd, onLensUpdate,
      onStickerUpdate, onTextUpdate, handleReset;
    try (apply negb_true_iff in Hm; rewrite Hm);
    simpl; rewrite pushHistory_history, pushHistory_isUndoing by exact Hu;
    split; auto.
Qed.

Lemma handleUndo_snoc h before snapshot :
  historyRef h = (before ++ [snapshot])%list ->
  collections (handleUndo h) = snapshot /\
  historyRef (handleUndo h) = before /\
  isUndoingRef (handleUndo h) = true.
Proof.
  intro H. unfold handleUndo. rewrite H, pop_snoc.
  destruct (before ++ [snapshot])%list eqn:E.
  - now destruct before.
  - destruct snapshot. repeat split.
Qed.

(** C5 (as amended): from a state with no undo restore in flight, one call
    of a mutating action of the store (add lens, add sticker, add a
    non-blank text, update by id, reset) followed by [handleUndo] gives back
    the three collections as they were, entity by entity and in order; and
    [handleUndo] on an empty history changes nothing. *)
Theorem C5_undo_round_trip :
  (forall (h : Home) (m : Mutation),
     isUndoingRef h = false -> mutates m = true ->
     collections (handleUndo (mutate m h)) = collections h) /\
  (forall h : Home, historyRef h = [] -> handleUndo h = h).
Proof.
  split.
  - intros h m Hu Hm.
    destruct (mutate_history m h Hu Hm) as [Hh _].
    destruct (handleUndo_snoc _ _ _ Hh) as [Hc _]. exact Hc.
  - intros h H. unfold handleUndo. now rewrite H.
Qed.

(** A witness of C5: resetting the store that holds the sticker of
    [Scene.oneSticker] and undoing brings the sticker back. *)
Lemma C5_undo_round_trip_witness :
  collections (handleUndo (mutate Reset (home Scene.oneSticker))) =
  collections (home Scene.oneSticker) /\
  handleUndo initialHome = initialHome.
Proof.
  split.
  - apply (proj1 C5_undo_round_trip); reflexivity.
  - apply (proj2 C5_undo_round_trip). reflexivity.
Defined.

(** C5, counterexample.  Between [handleUndo] and the callback of its timer
    no snapshot is taken: after an undo on [Scene.stickerAndLens] (the
    sticker is left), adding a lens and undoing again removes the sticker
    too instead of giving the sticker alone back.  And a text added from the
    stage is two store actions, the add and the update of the live-update
    effect: after a click in text mode on a page without texts, one undo
    leaves the new text in place. *)
Lemma C5_undo_does_not_restore :
  (let h := handleUndo (home Scene.stickerAndLens) in
   isUndoingRef h = true /\
   collections (handleUndo (mutate (AddLens Scene.theLens) h)) <>
   collections h) /\
  (let a := Scene.textClick in
   let a' := liveTextUpdate (handlePointerUp None "t1" 0 a) in
   isUndoingRef (home a) = false /\
   texts (home a) = [] /\
   texts (home (withHome handleUndo a')) <> []).
Proof.
  split; cbv zeta.
  - split; [vm_compute; reflexivity|]. vm_compute. discriminate.
  - split; [vm_compute; reflexivity|]. split; [vm_compute; reflexivity|].
    vm_compute. discriminate.
Qed.

(** ** C6: the history bound *)

Lemma sliceLast_length {A} n (l : list A) :
  List.length (sliceLast n l) = Nat.min n (List.length l).
Proof. unfold sliceLast. rewrite length_skipn. lia. Qed.

Lemma pushHistory_bound ls ss ts h :
  (List.length (historyRef h) <= 50)%nat ->
  (List.length (historyRef (pushHistory ls ss ts h)) <= 50)%nat.
Proof.
  intro H. unfold pushHistory. destruct (isUndoingRef h); [exact H|].
  cbn [historyRef setHistory]. rewrite length_app, sliceLast_length.
  cbn [List.length]. lia.
Qed.

Lemma pop_length {A} (l : list A) x rest :
  pop l = Some (x, rest) -> List.length l = S (List.length rest).
Proof.
  unfold pop. destruct (rev l) as [|y r] eqn:E; [discriminate|].
  intro H. injection H as <- <-.
  rewrite <- (rev_involutive l), E. simpl.
  rewrite length_app, !length_rev. simpl. lia.
Qed.

Lemma stepHome_bound h e :
  (List.length (historyRef h) <= 50)%nat ->
  (List.length (historyRef (stepHome h e)) <= 50)%nat.
Proof.
  intro H. destruct e as [m| | | | | | | |]; simpl; try exact H; try lia.
  - destruct m; simpl;
      unfold handleLensAdd, handleStickerAdd, handleTextAdd, onLensUpdate,
        onStickerUpdate, onTextUpdate, handleReset;
      try match goal with |- context [if ?c then _ else _] => destruct c end;
      simpl; try exact H; now apply pushHistory_bound.
  - unfold handleUndo. destruct (historyRef h) eqn:E; [rewrite E; simpl; lia|].
    destruct (pop (s :: l)) as [[x rest]|] eqn:P; [|rewrite E; exact H].
    simpl. apply pop_length in P. rewrite P in H. lia.
Qed.

Lemma runHome_bound es h :
  (List.length (historyRef h) <= 50)%nat ->
  (List.length (historyRef (runHome es h)) <= 50)%nat.
Proof.
  unfold runHome. revert h.
  induction es as [|e es IH]; intros h H; simpl; [exact H|].
  apply IH. now apply stepHome_bound.
Qed.

Lemma sliceLast_all {A} n (l : list A) :
  (List.length l <= n)%nat -> sliceLast n l = l.
Proof.
  intro H. unfold sliceLast.
  replace (List.length l - n)%nat with 0%nat by lia. reflexivity.
Qed.

Lemma sliceLast_snoc {A} n (l : list A) x :
  (sliceLast n l ++ [x])%list = sliceLast (S n) (l ++ [x]).
Proof.
  unfold sliceLast. rewrite length_app. simpl.
  replace (List.length l + 1 - S n)%nat with (List.length l - n)%nat by lia.
  rewrite skipn_app.
  replace (List.length l - n - List.length l)%nat with 0%nat by lia.
  reflexivity.
Qed.

Lemma sliceLast_app_sliceLast {A} n (l tl : list A) :
  sliceLast n (sliceLast n l ++ tl) = sliceLast n (l ++ tl).
Proof.
  unfold sliceLast.
  rewrite !length_app, length_skipn, !skipn_app, skipn_skipn, length_skipn.
  f_equal; f_equal; lia.
Qed.

(* After the mutations [ms], none of them suppressed, the history is the last
   50 of what it was followed by the collections each mutation found. *)
Lemma runMutations_history ms : forall h,
  isUndoingRef h = false -> forallb mutates ms = true ->
  (List.length (historyRef h) <= 50)%nat ->
  historyRef (runMutations ms h) =
    sliceLast 50 (historyRef h ++ preStates ms h) /\
  isUndoingRef (runMutations ms h) = false.
Proof.
  induction ms as [|m ms IH]; intros h Hu Hm Hl.
  - simpl. rewrite app_nil_r. rewrite sliceLast_all by exact Hl. auto.
  - simpl in Hm. apply andb_true_iff in Hm. destruct Hm as [Hm Hms].
    destruct (mutate_history m h Hu Hm) as [Hh Hu'].
    unfold runMutations in *. simpl.
    destruct (IH (mutate m h) Hu' Hms) as [E1 E2].
    { rewrite Hh, length_app, sliceLast_length. cbn [List.length]. lia. }
    split; [|exact E2].
    rewrite E1, Hh, sliceLast_snoc, sliceLast_app_sliceLast.
    rewrite <- app_assoc. reflexivity.
Qed.

Lemma preStates_length ms h : List.length (preStates ms h) = List.length ms.
Proof.
  revert h. induction ms as [|m ms IH]; intro h; simpl; [reflexivity|].
  now rewrite IH.
Qed.

(** C6: whatever happens to the page from its initial state, the undo
    history never holds more than 50 snapshots; and 60 mutating actions in a
    row, started on an empty history with no undo restore in flight, leave
    exactly 50 snapshots: the collections found by the 11th to the 60th
    action, oldest first. *)
Theorem C6_history_bound :
  (forall es : list HomeEvent,
     (List.length (historyRef (runHome es initialHome)) <= 50)%nat) /\
  (forall (h : Home) (ms : list Mutation),
     isUndoingRef h = false -> historyRef h = [] ->
     forallb mutates ms = true -> List.length ms = 60%nat ->
     historyRef (runMutations ms h) = skipn 10 (preStates ms h) /\
     List.length (historyRef (runMutations ms h)) = 50%nat).
Proof.
  split.
  - intro es. apply runHome_bound. simpl. lia.
  - intros h ms Hu Hh Hm Hl.
    destruct (runMutations_history ms h Hu Hm) as [E _].
    { rewrite Hh. simpl. lia. }
    rewrite E, Hh. simpl. unfold sliceLast.
    rewrite preStates_length, Hl. simpl Nat.sub.
    split; [reflexivity|]. rewrite length_skipn, preStates_length, Hl.
    reflexivity.
Qed.

(** A witness of C6: sixty lenses added to the initial page. *)
Lemma C6_history_bound_witness :
  List.length (historyRef (runMutations Scene.sixtyLenses initialHome)) = 50%nat.
Proof.
  apply (proj2 C6_history_bound); reflexivity.
Defined.

(** ** C7: the canvas bounds under pointer moves *)

Lemma moveBranch_inv a :
  match moveBranch a with
  | BTextResize r => textResizeState (stage a) = Some r
  | BTextDrag id _ => activeTextId (stage a) = Some id
  | BStickerResize r img =>
      stickerResizeState (stage a) = Some r /\ stickerImage (home a) = Some img
  | BStickerDrag id _ => activeStickerId (stage a) = Some id
  | BLensResize r => resizeState (stage a) = Some r
  | BLensDrag id _ => activeLensId (stage a) = Some id
  | BPreview | BIdle => True
  end.
Proof.
  unfold moveBranch.
  repeat match goal with
  | |- context [match ?x with _ => _ end] =>
      lazymatch x with
      | context [match _ with _ => _ end] => fail
      | _ => destruct x eqn:?
      end
  end; auto.
Qed.

Lemma NoDup_map_In_eq {A B} (f : A -> B) (l : list A) x y :
  NoDup (map f l) -> In x l -> In y l -> f x = f y -> x = y.
Proof.
  induction l as [|z l IH]; simpl; intros Hn Hx Hy E; [contradiction|].
  inversion Hn as [|? ? Hnotin Hn']; subst.
  destruct Hx as [-> | Hx], Hy as [-> | Hy]; auto.
  - exfalso. apply Hnotin. rewrite E. now apply in_map.
  - exfalso. apply Hnotin. rewrite <- E. now apply in_map.
Qed.

Lemma Forall_patchLenses (P : Lens -> Prop) id p l :
  Forall P l ->
  (forall x, In x l -> lens_id x = id -> P x -> P (mergeLens x p)) ->
  Forall P (patchLenses id p l).
Proof.
  intros HP Hm. unfold patchLenses. apply Forall_forall. intros y Hy.
  apply in_map_iff in Hy. destruct Hy as [x [<- Hx]].
  pose proof (proj1 (Forall_forall P l) HP x Hx) as Px.
  destruct (String.eqb (lens_id x) id) eqn:E; [|exact Px].
  apply String.eqb_eq in E. now apply Hm.
Qed.

Lemma Forall_patchStickers (P : Sticker -> Prop) id p l :
  Forall P l ->
  (forall x, In x l -> sticker_id x = id -> P x -> P (mergeSticker x p)) ->
  Forall P (patchStickers id p l).
Proof.
  intros HP Hm. unfold patchStickers. apply Forall_forall. intros y Hy.
  apply in_map_iff in Hy. destruct Hy as [x [<- Hx]].
  pose proof (proj1 (Forall_forall P l) HP x Hx) as Px.
  destruct (String.eqb (sticker_id x) id) eqn:E; [|exact Px].
  apply String.eqb_eq in E. now apply Hm.
Qed.

Lemma Forall_patchTexts (P : TextOverlay -> Prop) id p l :
  Forall P l ->
  (forall x, In x l -> text_id x = id -> P x -> P (mergeText x p)) ->
  Forall P (patchTexts id p l).
Proof.
  intros HP Hm. unfold patchTexts. apply Forall_forall. intros y Hy.
  apply in_map_iff in Hy. destruct Hy as [x [<- Hx]].
  pose proof (proj1 (Forall_forall P l) HP x Hx) as Px.
  destruct (String.eqb (text_id x) id) eqn:E; [|exact Px].
  apply String.eqb_eq in E. now apply Hm.
Qed.

Lemma onLensUpdate_collections_lenses id p h :
  lenses (onLensUpdate id p h) = patchLenses id p (lenses h).
Proof. reflexivity. Qed.

Lemma onLensUpdate_stickers id p h : stickers (onLensUpdate id p h) = stickers h.
Proof. unfold onLensUpdate. simpl. apply pushHistory_stickers. Qed.

Lemma onLensUpdate_texts id p h : texts (onLensUpdate id p h) = texts h.
Proof. unfold onLensUpdate. simpl. apply pushHistory_texts. Qed.

Lemma onStickerUpdate_stickers id p h :
  stickers (onStickerUpdate id p h) = patchStickers id p (stickers h).
Proof. reflexivity. Qed.

Lemma onStickerUpdate_lenses id p h : lenses (onStickerUpdate id p h) = lenses h.
Proof. unfold onStickerUpdate. simpl. apply pushHistory_lenses. Qed.

Lemma onStickerUpdate_texts id p h : texts (onStickerUpdate id p h) = texts h.
Proof. unfold onStickerUpdate. simpl. apply pushHistory_texts. Qed.

Lemma onTextUpdate_texts id p h :
  texts (onTextUpdate id p h) = patchTexts id p (texts h).
Proof. reflexivity. Qed.

Lemma onTextUpdate_lenses id p h : lenses (onTextUpdate id p h) = lenses h.
Proof. unfold onTextUpdate. simpl. apply pushHistory_lenses. Qed.

Lemma onTextUpdate_stickers id p h : stickers (onTextUpdate id p h) = stickers h.
Proof. unfold onTextUpdate. simpl. apply pushHistory_stickers. Qed.

Lemma within_clamped sz x y w h nx ny :
  within sz x y w h ->
  within sz (clamp nx 0 (sizeWidth sz - w)) (clamp ny 0 (sizeHeight sz - h)) w h.
Proof.
  unfold within. intros [Hx [Hy [Hw Hh]]].
  pose proof (clamp_le_max nx 0 (sizeWidth sz - w)).
  pose proof (clamp_le_max ny 0 (sizeHeight sz - h)).
  pose proof (clamp_ge_min nx 0 (sizeWidth sz - w)).
  pose proof (clamp_ge_min ny 0 (sizeHeight sz - h)).
  repeat split; lra.
Qed.

Lemma within_resized sz x y w h sx sy nw nh :
  within sz x y w h -> x == sx -> y == sy ->
  nw <= sizeWidth sz - sx -> nh <= sizeHeight sz - sy ->
  within sz x y nw nh.
Proof. unfold within. intros [Hx [Hy _]] Ex Ey Hw Hh. repeat split; lra. Qed.

Lemma moveLensDrag_within ctx id off p a :
  uniqueIds a -> allWithin ctx a -> allWithin ctx (moveLensDrag id off p a).
Proof.
  intros [Hu _] [Hl [Hs Ht]]. unfold moveLensDrag.
  destruct (lensById id (lenses (home a))) as [l|] eqn:F; [|now repeat split].
  unfold allWithin. cbn [withHome home stage].
  rewrite onLensUpdate_collections_lenses, onLensUpdate_stickers,
    onLensUpdate_texts.
  repeat split; auto.
  apply Forall_patchLenses; [exact Hl|].
  intros x Hx Hid Px.
  apply find_some in F. destruct F as [Fin Fid]. apply String.eqb_eq in Fid.
  assert (x = l) as ->.
  { apply (NoDup_map_In_eq lens_id (lenses (home a))); auto; congruence. }
  unfold lensWithin in *. simpl.
  apply (within_clamped _ (lens_x l) (lens_y l)). exact Px.
Qed.

Lemma moveStickerDrag_within ctx id off p a :
  uniqueIds a -> allWithin ctx a -> allWithin ctx (moveStickerDrag id off p a).
Proof.
  intros [_ [Hu _]] [Hl [Hs Ht]]. unfold moveStickerDrag.
  destruct (stickerById id (stickers (home a))) as [s|] eqn:F;
    [|now repeat split].
  unfold allWithin. cbn [withHome home stage].
  rewrite onStickerUpdate_stickers, onStickerUpdate_lenses,
    onStickerUpdate_texts.
  repeat split; auto.
  apply Forall_patchStickers; [exact Hs|].
  intros x Hx Hid Px.
  apply find_some in F. destruct F as [Fin Fid]. apply String.eqb_eq in Fid.
  assert (x = s) as ->.
  { apply (NoDup_map_In_eq sticker_id (stickers (home a))); auto; congruence. }
  unfold stickerWithin in *. simpl.
  apply (within_clamped _ (sticker_x s) (sticker_y s)). exact Px.
Qed.

Lemma moveTextDrag_within ctx id off p a :
  uniqueIds a -> allWithin ctx a -> allWithin ctx (moveTextDrag ctx id off p a).
Proof.
  intros [_ [_ Hu]] [Hl [Hs Ht]]. unfold moveTextDrag.
  destruct (textById id (texts (home a))) as [t|] eqn:F; [|now repeat split].
  unfold allWithin. cbn [withHome home stage].
  rewrite onTextUpdate_texts, onTextUpdate_lenses, onTextUpdate_stickers.
  repeat split; auto.
  apply Forall_patchTexts; [exact Ht|].
  intros x Hx Hid Px.
  apply find_some in F. destruct F as [Fin Fid]. apply String.eqb_eq in Fid.
  assert (x = t) as ->.
  { apply (NoDup_map_In_eq text_id (texts (home a))); auto; congruence. }
  unfold textWithin in *.
  change (getTextBounds ctx (mergeText t (textMovePatch _ _)))
    with (getTextBounds ctx t).
  simpl.
  apply (within_clamped _ (text_x t) (text_y t)). exact Px.
Qed.

Lemma moveLensResize_within ctx r p a :
  anchored a -> resizeState (stage a) = Some r ->
  allWithin ctx a -> allWithin ctx (moveLensResize r p a).
Proof.
  intros [Ha _] Hr [Hl [Hs Ht]]. unfold moveLensResize.
  set (roomX := sizeWidth (size (stage a)) - rx (rs_start r)).
  set (roomY := sizeHeight (size (stage a)) - ry (rs_start r)).
  set (nw := clamp _ 60 roomX). set (nh := clamp _ 60 roomY).
  assert (Hnw : nw <= roomX) by apply clamp_le_max.
  assert (Hnh : nh <= roomY) by apply clamp_le_max.
  assert (Hu : Qmin (Qmax nw nh) (Qmin roomX roomY) <= roomX /\
               Qmin (Qmax nw nh) (Qmin roomX roomY) <= roomY).
  { clearbody nw nh roomX roomY. split; minmax_cases; lra. }
  destruct Hu as [Hu1 Hu2].
  destruct (isCircleLens (rs_id r) (lenses (home a)));
    unfold allWithin; cbn [withHome home stage];
    rewrite onLensUpdate_collections_lenses, onLensUpdate_stickers,
      onLensUpdate_texts;
    (repeat split; auto);
    (apply Forall_patchLenses; [exact Hl|]);
    intros x Hx Hid Px;
    destruct (Ha r x Hr Hx Hid) as [Ex Ey];
    unfold lensWithin in *; simpl;
    apply (within_resized _ _ _ (lens_width x) (lens_height x)
             (rx (rs_start r)) (ry (rs_start r))); auto.
Qed.

Lemma moveStickerResize_within ctx r img p a :
  anchored a -> stickerResizeState (stage a) = Some r ->
  allWithin ctx a -> allWithin ctx (moveStickerResize r img p a).
Proof.
  intros [_ Ha] Hr [Hl [Hs Ht]].
  destruct (moveStickerResize_stickers r img p a) as [w [h [_ E]]].
  unfold allWithin.
  replace (size (stage (moveStickerResize r img p a))) with (size (stage a))
    by reflexivity.
  rewrite E.
  replace (lenses (home (moveStickerResize r img p a))) with (lenses (home a))
    by (unfold moveStickerResize; cbn [withHome home];
        now rewrite onStickerUpdate_lenses).
  replace (texts (home (moveStickerResize r img p a))) with (texts (home a))
    by (unfold moveStickerResize; cbn [withHome home];
        now rewrite onStickerUpdate_texts).
  repeat split; auto.
  apply Forall_patchStickers; [exact Hs|].
  intros x Hx Hid Px.
  destruct (Ha r x Hr Hx Hid) as [Ex Ey].
  unfold stickerWithin in *; simpl.
  apply (within_resized _ _ _ (sticker_width x) (sticker_height x)
           (rx (rs_start r)) (ry (rs_start r))); auto using clamp_le_max.
Qed.

(* Where the clamps of [handlePointerMove] do their work: a move that is
   not a text resize keeps every entity within the canvas if every entity
   lay within it before, no two entities of a collection share an id, and
   the start corner captured by a pending lens or sticker resize is still
   the corner of its target. *)
Lemma handlePointerMove_keeps_within
    (ctx : option (string -> FontString -> Q)) (ev : PointerEvent) (a : App) :
  uniqueIds a -> anchored a ->
  textResizeState (stage a) = None ->
  allWithin ctx a ->
  allWithin ctx (handlePointerMove ctx ev a).
Proof.
  intros Hu Ha Ht Hw. unfold handlePointerMove.
  pose proof (moveBranch_inv a) as Hb.
  destruct (moveBranch a) as [r|id off|r img|id off|r|id off| |].
  - congruence.
  - now apply moveTextDrag_within.
  - now apply moveStickerResize_within.
  - now apply moveStickerDrag_within.
  - now apply moveLensResize_within.
  - now apply moveLensDrag_within.
  - exact Hw.
  - exact Hw.
Qed.

Lemma withinb_sound sz x y w h : withinb sz x y w h = true -> within sz x y w h.
Proof.
  unfold withinb, within, Qleb. intro H.
  repeat (apply andb_true_iff in H; destruct H as [H ?]).
  repeat split; now apply Qle_bool_iff.
Qed.

Lemma allWithinb_sound ctx a : allWithinb ctx a = true -> allWithin ctx a.
Proof.
  unfold allWithinb, allWithin. intro H.
  repeat (apply andb_true_iff in H; destruct H as [H ?]).
  repeat split; apply Forall_forall; intros x Hx;
    match goal with
    | F : forallb _ ?l = true, I : In _ ?l |- _ =>
        apply (proj1 (forallb_forall _ _) F) in I
    end; now apply withinb_sound.
Qed.

Lemma distinct_sound l : distinct l = true -> NoDup l.
Proof.
  induction l as [|x l IH]; simpl; intro H; [constructor|].
  apply andb_true_iff in H. destruct H as [H1 H2].
  constructor; [|now apply IH].
  intro Hin. apply negb_true_iff in H1.
  assert (existsb (String.eqb x) l = true); [|congruence].
  apply existsb_exists. exists x. split; [exact Hin | apply String.eqb_refl].
Qed.

Lemma uniqueIdsb_sound a : uniqueIdsb a = true -> uniqueIds a.
Proof.
  unfold uniqueIdsb, uniqueIds. intro H.
  repeat (apply andb_true_iff in H; destruct H as [H ?]).
  repeat split; now apply distinct_sound.
Qed.

Lemma anchoredb_sound a : anchoredb a = true -> anchored a.
Proof.
  unfold anchoredb, anchored. intro H.
  apply andb_true_iff in H. destruct H as [H1 H2]. split.
  - intros r l Hr Hin Hid. rewrite Hr in H1.
    apply (proj1 (forallb_forall _ _) H1) in Hin.
    rewrite Hid, String.eqb_refl in Hin. simpl in Hin.
    apply andb_true_iff in Hin. destruct Hin as [Ex Ey].
    split; now apply Qeq_bool_iff.
  - intros r s Hr Hin Hid. rewrite Hr in H2.
    apply (proj1 (forallb_forall _ _) H2) in Hin.
    rewrite Hid, String.eqb_refl in Hin. simpl in Hin.
    apply andb_true_iff in Hin. destruct Hin as [Ex Ey].
    split; now apply Qeq_bool_iff.
Qed.

(** C7, the moves that take an entity off the canvas.  The text of
    [Scene.oneText] (one line of size 28 at y = 483.2 on the 920 x 620
    canvas) lies within the canvas; pressing the secondary button on it at
    (95,505) and moving to (1000,1000) sets its size to 200, so that its box
    is 240 high and ends at y = 723.2: the text resize has no canvas bound.
    A lens dragged from (700,400) to (100,100), pressed there with the
    secondary button, and put back at (700,400) by an undo while the button
    is held, still lies within the canvas; the next move to (2000,2000)
    sizes it by the room right of the captured corner (100,100) and makes
    it 520 wide, to end at x = 1220.  And a lens of 700 x 400 on a canvas
    that the container has since shrunk to 480 x 320 is moved to x = -220
    by a drag of ten units. *)
Theorem C7_moves_leave_canvas :
  (allWithin None Scene.oneText /\
   exists t,
     In t (texts (home (Scene.pressAndMove 2 95 505 1000 1000 Scene.oneText))) /\
     text_size t == 200 /\
     ~ text_y t + tb_height (getTextBounds None t) <=
       sizeHeight (size (stage (Scene.pressAndMove 2 95 505 1000 1000
                                  Scene.oneText)))) /\
  (allWithin None Scene.lensUndoneWhilePressed /\
   exists l,
     In l (lenses (home (handlePointerMove None (Scene.down 2 2000 2000)
                           Scene.lensUndoneWhilePressed))) /\
     lens_x l == 700 /\ lens_width l == 520 /\
     ~ lens_x l + lens_width l <=
       sizeWidth (size (stage (handlePointerMove None (Scene.down 2 2000 2000)
                                 Scene.lensUndoneWhilePressed)))) /\
  (exists l,
     In l (lenses (home (Scene.pressAndMove 0 300 250 310 260 Scene.shrunk))) /\
     lens_x l == -220 /\ ~ 0 <= lens_x l).
Proof.
  split; [|split].
  - split.
    + apply allWithinb_sound. vm_compute. reflexivity.
    + eexists. split; [vm_compute; left; reflexivity|].
      split; [reflexivity|].
      intro H. apply Qle_bool_iff in H. vm_compute in H. discriminate.
  - split.
    + apply allWithinb_sound. vm_compute. reflexivity.
    + eexists. split; [vm_compute; left; reflexivity|].
      split; [reflexivity|]. split; [reflexivity|].
      intro H. apply Qle_bool_iff in H. vm_compute in H. discriminate.
  - eexists. split; [vm_compute; left; reflexivity|].
    split; [reflexivity|].
    intro H. apply Qle_bool_iff in H. vm_compute in H. discriminate.
Qed.

(** ** C8: a magnify click *)




(** ** C9: the order of the layers *)

Lemma appends_skip : appends skip.
Proof. intro log. unfold exec. simpl. now rewrite app_nil_r. Qed.

Lemma exec_skip : exec skip = [].
Proof. reflexivity. Qed.

Lemma appends_emit p : appends (emit p).
Proof. intro log. reflexivity. Qed.

Lemma exec_emit p : exec (emit p) = [p].
Proof. reflexivity. Qed.

Lemma snd_bind {A} (d1 : Draw A) (d2 : Draw unit) log :
  snd (bind d1 (fun _ => d2) log) = snd (d2 (snd (d1 log))).
Proof. unfold bind. now destruct (d1 log). Qed.

Lemma exec_seq (d1 d2 : Draw unit) :
  appends d1 -> appends d2 ->
  exec (bind d1 (fun _ => d2)) = (exec d1 ++ exec d2)%list.
Proof.
  intros H1 H2. unfold exec at 1. rewrite snd_bind, H2. reflexivity.
Qed.

Lemma appends_seq (d1 d2 : Draw unit) :
  appends d1 -> appends d2 -> appends (bind d1 (fun _ => d2)).
Proof.
  intros H1 H2 log. rewrite exec_seq by assumption.
  rewrite snd_bind, H2, H1, app_assoc. reflexivity.
Qed.

Lemma forEach_spec {A} (f : A -> Draw unit) (l : list A) :
  (forall x, appends (f x)) ->
  appends (forEach l f) /\
  exec (forEach l f) = flat_map (fun x => exec (f x)) l.
Proof.
  intro Hf. induction l as [|x l [IH1 IH2]]; simpl.
  - split; [apply appends_skip | reflexivity].
  - split.
    + now apply appends_seq.
    + rewrite exec_seq by auto. now rewrite IH2.
Qed.

Lemma forEachIdx_spec {A} (f : A -> nat -> Draw unit) (l : list A) :
  (forall x i, appends (f x i)) ->
  forall i, appends (forEachIdx l i f).
Proof.
  intro Hf. induction l as [|x l IH]; intro i; simpl.
  - apply appends_skip.
  - now apply appends_seq.
Qed.

Lemma appends_drawText t : appends (drawText t).
Proof. apply forEachIdx_spec. intros. apply appends_emit. Qed.

Lemma appends_drawSticker s : appends (drawSticker s).
Proof. apply appends_emit. Qed.

Lemma appends_drawConnector l m : appends (drawConnector l m).
Proof. apply appends_seq; apply appends_emit. Qed.

Lemma appends_drawLens img w h l draw : appends (drawLens img w h l draw).
Proof.
  unfold drawLens. destruct img, draw; try apply appends_skip.
  apply appends_seq; destruct (lens_mode l);
    auto using appends_emit, appends_skip.
Qed.

Lemma appends_drawPreview p : appends (drawPreview p).
Proof. apply appends_seq; apply appends_emit. Qed.

Lemma appends_drawPlaceholder w h c b : appends (drawPlaceholder w h c b).
Proof.
  apply appends_seq; [apply appends_emit|].
  destruct b; simpl; auto using appends_emit, appends_skip.
Qed.







(* Splits a sequence of drawings and closes each part by a hypothesis or by
   one of the lemmas above. *)
Ltac solve_appends :=
  solve [ assumption | apply appends_emit | apply appends_skip
        | apply appends_drawPlaceholder
        | apply appends_seq; solve_appends ].

Lemma flat_map_drawSticker l :
  flat_map (fun x => exec (drawSticker x)) l = map PSticker l.
Proof.
  induction l as [|s l IH]; [reflexivity|].
  cbn [map flat_map]. rewrite IH. reflexivity.
Qed.

Lemma flat_map_nil {A B} (l : list A) : flat_map (fun _ => @nil B) l = [].
Proof. induction l; simpl; auto. Qed.

(* What [paintScene] appends when an image is drawn. *)
Lemma paintScene_with_image r img :
  arg_image r = Some img ->
  let m := fitImage img (arg_width r) (arg_height r) in
  exec (paintScene r) =
  ([PClear (arg_width r) (arg_height r); PBaseImage img m] ++
   map PSticker (arg_stickers r) ++
   flat_map (fun t => exec (drawText t)) (arg_texts r) ++
   flat_map (fun l => exec (drawConnector l m))
     (filter (fun l => Mode_eqb (lens_mode l) MMagnify) (arg_lenses r)) ++
   flat_map
     (fun l => exec (drawLens (Some img) (arg_width r) (arg_height r) l (Some m)))
     (arg_lenses r) ++
   previewPaints (arg_preview r))%list.
Proof.
  intros Hi m. unfold paintScene. rewrite Hi. fold m. cbn [isSome].
  assert (Hp : appends (match arg_preview r with
                        | Some p => drawPreview p
                        | None => skip
                        end) /\
               exec (match arg_preview r with
                     | Some p => drawPreview p
                     | None => skip
                     end) = previewPaints (arg_preview r)).
  { destruct (arg_preview r); split;
      auto using appends_drawPreview, appends_skip. }
  destruct Hp as [Hp1 Hp2].
  destruct (forEach_spec drawSticker (arg_stickers r) appends_drawSticker)
    as [S1 S2].
  destruct (forEach_spec drawText (arg_texts r) appends_drawText) as [T1 T2].
  destruct (forEach_spec (fun l => drawConnector l m)
              (filter (fun l => Mode_eqb (lens_mode l) MMagnify) (arg_lenses r))
              (fun l => appends_drawConnector l m)) as [C1 C2].
  destruct (forEach_spec
              (fun l => drawLens (Some img) (arg_width r) (arg_height r) l
                          (Some m))
              (arg_lenses r)
              (fun l => appends_drawLens _ _ _ l _)) as [L1 L2].
  repeat (rewrite exec_seq by solve_appends).
  rewrite S2, T2, C2, L2, Hp2, !exec_emit.
  rewrite flat_map_drawSticker. reflexivity.
Qed.

(* What [paintScene] appends when no image is drawn. *)
Lemma paintScene_without_image r :
  arg_image r = None ->
  exec (paintScene r) =
  (PClear (arg_width r) (arg_height r) ::
   exec (drawPlaceholder (arg_width r) (arg_height r) (arg_backgroundColor r)
           (arg_showPlaceholder r)) ++
   flat_map (fun t => exec (drawText t)) (arg_texts r) ++
   previewPaints (arg_preview r))%list.
Proof.
  intros Hi. unfold paintScene. rewrite Hi.
  cbv beta iota zeta delta [isSome].
  assert (Hp : appends (match arg_preview r with
                        | Some p => drawPreview p
                        | None => skip
                        end) /\
               exec (match arg_preview r with
                     | Some p => drawPreview p
                     | None => skip
                     end) = previewPaints (arg_preview r)).
  { destruct (arg_preview r); split;
      auto using appends_drawPreview, appends_skip. }
  destruct Hp as [Hp1 Hp2].
  destruct (forEach_spec drawText (arg_texts r) appends_drawText) as [T1 T2].
  destruct (forEach_spec (fun _ : Lens => skip)
              (filter (fun l => Mode_eqb (lens_mode l) MMagnify) (arg_lenses r))
              (fun _ => appends_skip)) as [C1 C2].
  destruct (forEach_spec
              (fun l => drawLens None (arg_width r) (arg_height r) l None)
              (arg_lenses r)
              (fun l => appends_drawLens _ _ _ l _)) as [L1 L2].
  repeat (rewrite exec_seq by solve_appends).
  rewrite T2, C2, L2, Hp2, exec_emit, exec_skip.
  change (fun _ : Lens => exec skip) with (fun _ : Lens => @nil Paint).
  change (fun l => exec (drawLens None (arg_width r) (arg_height r) l None))
    with (fun _ : Lens => @nil Paint).
  rewrite !flat_map_nil.
  reflexivity.
Qed.





Lemma forEachIdx_lines t lineHeight lines : forall i log,
  snd (forEachIdx lines i
         (fun line idx =>
            emit (PTextLine t line (text_x t)
                    (text_y t + ofNat idx * lineHeight))) log) =
  (log ++
   map (fun nl => PTextLine t (snd nl) (text_x t)
                    (text_y t + ofNat (fst nl) * lineHeight))
     (combine (seq i (List.length lines)) lines))%list.
Proof.
  induction lines as [|x lines IH]; intros i log; simpl.
  - now rewrite app_nil_r.
  - rewrite snd_bind, IH. simpl. rewrite <- app_assoc. reflexivity.
Qed.







(** ** C10: what a drag or a resize leaves alone *)

Lemma sameSource_refl l : sameSource l l.
Proof. repeat split. Qed.

Lemma Forall2_sameSource_refl l : Forall2 sameSource l l.
Proof. induction l; constructor; auto using sameSource_refl. Qed.

Lemma patchLenses_sameSource id p l :
  keepsSource p -> Forall2 sameSource l (patchLenses id p l).
Proof.
  intros [H1 [H2 [H3 [H4 [H5 [H6 [H7 H8]]]]]]].
  induction l as [|x l IH]; simpl; constructor; [|exact IH].
  destruct (String.eqb (lens_id x) id); [|apply sameSource_refl].
  unfold sameSource, mergeLens. simpl.
  rewrite H1, H2, H3, H4, H5, H6, H7, H8. repeat split.
Qed.

(* A pointer move leaves the lenses alone or patches those of one id with a
   patch that keeps the source. *)
Lemma handlePointerMove_lenses ctx ev a :
  lenses (home (handlePointerMove ctx ev a)) = lenses (home a) \/
  exists id p, keepsSource p /\
    lenses (home (handlePointerMove ctx ev a)) =
    patchLenses id p (lenses (home a)).
Proof.
  unfold handlePointerMove.
  destruct (moveBranch a) as [r|id off|r img|id off|r|id off| |].
  - left. unfold moveTextResize.
    destruct (textById _ _); [|reflexivity].
    cbn [withHome home]. apply onTextUpdate_lenses.
  - left. unfold moveTextDrag.
    destruct (textById _ _); [|reflexivity].
    cbn [withHome home]. apply onTextUpdate_lenses.
  - left. unfold moveStickerResize. cbn [withHome home].
    apply onStickerUpdate_lenses.
  - left. unfold moveStickerDrag.
    destruct (stickerById _ _); [|reflexivity].
    cbn [withHome home]. apply onStickerUpdate_lenses.
  - right. unfold moveLensResize.
    destruct (isCircleLens _ _); do 2 eexists;
      (split; [|reflexivity]); repeat split.
  - unfold moveLensDrag.
    destruct (lensById _ _); [|left; reflexivity].
    right. do 2 eexists. split; [|reflexivity]. repeat split.
  - left. reflexivity.
  - left. reflexivity.
Qed.

Lemma sameSource_display l0 l1 m :
  sameSource l0 l1 -> sourceDisplay l1 m = sourceDisplay l0 m.
Proof.
  intros [_ [H2 [H3 _]]]. unfold sourceDisplay. now rewrite H2, H3.
Qed.

(** C10: no pointer move, whether it drags or resizes a lens or does
    anything else, changes the id, sourceImageX, sourceImageY, mode, shape,
    blur, magnification or creation time of any lens, so the point of the
    image that the compositor samples for a lens ([sourceDisplay], computed
    from sourceImageX and sourceImageY alone) is the same before and after;
    and dragging a lens moves its sourceX and sourceY by exactly the amount
    its x and y move, leaving its width and height alone. *)
Theorem C10_moves_keep_lens_source
    (ctx : option (string -> FontString -> Q)) (ev : PointerEvent) (a : App) :
  let a' := handlePointerMove ctx ev a in
  Forall2 sameSource (lenses (home a)) (lenses (home a')) /\
  (forall m : ImageMetrics,
     map (fun l => sourceDisplay l m) (lenses (home a')) =
     map (fun l => sourceDisplay l m) (lenses (home a))) /\
  (forall id off l,
     moveBranch a = BLensDrag id off ->
     lensById id (lenses (home a)) = Some l ->
     exists l',
       lensById id (lenses (home a')) = Some l' /\
       lens_sourceX l' - lens_sourceX l == lens_x l' - lens_x l /\
       lens_sourceY l' - lens_sourceY l == lens_y l' - lens_y l /\
       lens_width l' = lens_width l /\ lens_height l' = lens_height l).
Proof.
  intro a'.
  assert (HF : Forall2 sameSource (lenses (home a)) (lenses (home a'))).
  { destruct (handlePointerMove_lenses ctx ev a) as [E | [id [p [Hp E]]]];
      unfold a'; rewrite E.
    - apply Forall2_sameSource_refl.
    - now apply patchLenses_sameSource. }
  split; [exact HF|]. split.
  - intro m. induction HF as [|l0 l1 ls0 ls1 H _ IH]; simpl; [reflexivity|].
    rewrite IH. f_equal. now apply sameSource_display.
  - intros id off l Hb Hf. unfold a', handlePointerMove. rewrite Hb.
    unfold moveLensDrag. rewrite Hf. cbn [withHome home].
    rewrite onLensUpdate_collections_lenses.
    pose proof Hf as Hf'. apply find_some in Hf'. destruct Hf' as [_ Hid].
    apply String.eqb_eq in Hid. rewrite Hid.
    rewrite lensById_patch by reflexivity. rewrite Hf. simpl.
    eexists. split; [reflexivity|]. simpl. repeat split; ring.
Qed.

(** A witness of C10: the lens of [Scene.oneLens], grabbed at (120,130) and
    dragged to (400,300). *)
Lemma C10_moves_keep_lens_source_witness :
  exists l',
    lensById "l1"
      (lenses (home (handlePointerMove None (Scene.down 0 400 300)
                       Scene.lensGrabbed))) = Some l' /\
    lens_sourceX l' - lens_sourceX Scene.theLens ==
    lens_x l' - lens_x Scene.theLens.
Proof.
  destruct (proj2 (proj2 (C10_moves_keep_lens_source None
                            (Scene.down 0 400 300) Scene.lensGrabbed))
              "l1" {| dx := 20; dy := 30 |} Scene.theLens)
    as [l' [H1 [H2 _]]].
  - vm_compute. reflexivity.
  - vm_compute. reflexivity.
  - exists l'. split; [exact H1 | exact H2].
Defined.

(** * Further properties of the store *)

Lemma handleUndo_empty h : historyRef h = [] -> handleUndo h = h.
Proof. intro H. unfold handleUndo. now rewrite H. Qed.

Lemma handleUndo_keeps_empty h :
  historyRef h = [] -> historyRef (handleUndo h) = [].
Proof. intro H. now rewrite handleUndo_empty. Qed.

(* Undoing as many times as the history is long walks back through it; the
   flag of a pending restore plays no part in [handleUndo]. *)
Lemma undoTimes_history (hist : list Snapshot) : forall h first,
  historyRef h = (first :: hist) ->
  collections (undoTimes (S (List.length hist)) h) = first /\
  historyRef (undoTimes (S (List.length hist)) h) = [].
Proof.
  induction hist as [|x hist IH] using rev_ind; intros h first Hh.
  - simpl. destruct (handleUndo_snoc h [] first Hh) as [Hc [Hr _]]. auto.
  - rewrite length_app. simpl List.length.
    replace (S (List.length hist + 1)) with (S (S (List.length hist))) by lia.
    change (undoTimes (S (S (List.length hist))) h)
      with (undoTimes (S (List.length hist)) (handleUndo h)).
    apply IH.
    destruct (handleUndo_snoc h (first :: hist) x) as [_ [Hr _]];
      [rewrite Hh; reflexivity | exact Hr].
Qed.

(** X1: starting from an empty history with no undo restore in flight, any
    run of at most 50 mutating actions followed by as many undos restores
    the three collections and leaves the history empty, so that one more
    undo changes nothing. *)
Theorem X1_undo_all (h : Home) (ms : list Mutation) :
  isUndoingRef h = false -> historyRef h = [] ->
  forallb mutates ms = true -> (List.length ms <= 50)%nat ->
  let h' := undoTimes (List.length ms) (runMutations ms h) in
  collections h' = collections h /\ historyRef h' = [] /\
  handleUndo h' = h'.
Proof.
  intros Hu Hh Hm Hl h'.
  destruct (runMutations_history ms h Hu Hm) as [E _];
    [rewrite Hh; simpl; lia|].
  rewrite Hh in E. simpl in E.
  rewrite sliceLast_all in E by (rewrite preStates_length; exact Hl).
  assert (H : collections h' = collections h /\ historyRef h' = []).
  { unfold h'. destruct ms as [|m ms]; [simpl; auto|].
    simpl preStates in E. simpl List.length.
    rewrite <- (preStates_length ms (mutate m h)).
    apply undoTimes_history. exact E. }
  destruct H as [H1 H2]. repeat split; auto. now apply handleUndo_empty.
Qed.

(** A witness of X1: three lenses added to the initial page and three
    undos. *)
Lemma X1_undo_all_witness :
  collections (undoTimes 3 (runMutations Scene.threeLenses initialHome)) =
  collections initialHome.
Proof.
  apply (X1_undo_all initialHome Scene.threeLenses); try reflexivity.
  simpl. lia.
Defined.

(** X2: while an undo restore is in flight (between [handleUndo] and the
    callback of its timer) no action of the store records a snapshot: the
    history stays as it is, whatever the action does to the collections;
    the timer callback ends the suppression. *)
Theorem X2_no_snapshot_during_restore (h : Home) (m : Mutation) :
  isUndoingRef h = true ->
  historyRef (mutate m h) = historyRef h /\
  isUndoingRef (mutate m h) = true /\
  isUndoingRef (undoTimeout (mutate m h)) = false /\
  collections (undoTimeout (mutate m h)) = collections (mutate m h).
Proof.
  intro Hu.
  assert (P : forall ls ss ts, pushHistory ls ss ts h = h).
  { intros. unfold pushHistory. now rewrite Hu. }
  destruct m; simpl;
    unfold handleLensAdd, handleStickerAdd, handleTextAdd, onLensUpdate,
      onStickerUpdate, onTextUpdate, handleReset;
    try match goal with |- context [if ?c then _ else _] => destruct c end;
    rewrite ?P; simpl; auto.
Qed.

(** A witness of X2: a lens added right after an undo. *)
Lemma X2_no_snapshot_during_restore_witness :
  historyRef (mutate (AddLens Scene.theLens) (handleUndo (home Scene.oneLens))) =
  historyRef (handleUndo (home Scene.oneLens)).
Proof.
  apply (X2_no_snapshot_during_restore (handleUndo (home Scene.oneLens))).
  vm_compute. reflexivity.
Defined.

(** X3: loading a new image empties the three collections and the history,
    and picking a new sticker file empties the history: in both cases an
    undo right afterwards changes nothing, so no earlier overlay state can
    be brought back. *)
Theorem X3_pick_cuts_undo (result : string) (h : Home) :
  collections (handleFilePicked result h) =
    {| snap_lenses := []; snap_stickers := []; snap_texts := [] |} /\
  imageSrc (handleFilePicked result h) = result /\
  handleUndo (handleFilePicked result h) = handleFilePicked result h /\
  handleUndo (handleStickerPicked result h) = handleStickerPicked result h.
Proof. repeat split. Qed.

Lemma patchLenses_absent id p l :
  ~ In id (map lens_id l) -> patchLenses id p l = l.
Proof.
  intro H. unfold patchLenses. induction l as [|x l IH]; [reflexivity|].
  simpl in *. destruct (String.eqb (lens_id x) id) eqn:E.
  - apply String.eqb_eq in E. tauto.
  - rewrite IH by tauto. reflexivity.
Qed.

Lemma patchStickers_absent id p l :
  ~ In id (map sticker_id l) -> patchStickers id p l = l.
Proof.
  intro H. unfold patchStickers. induction l as [|x l IH]; [reflexivity|].
  simpl in *. destruct (String.eqb (sticker_id x) id) eqn:E.
  - apply String.eqb_eq in E. tauto.
  - rewrite IH by tauto. reflexivity.
Qed.

Lemma patchTexts_absent id p l :
  ~ In id (map text_id l) -> patchTexts id p l = l.
Proof.
  intro H. unfold patchTexts. induction l as [|x l IH]; [reflexivity|].
  simpl in *. destruct (String.eqb (text_id x) id) eqn:E.
  - apply String.eqb_eq in E. tauto.
  - rewrite IH by tauto. reflexivity.
Qed.

(** X4: an update whose id no entity of the collection carries leaves the
    three collections as they are, and still records a snapshot (unless an
    undo restore is in flight): the history grows by the unchanged state. *)
Theorem X4_update_of_absent_id (h : Home) (id : string) :
  (forall p, ~ In id (map lens_id (lenses h)) ->
     collections (onLensUpdate id p h) = collections h) /\
  (forall p, ~ In id (map sticker_id (stickers h)) ->
     collections (onStickerUpdate id p h) = collections h) /\
  (forall p, ~ In id (map text_id (texts h)) ->
     collections (onTextUpdate id p h) = collections h) /\
  (isUndoingRef h = false ->
   (forall p, historyRef (onLensUpdate id p h) =
      (sliceLast 49 (historyRef h) ++ [collections h])%list) /\
   (forall p, historyRef (onStickerUpdate id p h) =
      (sliceLast 49 (historyRef h) ++ [collections h])%list) /\
   (forall p, historyRef (onTextUpdate id p h) =
      (sliceLast 49 (historyRef h) ++ [collections h])%list)).
Proof.
  repeat split.
  - intros p H. rewrite onLensUpdate_collections, patchLenses_absent by exact H.
    reflexivity.
  - intros p H.
    rewrite onStickerUpdate_collections, patchStickers_absent by exact H.
    reflexivity.
  - intros p H. rewrite onTextUpdate_collections, patchTexts_absent by exact H.
    reflexivity.
  - intro p. apply (mutate_history (UpdateLens id p) h H eq_refl).
  - intro p. apply (mutate_history (UpdateSticker id p) h H eq_refl).
  - intro p. apply (mutate_history (UpdateText id p) h H eq_refl).
Qed.

(** A witness of X4: updating a lens "nobody" in the store of
    [Scene.oneLens]. *)
Lemma X4_update_of_absent_id_witness :
  collections (onLensUpdate "nobody" (lensSizePatch 1 1) (home Scene.oneLens)) =
  collections (home Scene.oneLens).
Proof.
  apply (proj1 (X4_update_of_absent_id (home Scene.oneLens) "nobody")).
  vm_compute. intros [H | []]. discriminate.
Defined.

(** * Further properties of the stage *)

(* A press leaves the page alone or mirrors one of its texts into the text
   controls. *)
Lemma handlePointerDown_home ctx ev a :
  home (handlePointerDown ctx ev a) = home a \/
  exists t, In t (texts (home a)) /\
    home (handlePointerDown ctx ev a) = handleTextSelect t (home a).
Proof.
  unfold handlePointerDown, topmost.
  destruct (find _ (rev (texts (home a)))) as [t|] eqn:Ft.
  - apply find_some in Ft. destruct Ft as [Ft _]. apply in_rev in Ft.
    destruct (button ev =? 0)%Z; [right; exists t; split; [exact Ft|reflexivity]|].
    destruct (button ev =? 2)%Z; [right; exists t; split; [exact Ft|reflexivity]|].
    left.
    repeat match goal with
    | |- context [match ?x with _ => _ end] =>
        lazymatch x with
        | context [match _ with _ => _ end] => fail
        | _ => destruct x
        end
    end; reflexivity.
  - left.
    repeat match goal with
    | |- context [match ?x with _ => _ end] =>
        lazymatch x with
        | context [match _ with _ => _ end] => fail
        | _ => destruct x
        end
    end; reflexivity.
Qed.

Ltac split_matches :=
  repeat match goal with
  | |- context [match ?x with _ => _ end] =>
      lazymatch x with
      | context [match _ with _ => _ end] => fail
      | _ => destruct x eqn:?
      end
  end.

Lemma topmost_In {A} (hit : A -> bool) l x : topmost hit l = Some x -> In x l.
Proof.
  unfold topmost. intro H. apply find_some in H. apply in_rev. exact (proj1 H).
Qed.

Lemma sameTextDeps_home a b :
  home b = home a ->
  activeTextId (stage b) = activeTextId (stage a) ->
  sameTextDeps a b = true.
Proof.
  intros Eh Ea. unfold sameTextDeps. rewrite Eh, Ea.
  rewrite !String.eqb_refl.
  assert (Eq : Qeq_bool (textSize (home a)) (textSize (home a)) = true)
    by (apply Qeq_bool_iff; reflexivity).
  rewrite Eq. destruct (activeTextId (stage a)); [|reflexivity].
  now rewrite String.eqb_refl.
Qed.

(* A press that selects no text leaves the page alone and the selection as
   it is, or clears it. *)
Lemma handlePointerDown_unselected ctx ev a :
  topmost (fun t => isWithinText ctx t (point ev)) (texts (home a)) = None \/
  (button ev <> 0 /\ button ev <> 2)%Z ->
  home (handlePointerDown ctx ev a) = home a /\
  (activeTextId (stage (handlePointerDown ctx ev a)) = activeTextId (stage a) \/
   activeTextId (stage (handlePointerDown ctx ev a)) = None).
Proof.
  intro H. unfold handlePointerDown.
  destruct (button ev =? 0)%Z eqn:B0; [apply Z.eqb_eq in B0|];
    (destruct (button ev =? 2)%Z eqn:B2; [apply Z.eqb_eq in B2|]);
    (destruct (topmost (fun t => isWithinText ctx t (point ev))
                 (texts (home a))) as [t|] eqn:Ft;
       [try (exfalso; destruct H as [H | [H1 H2]];
               [discriminate | congruence])|]);
    cbv zeta; split_matches;
    (split; [reflexivity | first [left; reflexivity | right; reflexivity]]).
Qed.

(* A press that selects a text. *)
Lemma handlePointerDown_selected ctx ev a t :
  topmost (fun t => isWithinText ctx t (point ev)) (texts (home a)) = Some t ->
  (button ev = 0 \/ button ev = 2)%Z ->
  home (handlePointerDown ctx ev a) = handleTextSelect t (home a) /\
  activeTextId (stage (handlePointerDown ctx ev a)) = Some (text_id t).
Proof.
  intros Ft B. unfold handlePointerDown. rewrite Ft.
  destruct B as [B | B]; rewrite B; split; reflexivity.
Qed.

Lemma mergeText_same t :
  text_font t = textFont ->
  mergeText t (textStylePatch (text_text t) (text_color t) (text_size t)
                 textFont) = t.
Proof. intro H. destruct t. simpl in *. now rewrite H. Qed.

Lemma patchTexts_same l t :
  NoDup (map text_id l) -> In t l -> text_font t = textFont ->
  patchTexts (text_id t)
    (textStylePatch (text_text t) (text_color t) (text_size t) textFont) l = l.
Proof.
  intros Hn Hin Hf. unfold patchTexts. rewrite <- (map_id l) at 2.
  apply map_ext_in. intros x Hx.
  destruct (String.eqb (text_id x) (text_id t)) eqn:E; [|reflexivity].
  apply String.eqb_eq in E.
  assert (x = t) as -> by now apply (NoDup_map_In_eq text_id l).
  now apply mergeText_same.
Qed.

(** X5: what a press does to the overlay store.  [handlePointerDown] itself
    never writes to it: the three collections, the undo history and the
    restore flag are the same after it as before.  Once the render that
    follows has run the live-update effect, the page is still unchanged if
    the press selected no text (none under the pointer, or another button
    than the primary or secondary one).  If the press selected a text,
    lenses and stickers are unchanged; if that changed the selection or the
    text controls, the effect calls [onTextUpdate] with the text's own
    content, colour and size: with a non-empty id and no undo restore in
    flight this pushes a snapshot of the collections, and for a text in the
    page font with ids that are unique the collections themselves stay as
    they are. *)
Theorem X5_press_and_store
    (ctx : option (string -> FontString -> Q)) (ev : PointerEvent) (a : App) :
  let a' := handlePointerDown ctx ev a in
  let a'' := rendered a a' in
  let hitText :=
    topmost (fun t => isWithinText ctx t (point ev)) (texts (home a)) in
  (collections (home a') = collections (home a) /\
   historyRef (home a') = historyRef (home a) /\
   isUndoingRef (home a') = isUndoingRef (home a)) /\
  (hitText = None \/ (button ev <> 0 /\ button ev <> 2)%Z ->
   home a'' = home a) /\
  (forall t, hitText = Some t -> (button ev = 0 \/ button ev = 2)%Z ->
     lenses (home a'') = lenses (home a) /\
     stickers (home a'') = stickers (home a) /\
     (sameTextDeps a a' = true -> home a'' = handleTextSelect t (home a)) /\
     (sameTextDeps a a' = false -> text_id t <> "" ->
      isUndoingRef (home a) = false ->
      historyRef (home a'') =
        (sliceLast 49 (historyRef (home a)) ++ [collections (home a)])%list /\
      texts (home a'') =
        patchTexts (text_id t)
          (textStylePatch (text_text t) (text_color t) (text_size t) textFont)
          (texts (home a)) /\
      (text_font t = textFont -> NoDup (map text_id (texts (home a))) ->
       collections (home a'') = collections (home a)))).
Proof.
  intros a' a'' hitText. split; [|split].
  - unfold a'.
    destruct (handlePointerDown_home ctx ev a) as [E | [t [_ E]]]; rewrite E;
      repeat split.
  - intro H. destruct (handlePointerDown_unselected ctx ev a H) as [Eh Ea].
    unfold a'', rendered. fold a' in Eh, Ea.
    destruct (sameTextDeps a a') eqn:D; [exact Eh|].
    destruct Ea as [Ea | Ea].
    + rewrite (sameTextDeps_home a a' Eh Ea) in D. discriminate.
    + unfold liveTextUpdate. rewrite Ea. exact Eh.
  - intros t Ft B.
    destruct (handlePointerDown_selected ctx ev a t Ft B) as [Eh Ea].
    fold a' in Eh, Ea. unfold a'', rendered.
    destruct (sameTextDeps a a') eqn:D.
    + rewrite Eh. split; [reflexivity|]. split; [reflexivity|].
      split; [reflexivity | discriminate].
    + unfold liveTextUpdate. rewrite Ea.
      assert (Hl : forall id, id <> "" -> isEmpty id = false)
        by (intros [|c s] Hne; [contradiction | reflexivity]).
      destruct (isEmpty (text_id t)) eqn:Ei.
      * rewrite Eh. split; [reflexivity|]. split; [reflexivity|].
        split; [discriminate|]. intros _ Hne. rewrite (Hl _ Hne) in Ei.
        discriminate.
      * cbn [withHome home]. rewrite Eh.
        rewrite onTextUpdate_lenses, onTextUpdate_stickers.
        split; [reflexivity|]. split; [reflexivity|].
        split; [discriminate|]. intros _ _ Hu.
        assert (Hh : historyRef
                       (onTextUpdate (text_id t)
                          (textStylePatch
                             (textValue (handleTextSelect t (home a)))
                             (textColor (handleTextSelect t (home a)))
                             (textSize (handleTextSelect t (home a))) textFont)
                          (handleTextSelect t (home a))) =
                     (sliceLast 49 (historyRef (home a)) ++
                      [collections (home a)])%list).
        { exact (proj1 (mutate_history (UpdateText _ _)
                          (handleTextSelect t (home a)) Hu eq_refl)). }
        split; [exact Hh|]. split; [reflexivity|].
        intros Hf Hn. unfold collections.
        rewrite onTextUpdate_lenses, onTextUpdate_stickers, onTextUpdate_texts.
        cbn [handleTextSelect setTextControls lenses stickers texts textValue
               textColor textSize].
        rewrite (patchTexts_same _ t Hn (topmost_In _ _ _ Ft) Hf).
        reflexivity.
Qed.

(** A witness of X5: a press on the text of [Scene.textDeselected]. *)
Lemma X5_press_and_store_witness :
  historyRef
    (home (rendered Scene.textDeselected
             (handlePointerDown None (Scene.down 0 95 505)
                Scene.textDeselected))) =
  (sliceLast 49 (historyRef (home Scene.textDeselected)) ++
   [collections (home Scene.textDeselected)])%list.
Proof.
  assert (Ft : topmost (fun t => isWithinText None t
                                   (point (Scene.down 0 95 505)))
                 (texts (home Scene.textDeselected)) = Some Scene.theText)
    by (vm_compute; reflexivity).
  assert (D : sameTextDeps Scene.textDeselected
                (handlePointerDown None (Scene.down 0 95 505)
                   Scene.textDeselected) = false)
    by (vm_compute; reflexivity).
  assert (Hu : isUndoingRef (home Scene.textDeselected) = false)
    by (vm_compute; reflexivity).
  assert (Hne : text_id Scene.theText <> "") by discriminate.
  exact (proj1 (proj2 (proj2 (proj2
           (proj2 (proj2 (X5_press_and_store None (Scene.down 0 95 505)
                            Scene.textDeselected))
              Scene.theText Ft (or_introl eq_refl)))) D Hne Hu)).
Defined.

Lemma handlePointerUp_release ctx uuid now a :
  gestureActive (stage a) = true ->
  home (handlePointerUp ctx uuid now a) = home a /\
  size (stage (handlePointerUp ctx uuid now a)) = size (stage a).
Proof.
  unfold gestureActive, handlePointerUp. intro H.
  destruct (isSome (textResizeState (stage a))); [split; reflexivity|].
  destruct (isSome (stickerResizeState (stage a))); [split; reflexivity|].
  destruct (truthy (activeStickerId (stage a))); [split; reflexivity|].
  destruct (isSome (resizeState (stage a))); [split; reflexivity|].
  destruct (truthy (activeLensId (stage a))); [split; reflexivity|].
  discriminate.
Qed.

(** X6: releasing the pointer while a drag or a resize is active only ends
    a gesture: the page (collections, history, configuration) is left as it
    is, and no entity is created. *)
Theorem X6_release_keeps_page
    (ctx : option (string -> FontString -> Q)) (uuid : string) (now : Z)
    (a : App) :
  gestureActive (stage a) = true ->
  home (handlePointerUp ctx uuid now a) = home a.
Proof.
  intro H. apply (handlePointerUp_release ctx uuid now a H).
Qed.

(** A witness of X6: releasing the resize of [Scene.lensPressed]. *)
Lemma X6_release_keeps_page_witness :
  home (handlePointerUp None "u" 0 Scene.lensPressed) = home Scene.lensPressed.
Proof.
  apply X6_release_keeps_page. vm_compute. reflexivity.
Defined.

(** X7: without an image to show (none loaded, or a plain background
    chosen) and outside text mode, a whole gesture on empty canvas (press,
    move, release, nothing under the press point, no gesture pending) is a
    no-op on the page: nothing is added, no snapshot is recorded, and no
    drag is left open. *)
Theorem X7_gesture_without_image
    (ctx : option (string -> FontString -> Q)) (evDown evMove : PointerEvent)
    (uuid : string) (now : Z) (a : App) :
  effectiveImage (home a) = None ->
  mode (home a) <> MText ->
  nothingAt ctx a (point evDown) = true ->
  gestureActive (stage a) = false ->
  dragStart (stage a) = None ->
  let a' :=
    handlePointerUp ctx uuid now
      (handlePointerMove ctx evMove (handlePointerDown ctx evDown a)) in
  home a' = home a /\ dragStart (stage a') = None /\
  activeTextId (stage a') = None.
Proof.
  intros Hi Hm Hn Hg Hd.
  unfold nothingAt in Hn.
  repeat (apply andb_true_iff in Hn; destruct Hn as [Hn ?]).
  repeat match goal with
  | H : negb (isSome ?x) = true |- _ =>
      destruct x eqn:?; [discriminate H | clear H]
  end.
  assert (E : handlePointerDown ctx evDown a = withStage clearTextSelection a).
  { unfold handlePointerDown.
    repeat match goal with H : topmost _ _ = None |- _ => rewrite H; clear H end.
    rewrite Hi. destruct (mode (home a)); try reflexivity. congruence. }
  intro a'. unfold a'. rewrite E. clear E a'.
  unfold gestureActive in Hg.
  repeat (apply orb_false_iff in Hg; destruct Hg as [Hg ?]).
  assert (E : handlePointerMove ctx evMove (withStage clearTextSelection a) =
              withStage clearTextSelection a).
  { unfold handlePointerMove, moveBranch.
    cbn [withStage stage home clearTextSelection setTextDragOffset
           setEditingText setActiveTextId textResizeState activeTextId
           textDragOffsetRef stickerResizeState activeStickerId
           stickerDragOffsetRef resizeState activeLensId dragOffsetRef
           dragStart truthy].
    destruct (textResizeState (stage a)); [discriminate|].
    destruct (stickerResizeState (stage a)); [discriminate|].
    destruct (resizeState (stage a)); [discriminate|].
    repeat match goal with H : truthy _ = false |- _ => rewrite H; clear H end.
    rewrite Hd. reflexivity. }
  rewrite E. clear E.
  unfold handlePointerUp.
  cbn [withStage stage home clearTextSelection setTextDragOffset
         setEditingText setActiveTextId textResizeState activeTextId
         textDragOffsetRef stickerResizeState activeStickerId
         stickerDragOffsetRef resizeState activeLensId dragOffsetRef
         dragStart].
  repeat match goal with H : _ = false |- _ => rewrite H; clear H end.
  rewrite Hd. repeat split. exact Hd.
Qed.

(** A witness of X7: a click at (100,100) on the initial page, where no
    image is loaded. *)
Lemma X7_gesture_without_image_witness :
  home (Scene.gesture 0 100 100 100 100 "x" Scene.noImage) = home Scene.noImage.
Proof.
  apply (X7_gesture_without_image None (Scene.down 0 100 100)
           (Scene.down 0 100 100) "x" 0%Z Scene.noImage);
    try reflexivity.
  discriminate.
Defined.

Lemma within_clamp_corner sz x y w h :
  w <= sizeWidth sz -> h <= sizeHeight sz ->
  within sz (clamp x 0 (sizeWidth sz - w)) (clamp y 0 (sizeHeight sz - h)) w h.
Proof.
  intros Hw Hh. unfold within.
  pose proof (clamp_le_max x 0 (sizeWidth sz - w)).
  pose proof (clamp_le_max y 0 (sizeHeight sz - h)).
  pose proof (clamp_ge_min x 0 (sizeWidth sz - w)).
  pose proof (clamp_ge_min y 0 (sizeHeight sz - h)).
  repeat split; lra.
Qed.

Lemma regionLens_within ds e w0 h0 isClick uuid now a :
  lensWithin (size (stage a)) (regionLens ds e w0 h0 isClick uuid now a).
Proof.
  unfold lensWithin, regionLens. cbn [lens_x lens_y lens_width lens_height].
  apply within_clamp_corner; apply Q.le_min_r.
Qed.

Lemma magnifyLens_within ds e isClick uuid now a :
  lensWithin (size (stage a)) (magnifyLens ds e isClick uuid now a).
Proof.
  unfold lensWithin, magnifyLens. cbn [lens_x lens_y lens_width lens_height].
  apply within_clamp_corner.
  - apply Qle_trans with (Qmin (lensSize (home a)) (sizeWidth (size (stage a))));
      [apply Q.le_min_l | apply Q.le_min_r].
  - apply Q.le_min_r.
Qed.

Lemma upSticker_within img ds e uuid a :
  exists s,
    stickers (home (upSticker img ds e uuid a)) =
      (stickers (home a) ++ [s])%list /\
    stickerWithin (size (stage a)) s /\
    lenses (home (upSticker img ds e uuid a)) = lenses (home a) /\
    texts (home (upSticker img ds e uuid a)) = texts (home a) /\
    size (stage (upSticker img ds e uuid a)) = size (stage a).
Proof.
  unfold upSticker. cbv zeta. eexists. split.
  { simpl. rewrite pushHistory_stickers. reflexivity. }
  split.
  { unfold stickerWithin.
    cbn [sticker_x sticker_y sticker_width sticker_height].
    apply within_clamp_corner; apply clamp_le_max. }
  simpl. rewrite pushHistory_lenses, pushHistory_texts. repeat split.
Qed.

Lemma Forall_snoc {A} (P : A -> Prop) l x :
  Forall P l -> P x -> Forall P (l ++ [x]).
Proof. intros. apply Forall_app. split; auto. Qed.

(** X8: outside text mode, releasing the pointer keeps every overlay entity
    within the canvas: if every lens, sticker and text lies within the
    canvas before [handlePointerUp], so does every entity after it, and that
    includes the lens or the sticker the release may create, whatever the
    drag rectangle, the lens size and the sticker bitmap. *)
Theorem X8_release_keeps_entities_within
    (ctx : option (string -> FontString -> Q)) (uuid : string) (now : Z)
    (a : App) :
  mode (home a) <> MText ->
  allWithin ctx a ->
  allWithin ctx (handlePointerUp ctx uuid now a).
Proof.
  intros Hm [Hl [Hs Ht]].
  destruct (gestureActive (stage a)) eqn:Hg.
  - destruct (handlePointerUp_release ctx uuid now a Hg) as [E1 E2].
    unfold allWithin. rewrite E1, E2. now repeat split.
  - destruct (dragStart (stage a)) as [ds|] eqn:Hd.
    + rewrite (handlePointerUp_create ctx uuid now a ds Hg Hd).
      unfold upCreate.
      set (a1 := withStage (setTextDragOffset None) a).
      change (mode (home a1)) with (mode (home a)).
      change (stickerImage (home a1)) with (stickerImage (home a)).
      destruct (mode (home a)) eqn:Em; [| | |congruence].
      * unfold allWithin. simpl. rewrite pushHistory_lenses,
          pushHistory_stickers, pushHistory_texts.
        repeat split; auto. apply Forall_snoc; [exact Hl|].
        apply (regionLens_within _ _ _ _ _ _ _ a1).
      * unfold allWithin. simpl. rewrite pushHistory_lenses,
          pushHistory_stickers, pushHistory_texts.
        repeat split; auto. apply Forall_snoc; [exact Hl|].
        apply (magnifyLens_within _ _ _ _ _ a1).
      * destruct (stickerImage (home a)) as [img|].
        -- destruct (upSticker_within img ds
                       (orElse (dragCurrent (stage a1)) ds) uuid a1)
             as [s [E1 [W1 [E2 [E3 E4]]]]].
           unfold allWithin. rewrite E1, E2, E3, E4.
           repeat split; auto. apply Forall_snoc; [exact Hs | exact W1].
        -- unfold allWithin. simpl. rewrite pushHistory_lenses,
             pushHistory_stickers, pushHistory_texts.
           repeat split; auto. apply Forall_snoc; [exact Hl|].
           apply (regionLens_within _ _ _ _ _ _ _ a1).
    + unfold handlePointerUp, gestureActive in *.
      repeat (apply orb_false_iff in Hg; destruct Hg as [Hg ?]).
      repeat match goal with H : _ = false |- _ => rewrite H; clear H end.
      rewrite Hd. now repeat split.
Qed.

(** A witness of X8: the release that creates the sticker of
    [Scene.oneSticker]. *)
Lemma X8_release_keeps_entities_within_witness :
  allWithin None (handlePointerUp None "s1" 0 Scene.badgeDragged).
Proof.
  apply X8_release_keeps_entities_within.
  - discriminate.
  - apply allWithinb_sound. vm_compute. reflexivity.
Defined.

Lemma in_patchTexts id p l x' :
  tp_id p = None ->
  In x' (patchTexts id p l) -> text_id x' = id ->
  exists x, In x l /\ text_id x = id /\ x' = mergeText x p.
Proof.
  intros Hp Hin Hid. unfold patchTexts in Hin.
  apply in_map_iff in Hin. destruct Hin as [x [Hx Hin]].
  destruct (String.eqb (text_id x) id) eqn:E.
  - apply String.eqb_eq in E. now exists x.
  - apply String.eqb_neq in E. subst x'. contradiction.
Qed.

(** X9: a text resize only sets the font size, and always to a value
    between 10 and 200: when the resized text is in the store, a pointer
    move patches the texts of its id with a size in [10, 200] and nothing
    else, wherever the pointer is; when it is not, the move changes
    nothing. *)
Theorem X9_text_resize_size_range
    (ctx : option (string -> FontString -> Q)) (ev : PointerEvent) (a : App)
    (r : ResizeState) :
  moveBranch a = BTextResize r ->
  let a' := handlePointerMove ctx ev a in
  (textById (rs_id r) (texts (home a)) = None -> a' = a) /\
  (forall t, textById (rs_id r) (texts (home a)) = Some t ->
     exists s, 10 <= s /\ s <= 200 /\
       texts (home a') = patchTexts (rs_id r) (textSizePatch s) (texts (home a)) /\
       lenses (home a') = lenses (home a) /\
       stickers (home a') = stickers (home a) /\
       forall t', In t' (texts (home a')) -> text_id t' = rs_id r ->
         10 <= text_size t' /\ text_size t' <= 200).
Proof.
  intros Hb a'. unfold a', handlePointerMove. rewrite Hb. unfold moveTextResize.
  split.
  - intro Hn. now rewrite Hn.
  - intros t Ht. rewrite Ht. cbv zeta.
    match goal with
    | |- context [textSizePatch ?s] => set (newSize := s)
    end.
    assert (Hr : 10 <= newSize /\ newSize <= 200).
    { unfold newSize. clear. split; minmax_cases; lra. }
    exists newSize. destruct Hr as [H1 H2].
    cbn [withHome home].
    rewrite onTextUpdate_texts, onTextUpdate_lenses, onTextUpdate_stickers.
    repeat split; auto.
    + apply in_patchTexts in H; [|reflexivity|exact H0].
      destruct H as [x [_ [_ ->]]]. exact H1.
    + apply in_patchTexts in H; [|reflexivity|exact H0].
      destruct H as [x [_ [_ ->]]]. exact H2.
Qed.

(** A witness of X9: the text of [Scene.oneText], pressed with the secondary
    button and moved to (1000,1000). *)
Lemma X9_text_resize_size_range_witness :
  exists s, 10 <= s /\ s <= 200 /\
    texts (home (handlePointerMove None (Scene.down 2 1000 1000)
                   Scene.textPressed)) =
    patchTexts "t1" (textSizePatch s) (texts (home Scene.textPressed)).
Proof.
  assert (Hb : moveBranch Scene.textPressed =
               BTextResize Scene.textPressedResize)
    by (vm_compute; reflexivity).
  assert (Ht : textById (rs_id Scene.textPressedResize)
                 (texts (home Scene.textPressed)) = Some Scene.theText)
    by (vm_compute; reflexivity).
  destruct (proj2 (X9_text_resize_size_range None (Scene.down 2 1000 1000)
                     Scene.textPressed Scene.textPressedResize Hb)
              Scene.theText Ht)
    as [s [H1 [H2 [H3 _]]]].
  exists s. split; [exact H1|]. split; [exact H2 | exact H3].
Defined.

(** X10: a resize respects the minimum extent when there is room for it: if
    at least 60 units are left from the start corner of a lens resize to
    both canvas edges, every lens of the resized id ends between 60 and the
    room left on each axis; with at least 40 units of room the same holds
    for a sticker resize with the minimum of 40. *)
Theorem X10_resize_extent_range
    (ctx : option (string -> FontString -> Q)) (ev : PointerEvent) (a : App) :
  let a' := handlePointerMove ctx ev a in
  (forall r, moveBranch a = BLensResize r ->
     let roomX := sizeWidth (size (stage a)) - rx (rs_start r) in
     let roomY := sizeHeight (size (stage a)) - ry (rs_start r) in
     60 <= roomX -> 60 <= roomY ->
     forall l, In l (lenses (home a')) -> lens_id l = rs_id r ->
       60 <= lens_width l /\ lens_width l <= roomX /\
       60 <= lens_height l /\ lens_height l <= roomY) /\
  (forall r img, moveBranch a = BStickerResize r img ->
     let roomX := sizeWidth (size (stage a)) - rx (rs_start r) in
     let roomY := sizeHeight (size (stage a)) - ry (rs_start r) in
     40 <= roomX -> 40 <= roomY ->
     forall s, In s (stickers (home a')) -> sticker_id s = rs_id r ->
       40 <= sticker_width s /\ sticker_width s <= roomX /\
       40 <= sticker_height s /\ sticker_height s <= roomY).
Proof.
  intro a'. split.
  - intros r Hb roomX roomY Hx Hy l Hin Hid.
    unfold a', handlePointerMove in Hin. rewrite Hb in Hin.
    unfold moveLensResize in Hin. fold roomX roomY in Hin.
    destruct (isCircleLens (rs_id r) (lenses (home a)));
      cbn [withHome home] in Hin;
      rewrite onLensUpdate_collections_lenses in Hin;
      (apply in_patchLenses in Hin; [|reflexivity|exact Hid]);
      destruct Hin as [x [_ [_ ->]]]; simpl;
      clearbody roomX roomY; unfold clamp;
      repeat split; minmax_cases; lra.
  - intros r img Hb roomX roomY Hx Hy s Hin Hid.
    unfold a', handlePointerMove in Hin. rewrite Hb in Hin.
    destruct (moveStickerResize_stickers r img (point ev) a) as [w [h [_ E]]].
    rewrite E in Hin. fold roomX roomY in Hin.
    apply in_patchStickers in Hin; [|reflexivity|exact Hid].
    destruct Hin as [x [_ [_ ->]]]. simpl.
    clearbody roomX roomY. unfold clamp.
    repeat split; minmax_cases; lra.
Qed.

(** A witness of X10: the lens of [Scene.oneLens] under a resize towards
    (0,0). *)
Lemma X10_resize_extent_range_witness :
  In Scene.theLensShrunk
     (lenses (home (handlePointerMove None (Scene.down 2 0 0)
                      Scene.lensPressed))) /\
  60 <= lens_width Scene.theLensShrunk.
Proof.
  assert (Hl : lenses (home (handlePointerMove None (Scene.down 2 0 0)
                               Scene.lensPressed)) = [Scene.theLensShrunk])
    by (vm_compute; reflexivity).
  assert (Hin : In Scene.theLensShrunk
                  (lenses (home (handlePointerMove None (Scene.down 2 0 0)
                                   Scene.lensPressed))))
    by (rewrite Hl; left; reflexivity).
  assert (Hid : lens_id Scene.theLensShrunk = "l1") by reflexivity.
  assert (Hb : moveBranch Scene.lensPressed =
               BLensResize Scene.lensPressedResize)
    by (vm_compute; reflexivity).
  assert (Hx : 60 <= sizeWidth (size (stage Scene.lensPressed)) -
                     rx (rs_start Scene.lensPressedResize))
    by (apply Qle_bool_imp_le; vm_compute; reflexivity).
  assert (Hy : 60 <= sizeHeight (size (stage Scene.lensPressed)) -
                     ry (rs_start Scene.lensPressedResize))
    by (apply Qle_bool_imp_le; vm_compute; reflexivity).
  split; [exact Hin|].
  exact (proj1 (proj1 (X10_resize_extent_range None (Scene.down 2 0 0)
                         Scene.lensPressed)
                  Scene.lensPressedResize Hb Hx Hy Scene.theLensShrunk
                  Hin Hid)).
Defined.

(** * Strings *)

Lemma append_nil_r s : (s ++ "")%string = s.
Proof. induction s; simpl; congruence. Qed.

Lemma append_assoc s1 s2 s3 :
  ((s1 ++ s2) ++ s3)%string = (s1 ++ (s2 ++ s3))%string.
Proof. induction s1; simpl; congruence. Qed.

Lemma revString_acc s acc :
  revString s acc = (revString s "" ++ acc)%string.
Proof.
  revert acc. induction s as [|c s IH]; intro acc; simpl; [reflexivity|].
  rewrite IH, (IH (String c "")), append_assoc. reflexivity.
Qed.

Lemma revString_append s1 s2 :
  revString (s1 ++ s2) "" = (revString s2 "" ++ revString s1 "")%string.
Proof.
  induction s1 as [|c s1 IH]; simpl.
  - now rewrite append_nil_r.
  - rewrite revString_acc, IH, (revString_acc s1 (String c "")), append_assoc.
    reflexivity.
Qed.

Lemma revString_involutive s : revString (revString s "") "" = s.
Proof.
  induction s as [|c s IH]; simpl; [reflexivity|].
  rewrite (revString_acc s (String c "")), revString_append, IH. reflexivity.
Qed.

Lemma trimStart_head s : headNonSpace (trimStart s).
Proof.
  induction s as [|c s IH]; simpl; [exact I|].
  destruct (isSpace c) eqn:E; [exact IH | exact E].
Qed.

Lemma trimStart_fixed s : headNonSpace s -> trimStart s = s.
Proof. destruct s as [|c s]; simpl; [reflexivity|]. intro H. now rewrite H. Qed.

Lemma trimStart_suffix s : exists p, s = (p ++ trimStart s)%string.
Proof.
  induction s as [|c s [p IH]]; simpl.
  - now exists "".
  - destruct (isSpace c).
    + exists (String c p). simpl. now rewrite <- IH.
    + now exists "".
Qed.

Lemma trim_ends s :
  headNonSpace (trim s) /\ headNonSpace (revString (trim s) "").
Proof.
  unfold trim. set (t := trimStart s). set (u := trimStart (revString t "")).
  rewrite revString_involutive. split; [|apply trimStart_head].
  destruct (trimStart_suffix (revString t "")) as [p Hp]. fold u in Hp.
  assert (Ht : t = (revString u "" ++ revString p "")%string).
  { rewrite <- (revString_involutive t), Hp, revString_append. reflexivity. }
  pose proof (trimStart_head s) as Hh. fold t in Hh.
  destruct (revString u "") as [|c r]; [exact I|].
  rewrite Ht in Hh. exact Hh.
Qed.

Lemma trim_fixed x :
  headNonSpace x -> headNonSpace (revString x "") -> trim x = x.
Proof.
  intros H1 H2. unfold trim.
  rewrite (trimStart_fixed x H1), (trimStart_fixed _ H2).
  apply revString_involutive.
Qed.

Lemma trim_trim s : trim (trim s) = trim s.
Proof. destruct (trim_ends s) as [H1 H2]. now apply trim_fixed. Qed.

(** X11: [trim] is idempotent, and what it returns neither starts nor ends
    with white space; a string that neither starts nor ends with white
    space is returned as it is. *)
Theorem X11_trim_idempotent (s : string) :
  trim (trim s) = trim s /\
  headNonSpace (trim s) /\ headNonSpace (revString (trim s) "") /\
  (headNonSpace s -> headNonSpace (revString s "") -> trim s = s).
Proof.
  destruct (trim_ends s) as [H1 H2].
  repeat split; auto using trim_trim, trim_fixed.
Qed.

(** A witness of X11. *)
Lemma X11_trim_idempotent_witness : trim "a b" = "a b".
Proof.
  apply (proj2 (proj2 (proj2 (X11_trim_idempotent "a b"))));
    reflexivity.
Defined.

Lemma splitLinesFrom_length s : forall revLine,
  List.length (splitLinesFrom s revLine) = S (countLF s).
Proof.
  induction s as [|c s IH]; intro revLine; simpl; [reflexivity|].
  destruct (isLF c); simpl; now rewrite IH.
Qed.

Lemma isLF_eq c : isLF c = true -> c = "010"%char.
Proof. unfold isLF. apply Ascii.eqb_eq. Qed.

Lemma hasCR_revString s acc :
  hasCR (revString s acc) = hasCR s || hasCR acc.
Proof.
  revert acc. induction s as [|c s IH]; intro acc; simpl; [reflexivity|].
  rewrite IH. simpl. rewrite !orb_assoc. f_equal. apply orb_comm.
Qed.

Lemma dropCR_noCR revLine : hasCR revLine = false -> dropCR revLine = revLine.
Proof.
  destruct revLine as [|c r]; simpl; [reflexivity|].
  intro H. apply orb_false_iff in H. destruct H as [H _]. now rewrite H.
Qed.

Lemma joinLines_cons l r :
  r <> [] -> joinLines (l :: r) = (l ++ String "010"%char (joinLines r))%string.
Proof. destruct r; [congruence | reflexivity]. Qed.

Lemma splitLinesFrom_nonempty s revLine : splitLinesFrom s revLine <> [].
Proof.
  intro H. pose proof (splitLinesFrom_length s revLine) as L.
  rewrite H in L. discriminate.
Qed.

Lemma splitLinesFrom_join s : forall revLine,
  hasCR s = false -> hasCR revLine = false ->
  joinLines (splitLinesFrom s revLine) = (revString revLine "" ++ s)%string.
Proof.
  induction s as [|c s IH]; intros revLine Hs Hr; simpl.
  - now rewrite append_nil_r.
  - simpl in Hs. apply orb_false_iff in Hs. destruct Hs as [Hc Hs].
    destruct (isLF c) eqn:E.
    + rewrite joinLines_cons by apply splitLinesFrom_nonempty.
      rewrite IH by auto. simpl. rewrite dropCR_noCR by exact Hr.
      now rewrite (isLF_eq c E).
    + rewrite IH; [|exact Hs|simpl; now rewrite Hc, Hr].
      simpl. rewrite revString_acc, append_assoc. reflexivity.
Qed.

(** X12: splitting a text into lines gives one line more than the text has
    line feeds, so never an empty list; and for a text without carriage
    returns, joining the lines with line feeds gives the text back. *)
Theorem X12_splitLines (s : string) :
  List.length (splitLines s) = S (countLF s) /\
  splitLines s <> [] /\
  (hasCR s = false -> joinLines (splitLines s) = s).
Proof.
  unfold splitLines. repeat split.
  - apply splitLinesFrom_length.
  - apply splitLinesFrom_nonempty.
  - intro H. now rewrite splitLinesFrom_join.
Qed.

(** A witness of X12. *)
Lemma X12_splitLines_witness :
  joinLines (splitLines (String "a" (String "010" (String "b" "")))) =
  String "a" (String "010" (String "b" "")).
Proof.
  apply (proj2 (proj2 (X12_splitLines _))). reflexivity.
Defined.

(** * Text bounds and text creation *)

Lemma fold_left_Qmax_ge rest : forall first, first <= fold_left Qmax rest first.
Proof.
  induction rest as [|x rest IH]; intro first; simpl; [lra|].
  apply Qle_trans with (Qmax first x); [apply Q.le_max_l | apply IH].
Qed.

Lemma fold_left_Qmax_in rest : forall first x,
  In x rest -> x <= fold_left Qmax rest first.
Proof.
  induction rest as [|y rest IH]; intros first x Hin; simpl; [contradiction|].
  destruct Hin as [-> | Hin].
  - apply Qle_trans with (Qmax first x);
      [apply Q.le_max_r | apply fold_left_Qmax_ge].
  - now apply IH.
Qed.

Lemma ofNat_S n : ofNat (S n) == 1 + ofNat n.
Proof.
  unfold ofNat. rewrite Nat2Z.inj_succ. unfold Z.succ.
  rewrite inject_Z_plus. ring.
Qed.

Lemma ofNat_nonneg n : 0 <= ofNat n.
Proof. unfold ofNat, Qle. simpl. lia. Qed.

(** X13: the estimated box of a text is at least 30 wide and as wide as its
    widest measured line, whatever the measuring context answers; for a
    non-negative size its height is the number of lines (one more than the
    text has line feeds) times 1.2 times the size. *)
Theorem X13_text_bounds
    (ctx : option (string -> FontString -> Q)) (s : string) (sz : Q)
    (font : string) :
  let b := estimateTextBounds ctx s sz font in
  30 <= tb_width b /\
  (forall line, In line (tb_lines b) ->
     measureText ctx (if isEmpty line then " " else line) (fontString sz font)
       <= tb_width b) /\
  List.length (tb_lines b) = S (countLF s) /\
  (0 <= sz -> tb_height b == ofNat (S (countLF s)) * (sz * (6 # 5))).
Proof.
  intro b. unfold b, estimateTextBounds. cbn [tb_width tb_height tb_lines].
  assert (Hn : List.length (splitLines (if isEmpty s then "Text" else s)) =
               S (countLF s)).
  { unfold splitLines. rewrite splitLinesFrom_length. now destruct s. }
  repeat split.
  - apply fold_left_Qmax_ge.
  - intros line Hin. unfold maxOf. apply fold_left_Qmax_in.
    apply in_map_iff. exists line. split; [reflexivity | exact Hin].
  - exact Hn.
  - intro Hs. rewrite Hn.
    pose proof (ofNat_S (countLF s)) as E.
    pose proof (ofNat_nonneg (countLF s)) as P.
    destruct (Qmax_cases (sz * (6 # 5)) (ofNat (S (countLF s)) * (sz * (6 # 5))))
      as [[_ ->] | [H ->]]; [reflexivity|].
    rewrite E in *. nra.
Qed.

(** A witness of X13: two lines of size 20 are 48 high. *)
Lemma X13_text_bounds_witness :
  tb_height (estimateTextBounds None (String "a" (String "010" (String "b" "")))
               20 "Terminus") == 48.
Proof.
  rewrite (proj2 (proj2 (proj2 (X13_text_bounds None
             (String "a" (String "010" (String "b" ""))) 20 "Terminus")))).
  - reflexivity.
  - apply Qle_bool_imp_le. reflexivity.
Defined.

(** X14: releasing the pointer in text mode.  With a blank text value
    (empty once trimmed) the release only ends the drag: the page is left as
    it is.  Otherwise exactly one text is appended: its content is the
    trimmed text value, its colour and size are those of the text controls,
    its font is Terminus, and it becomes the selected text, with the text
    controls showing its content; lenses and stickers are untouched. *)
Theorem X14_text_creation
    (ctx : option (string -> FontString -> Q)) (uuid : string) (now : Z)
    (a : App) (ds : Point) :
  gestureActive (stage a) = false ->
  dragStart (stage a) = Some ds ->
  mode (home a) = MText ->
  let a' := handlePointerUp ctx uuid now a in
  dragStart (stage a') = None /\ dragCurrent (stage a') = None /\
  (isEmpty (trim (textValue (home a))) = true -> home a' = home a) /\
  (isEmpty (trim (textValue (home a))) = false ->
     exists t,
       texts (home a') = (texts (home a) ++ [t])%list /\
       text_id t = uuid /\
       text_text t = trim (textValue (home a)) /\
       text_color t = textColor (home a) /\
       text_size t = textSize (home a) /\
       text_font t = "Terminus" /\
       activeTextId (stage a') = Some uuid /\
       textValue (home a') = trim (textValue (home a)) /\
       lenses (home a') = lenses (home a) /\
       stickers (home a') = stickers (home a)).
Proof.
  intros Hg Hd Hm a'. unfold a'.
  rewrite (handlePointerUp_create ctx uuid now a ds Hg Hd).
  unfold upCreate. cbn [withStage home]. rewrite Hm. unfold upText.
  cbn [withStage home stage].
  destruct (isEmpty (trim (textValue (home a)))) eqn:E.
  - repeat split; intros; try discriminate; reflexivity.
  - cbv zeta. cbn [withHome withStage home stage endDrag].
    match goal with |- context [handleTextAdd ?t] => set (newText := t) end.
    assert (Ha : handleTextAdd newText (home a) =
                 setTexts (texts (home a) ++ [newText])
                   (pushHistory (lenses (home a)) (stickers (home a))
                      (texts (home a)) (home a))).
    { unfold handleTextAdd. subst newText. cbn [text_text].
      rewrite trim_trim, E. cbv zeta. now rewrite pushHistory_texts. }
    rewrite Ha. clear Ha.
    repeat split; intros; try discriminate.
    exists newText.
    cbn [withHome withStage home stage endDrag handleTextSelect
           setTextControls setTexts texts lenses stickers textValue
           setDragCurrent setDragStart setTextDragOffset setActiveTextId
           activeTextId].
    rewrite pushHistory_lenses, pushHistory_stickers.
    subst newText. repeat split.
Qed.

(** A witness of X14: a click at (100,500) in text mode with the text value
    " Hi ". *)
Lemma X14_text_creation_witness :
  exists t,
    texts (home (handlePointerUp None "t1" 0 Scene.textClick)) =
      (texts (home Scene.textClick) ++ [t])%list /\
    text_text t = "Hi".
Proof.
  assert (Hg : gestureActive (stage Scene.textClick) = false)
    by (vm_compute; reflexivity).
  assert (Hd : dragStart (stage Scene.textClick) = Some (Scene.pt 100 500))
    by (vm_compute; reflexivity).
  assert (Hm : mode (home Scene.textClick) = MText) by reflexivity.
  assert (He : isEmpty (trim (textValue (home Scene.textClick))) = false)
    by (vm_compute; reflexivity).
  destruct (proj2 (proj2 (proj2 (X14_text_creation None "t1" 0%Z
                                   Scene.textClick (Scene.pt 100 500)
                                   Hg Hd Hm))) He)
    as [t [H1 [_ [H3 _]]]].
  exists t. split; [exact H1|]. rewrite H3. vm_compute. reflexivity.
Defined.

(** * Hit testing *)

Lemma Qleb_le a b : Qleb a b = true <-> a <= b.
Proof. unfold Qleb. apply Qle_bool_iff. Qed.

Lemma Qgeb_le a b : Qgeb a b = true <-> b <= a.
Proof. unfold Qgeb. apply Qle_bool_iff. Qed.

Lemma Qhalf w : w / 2 == w * (1 # 2).
Proof. field. Qed.

Lemma withinRect_iff x y w h p :
  Qgeb (px p) x && Qleb (px p) (x + w) && Qgeb (py p) y && Qleb (py p) (y + h)
    = true <-> inRect x y w h p.
Proof.
  unfold inRect. rewrite !andb_true_iff, !Qleb_le, !Qgeb_le. tauto.
Qed.

(** X15: the hit test of lenses and stickers.  A hit point always lies in
    the bounding rectangle; for the rounded shape the hit test is exactly
    the rectangle test; for the circle shape with positive extents the
    centre is hit and the four corners of the rectangle are not; and a
    circle with a zero extent is never hit. *)
Theorem X15_hit_test (x y w h : Q) :
  (forall shape p, isWithinLens x y w h shape p = true -> inRect x y w h p) /\
  (forall p, isWithinLens x y w h rounded p = true <-> inRect x y w h p) /\
  (0 < w -> 0 < h ->
   isWithinLens x y w h circle {| px := x + w / 2; py := y + h / 2 |} = true /\
   isWithinLens x y w h circle {| px := x; py := y |} = false /\
   isWithinLens x y w h circle {| px := x + w; py := y |} = false /\
   isWithinLens x y w h circle {| px := x; py := y + h |} = false /\
   isWithinLens x y w h circle {| px := x + w; py := y + h |} = false) /\
  (w == 0 \/ h == 0 -> forall p, isWithinLens x y w h circle p = false).
Proof.
  assert (R : forall shape p,
            isWithinLens x y w h shape p = true -> inRect x y w h p).
  { intros shape p H. unfold isWithinLens in H.
    destruct (Qgeb (px p) x && Qleb (px p) (x + w) && Qgeb (py p) y &&
              Qleb (py p) (y + h)) eqn:E; [|discriminate].
    now apply withinRect_iff. }
  split; [exact R|]. split; [|split].
  - intro p. split; [apply R|]. intro H. unfold isWithinLens.
    apply withinRect_iff in H. rewrite H. reflexivity.
  - intros Hw Hh.
    assert (Z1 : Qeq_bool (w / 2) 0 = false).
    { destruct (Qeq_bool (w / 2) 0) eqn:E; [|reflexivity].
      apply Qeq_bool_iff in E. rewrite Qhalf in E. lra. }
    assert (Z2 : Qeq_bool (h / 2) 0 = false).
    { destruct (Qeq_bool (h / 2) 0) eqn:E; [|reflexivity].
      apply Qeq_bool_iff in E. rewrite Qhalf in E. lra. }
    assert (C : forall cx cy, (cx == x \/ cx == x + w) -> (cy == y \/ cy == y + h) ->
              isWithinLens x y w h circle {| px := cx; py := cy |} = false).
    { intros cx cy Hx Hy. unfold isWithinLens. cbn [px py].
      destruct (Qgeb cx x && Qleb cx (x + w) && Qgeb cy y && Qleb cy (y + h));
        [|reflexivity].
      cbn [negb]. rewrite Z1, Z2. cbn [orb].
      destruct (Qleb _ 1) eqn:E; [|reflexivity]. exfalso.
      apply Qleb_le in E.
      assert (E1 : (cx - (x + w / 2)) * (cx - (x + w / 2)) / (w / 2 * (w / 2)) == 1).
      { destruct Hx as [-> | ->]; field; intro Hz; rewrite Hz in Hw; lra. }
      assert (E2 : (cy - (y + h / 2)) * (cy - (y + h / 2)) / (h / 2 * (h / 2)) == 1).
      { destruct Hy as [-> | ->]; field; intro Hz; rewrite Hz in Hh; lra. }
      rewrite E1, E2 in E. lra. }
    split; [|repeat split; apply C; (left; reflexivity) || (right; reflexivity)].
    unfold isWithinLens. cbn [px py].
    assert (Hr : Qgeb (x + w / 2) x && Qleb (x + w / 2) (x + w) &&
                 Qgeb (y + h / 2) y && Qleb (y + h / 2) (y + h) = true).
    { apply (withinRect_iff x y w h {| px := x + w / 2; py := y + h / 2 |}).
      unfold inRect. cbn [px py]. rewrite !Qhalf. repeat split; lra. }
    rewrite Hr. cbn [negb]. rewrite Z1, Z2. cbn [orb].
    apply Qleb_le.
    assert (E1 : (x + w / 2 - (x + w / 2)) * (x + w / 2 - (x + w / 2)) /
                 (w / 2 * (w / 2)) == 0)
      by (field; intro Hz; rewrite Hz in Hw; lra).
    assert (E2 : (y + h / 2 - (y + h / 2)) * (y + h / 2 - (y + h / 2)) /
                 (h / 2 * (h / 2)) == 0)
      by (field; intro Hz; rewrite Hz in Hh; lra).
    rewrite E1, E2. lra.
  - intros Hz p. unfold isWithinLens.
    destruct (Qgeb (px p) x && Qleb (px p) (x + w) && Qgeb (py p) y &&
              Qleb (py p) (y + h)); [|reflexivity].
    cbn [negb].
    assert (Z : Qeq_bool (w / 2) 0 || Qeq_bool (h / 2) 0 = true).
    { apply orb_true_iff. destruct Hz as [Hz | Hz]; [left | right];
        apply Qeq_bool_iff; rewrite Hz; reflexivity. }
    now rewrite Z.
Qed.

(** A witness of X15: a 100 x 60 circle at the origin. *)
Lemma X15_hit_test_witness :
  isWithinLens 0 0 100 60 circle {| px := 0 + 100 / 2; py := 0 + 60 / 2 |} = true.
Proof.
  apply (proj1 (proj2 (proj2 (X15_hit_test 0 0 100 60))));
    reflexivity.
Defined.

Lemma find_rev_spec {A} (hit : A -> bool) (l : list A) :
  match find hit (rev l) with
  | Some x => exists l1 l2, l = (l1 ++ x :: l2)%list /\ hit x = true /\
                            forallb (fun y => negb (hit y)) l2 = true
  | None => forallb (fun y => negb (hit y)) l = true
  end.
Proof.
  induction l as [|a l IH] using rev_ind; [reflexivity|].
  rewrite rev_unit. simpl. destruct (hit a) eqn:E.
  - exists l, []. auto.
  - destruct (find hit (rev l)) as [x|].
    + destruct IH as [l1 [l2 [-> [Hx Hl]]]].
      exists l1, (l2 ++ [a])%list. rewrite <- app_assoc. simpl.
      repeat split; auto. rewrite forallb_app, Hl. simpl. now rewrite E.
    + rewrite forallb_app, IH. simpl. now rewrite E.
Qed.

(** X16: hit priority on a press.  Within a collection the entity added
    last among those under the pointer is the one found; a text under the
    pointer takes a primary-button press before any sticker or lens (its id
    becomes the active text, the offset from its corner is captured, and no
    sticker or lens gesture starts); with no text under the pointer a
    sticker takes it before any lens; and a lens takes it only when neither
    a text nor a sticker is under the pointer. *)
Theorem X16_press_priority
    (ctx : option (string -> FontString -> Q)) (ev : PointerEvent) (a : App) :
  button ev = 0%Z ->
  let p := point ev in
  let hitText := fun t => isWithinText ctx t p in
  let hitSticker := fun s =>
    isWithinLens (sticker_x s) (sticker_y s) (sticker_width s)
      (sticker_height s) (sticker_shape s) p in
  let hitLens := fun l =>
    isWithinLens (lens_x l) (lens_y l) (lens_width l) (lens_height l)
      (lens_shape l) p in
  let st' := stage (handlePointerDown ctx ev a) in
  (forall (A : Type) (hit : A -> bool) l x, topmost hit l = Some x ->
     exists l1 l2, l = (l1 ++ x :: l2)%list /\ hit x = true /\
                   forallb (fun y => negb (hit y)) l2 = true) /\
  (forall t, topmost hitText (texts (home a)) = Some t ->
     activeTextId st' = Some (text_id t) /\
     textDragOffsetRef st' =
       Some {| dx := px p - text_x t; dy := py p - text_y t |} /\
     activeStickerId st' = activeStickerId (stage a) /\
     activeLensId st' = activeLensId (stage a) /\
     dragStart st' = dragStart (stage a)) /\
  (forall s, topmost hitText (texts (home a)) = None ->
     topmost hitSticker (stickers (home a)) = Some s ->
     activeStickerId st' = Some (sticker_id s) /\
     stickerDragOffsetRef st' =
       Some {| dx := px p - sticker_x s; dy := py p - sticker_y s |} /\
     activeLensId st' = activeLensId (stage a) /\
     dragStart st' = dragStart (stage a)) /\
  (forall l, topmost hitText (texts (home a)) = None ->
     topmost hitSticker (stickers (home a)) = None ->
     topmost hitLens (lenses (home a)) = Some l ->
     activeLensId st' = Some (lens_id l) /\
     dragOffsetRef st' =
       Some {| dx := px p - lens_x l; dy := py p - lens_y l |} /\
     activeStickerId st' = activeStickerId (stage a) /\
     dragStart st' = dragStart (stage a)).
Proof.
  intros Hb p hitText hitSticker hitLens st'.
  split; [|split; [|split]].
  - intros A hit l x H. unfold topmost in H.
    pose proof (find_rev_spec hit l) as S. now rewrite H in S.
  - intros t Ht. unfold st', handlePointerDown.
    fold p. fold hitText. rewrite Ht, Hb. repeat split.
  - intros s Ht Hs. unfold st', handlePointerDown.
    fold p. fold hitText. fold hitSticker. rewrite Ht, Hs, Hb. repeat split.
  - intros l Ht Hs Hl. unfold st', handlePointerDown.
    fold p. fold hitText. fold hitSticker. fold hitLens.
    rewrite Ht, Hs, Hl, Hb. repeat split.
Qed.

(** A witness of X16: a primary-button press at the centre of the lens of
    [Scene.oneLens]. *)
Lemma X16_press_priority_witness :
  activeLensId (stage (handlePointerDown None (Scene.down 0 150 150)
                         Scene.oneLens)) = Some "l1".
Proof.
  assert (H1 : topmost (fun t => isWithinText None t (Scene.pt 150 150))
                 (texts (home Scene.oneLens)) = None)
    by (vm_compute; reflexivity).
  assert (H2 : topmost (fun s => isWithinLens (sticker_x s) (sticker_y s)
                                   (sticker_width s) (sticker_height s)
                                   (sticker_shape s) (Scene.pt 150 150))
                 (stickers (home Scene.oneLens)) = None)
    by (vm_compute; reflexivity).
  assert (H3 : topmost (fun l => isWithinLens (lens_x l) (lens_y l)
                                   (lens_width l) (lens_height l)
                                   (lens_shape l) (Scene.pt 150 150))
                 (lenses (home Scene.oneLens)) = Some Scene.theLens)
    by (vm_compute; reflexivity).
  exact (proj1 (proj2 (proj2 (proj2 (X16_press_priority None
           (Scene.down 0 150 150) Scene.oneLens eq_refl))) Scene.theLens
           H1 H2 H3)).
Defined.

(* What a pointer move does to the page: nothing, or one update of the
   store. *)
Lemma handlePointerMove_home ctx ev a :
  home (handlePointerMove ctx ev a) = home a \/
  exists m, mutates m = true /\
    home (handlePointerMove ctx ev a) = mutate m (home a).
Proof.
  unfold handlePointerMove.
  destruct (moveBranch a) as [r|id off|r img|id off|r|id off| |].
  - unfold moveTextResize. destruct (textById _ _); [|left; reflexivity].
    right. eexists (UpdateText _ _). split; reflexivity.
  - unfold moveTextDrag. destruct (textById _ _); [|left; reflexivity].
    right. eexists (UpdateText _ _). split; reflexivity.
  - right. unfold moveStickerResize.
    eexists (UpdateSticker _ _). split; reflexivity.
  - unfold moveStickerDrag. destruct (stickerById _ _); [|left; reflexivity].
    right. eexists (UpdateSticker _ _). split; reflexivity.
  - right. unfold moveLensResize. destruct (isCircleLens _ _);
      eexists (UpdateLens _ _); split; reflexivity.
  - unfold moveLensDrag. destruct (lensById _ _); [|left; reflexivity].
    right. eexists (UpdateLens _ _). split; reflexivity.
  - left. reflexivity.
  - left. reflexivity.
Qed.

(** X17: every pointer move of a drag or a resize is an undo step of its
    own.  With no undo restore in flight, a pointer move that changes the
    page records the collections it found, so an undo right after it gives
    back the collections as they were before that one move (and not as
    they were before the gesture). *)
Theorem X17_move_is_one_undo_step
    (ctx : option (string -> FontString -> Q)) (ev : PointerEvent) (a : App) :
  isUndoingRef (home a) = false ->
  home (handlePointerMove ctx ev a) <> home a ->
  historyRef (home (handlePointerMove ctx ev a)) =
    (sliceLast 49 (historyRef (home a)) ++ [collections (home a)])%list /\
  collections (handleUndo (home (handlePointerMove ctx ev a))) =
    collections (home a).
Proof.
  intros Hu Hne.
  destruct (handlePointerMove_home ctx ev a) as [E | [m [Hm E]]];
    [contradiction|].
  rewrite E.
  destruct (mutate_history m (home a) Hu Hm) as [Hh _].
  split; [exact Hh|].
  destruct (handleUndo_snoc _ _ _ Hh) as [Hc _]. exact Hc.
Qed.

(** A witness of X17: the lens of [Scene.oneLens], grabbed and moved twice;
    one undo gives the position after the first move. *)
Lemma X17_move_is_one_undo_step_witness :
  collections
    (handleUndo
       (home (handlePointerMove None (Scene.down 0 400 300)
                (handlePointerMove None (Scene.down 0 300 200)
                   Scene.lensGrabbed)))) =
  collections (home (handlePointerMove None (Scene.down 0 300 200)
                       Scene.lensGrabbed)).
Proof.
  refine (proj2 (X17_move_is_one_undo_step None (Scene.down 0 400 300)
                   (handlePointerMove None (Scene.down 0 300 200)
                      Scene.lensGrabbed) _ _)).
  - vm_compute. reflexivity.
  - intro H. apply (f_equal lenses) in H. vm_compute in H. discriminate.
Defined.

Lemma clamp_compat v v' lo hi : v == v' -> clamp v lo hi == clamp v' lo hi.
Proof. intro E. unfold clamp. minmax_cases; lra. Qed.

Lemma lensById_unique l ls :
  NoDup (map lens_id ls) -> In l ls -> lensById (lens_id l) ls = Some l.
Proof.
  intros Hn Hin. unfold lensById.
  destruct (find (fun x => String.eqb (lens_id x) (lens_id l)) ls) as [x|] eqn:F.
  - apply find_some in F. destruct F as [Fin Fid]. apply String.eqb_eq in Fid.
    f_equal. now apply (NoDup_map_In_eq lens_id ls).
  - exfalso. apply (find_none _ _ F) in Hin.
    now rewrite String.eqb_refl in Hin.
Qed.

Lemma moveLensDrag_found id off p a l :
  lensById id (lenses (home a)) = Some l ->
  lenses (home (moveLensDrag id off p a)) =
  patchLenses (lens_id l)
    (lensMovePatch
       (clamp (px p - dx off) 0 (sizeWidth (size (stage a)) - lens_width l))
       (clamp (py p - dy off) 0 (sizeHeight (size (stage a)) - lens_height l))
       (lens_sourceX l +
        (clamp (px p - dx off) 0 (sizeWidth (size (stage a)) - lens_width l) -
         lens_x l))
       (lens_sourceY l +
        (clamp (py p - dy off) 0 (sizeHeight (size (stage a)) - lens_height l) -
         lens_y l)))
    (lenses (home a)).
Proof. intro H. unfold moveLensDrag. rewrite H. reflexivity. Qed.

(* With no gesture pending, a press that grabs a lens makes the next move a
   drag of that lens. *)
Lemma moveBranch_after_grab (a : App) (id : string) (off : Offset) :
  moveBranch a = BIdle \/ moveBranch a = BPreview ->
  id <> "" ->
  moveBranch
    (withStage (fun s => setDragOffset (Some off)
                           (setActiveLensId (Some id) s)) a) =
  BLensDrag id off.
Proof.
  intros Hb Hid. unfold moveBranch in *.
  cbn [withStage stage home setDragOffset setActiveLensId textResizeState
         activeTextId textDragOffsetRef stickerResizeState activeStickerId
         stickerDragOffsetRef resizeState activeLensId dragOffsetRef dragStart].
  assert (Ht : truthy (Some id) = true) by (destruct id; [congruence|reflexivity]).
  rewrite Ht.
  repeat match goal with
  | H : context [match ?x with _ => _ end] |- _ =>
      lazymatch x with
      | context [match _ with _ => _ end] => fail
      | _ => destruct x eqn:?
      end
  end; try reflexivity; destruct Hb; discriminate.
Qed.

(** X18: a lens drag follows the pointer.  If a primary-button press at p
    finds a lens (no text or sticker under the pointer, no gesture pending,
    lens ids unique and non-empty), then after a move to q the lens has
    moved by q - p on each axis, clamped so that it stays on the canvas:
    x = clamp(x0 + (q.x - p.x), 0, canvas width - width), and likewise for
    y; its width and height are unchanged. *)
Theorem X18_lens_drag_follows_pointer
    (ctx : option (string -> FontString -> Q)) (evDown evMove : PointerEvent)
    (a : App) (l : Lens) :
  button evDown = 0%Z ->
  topmost (fun t => isWithinText ctx t (point evDown)) (texts (home a)) = None ->
  topmost (fun s => isWithinLens (sticker_x s) (sticker_y s) (sticker_width s)
                      (sticker_height s) (sticker_shape s) (point evDown))
    (stickers (home a)) = None ->
  topmost (fun l => isWithinLens (lens_x l) (lens_y l) (lens_width l)
                      (lens_height l) (lens_shape l) (point evDown))
    (lenses (home a)) = Some l ->
  lens_id l <> "" ->
  NoDup (map lens_id (lenses (home a))) ->
  moveBranch a = BIdle \/ moveBranch a = BPreview ->
  let a' := handlePointerMove ctx evMove (handlePointerDown ctx evDown a) in
  exists l',
    lensById (lens_id l) (lenses (home a')) = Some l' /\
    lens_x l' ==
      clamp (lens_x l + (px (point evMove) - px (point evDown))) 0
        (sizeWidth (size (stage a)) - lens_width l) /\
    lens_y l' ==
      clamp (lens_y l + (py (point evMove) - py (point evDown))) 0
        (sizeHeight (size (stage a)) - lens_height l) /\
    lens_width l' = lens_width l /\ lens_height l' = lens_height l.
Proof.
  intros Hb Ht Hs Hl Hid Hn Hm a'.
  assert (E : handlePointerDown ctx evDown a =
              withStage (fun s =>
                setDragOffset (Some {| dx := px (point evDown) - lens_x l;
                                       dy := py (point evDown) - lens_y l |})
                  (setActiveLensId (Some (lens_id l)) s)) a).
  { unfold handlePointerDown. rewrite Ht, Hs, Hl, Hb. reflexivity. }
  pose proof (lensById_unique l _ Hn (topmost_In _ _ _ Hl)) as F.
  unfold a'. rewrite E. unfold handlePointerMove.
  rewrite (moveBranch_after_grab a _ _ Hm Hid).
  rewrite (moveLensDrag_found _ _ _ (withStage _ a) l F).
  rewrite lensById_patch by reflexivity. cbn [withStage home]. rewrite F.
  eexists. split; [reflexivity|].
  cbn [option_map mergeLens lensMovePatch lens_x lens_y lens_width lens_height orElse
         lp_x lp_y lp_width lp_height dx dy setDragOffset setActiveLensId size
         withStage stage].
  repeat split; apply clamp_compat; ring.
Qed.

(** A witness of X18: the lens of [Scene.oneLens] (at (100,100)), grabbed at
    (120,130) and dragged to (400,300), ends at (380,270). *)
Lemma X18_lens_drag_follows_pointer_witness :
  exists l',
    lensById "l1"
      (lenses (home (handlePointerMove None (Scene.down 0 400 300)
                       (handlePointerDown None (Scene.down 0 120 130)
                          Scene.oneLens)))) = Some l' /\
    lens_x l' == 380 /\ lens_y l' == 270.
Proof.
  assert (H1 : topmost (fun t => isWithinText None t (Scene.pt 120 130))
                 (texts (home Scene.oneLens)) = None)
    by (vm_compute; reflexivity).
  assert (H2 : topmost (fun s => isWithinLens (sticker_x s) (sticker_y s)
                                   (sticker_width s) (sticker_height s)
                                   (sticker_shape s) (Scene.pt 120 130))
                 (stickers (home Scene.oneLens)) = None)
    by (vm_compute; reflexivity).
  assert (H3 : topmost (fun l => isWithinLens (lens_x l) (lens_y l)
                                   (lens_width l) (lens_height l)
                                   (lens_shape l) (Scene.pt 120 130))
                 (lenses (home Scene.oneLens)) = Some Scene.theLens)
    by (vm_compute; reflexivity).
  assert (H4 : lens_id Scene.theLens <> "") by discriminate.
  assert (H5 : NoDup (map lens_id (lenses (home Scene.oneLens))))
    by (apply distinct_sound; vm_compute; reflexivity).
  assert (H6 : moveBranch Scene.oneLens = BIdle \/
               moveBranch Scene.oneLens = BPreview)
    by (left; vm_compute; reflexivity).
  destruct (X18_lens_drag_follows_pointer None (Scene.down 0 120 130)
              (Scene.down 0 400 300) Scene.oneLens Scene.theLens
              eq_refl H1 H2 H3 H4 H5 H6)
    as [l' [E [Ex [Ey _]]]].
  exists l'. split; [exact E|]. split.
  - rewrite Ex. vm_compute. reflexivity.
  - rewrite Ey. vm_compute. reflexivity.
Defined.

(** * Coordinates *)

Lemma fitImage_scale img W H :
  (naturalWidth img <> 0)%N -> (naturalHeight img <> 0)%N ->
  let nw := ofN (naturalWidth img) in
  let nh := ofN (naturalHeight img) in
  let s := scale (fitImage img W H) in
  nw * s <= W /\ nh * s <= H /\ (nw * s == W \/ nh * s == H) /\
  (0 < W -> 0 < H -> 0 < s).
Proof.
  intros Hw Hh nw nh s.
  pose proof (ofN_pos _ Hw) as Pw. pose proof (ofN_pos _ Hh) as Ph.
  fold nw in Pw. fold nh in Ph.
  assert (Ea : nw * (W / nw) == W) by (field; lra).
  assert (Eb : nh * (H / nh) == H) by (field; lra).
  unfold s, fitImage. cbn [scale]. fold nw nh.
  destruct (Qmin_cases (W / nw) (H / nh)) as [[L E] | [L E]];
    rewrite E; clear E.
  - repeat split; try lra.
    + rewrite <- Eb. apply Qmult_le_l; assumption.
    + intros PW PH. apply Qlt_shift_div_l; lra.
  - repeat split; try lra.
    + rewrite <- Ea. apply Qmult_le_l; assumption.
    + intros PW PH. apply Qlt_shift_div_l; lra.
Qed.

(** X19: the fit of an image into the canvas.  For a bitmap of positive
    natural size, the drawn image keeps the bitmap's aspect ratio, is no
    wider and no higher than the canvas, fills it exactly on at least one
    axis, and is centred: the offsets are non-negative and leave the same
    margin on both sides. *)
Theorem X19_fitImage (img : Bitmap) (W H : Q) :
  (naturalWidth img <> 0)%N -> (naturalHeight img <> 0)%N ->
  let m := fitImage img W H in
  drawWidth m <= W /\ drawHeight m <= H /\
  (drawWidth m == W \/ drawHeight m == H) /\
  0 <= offsetX m /\ 0 <= offsetY m /\
  offsetX m + drawWidth m + offsetX m == W /\
  offsetY m + drawHeight m + offsetY m == H /\
  drawWidth m * ofN (naturalHeight img) ==
    drawHeight m * ofN (naturalWidth img) /\
  (0 < W -> 0 < H -> 0 < scale m).
Proof.
  intros Hw Hh m.
  destruct (fitImage_scale img W H Hw Hh) as [H1 [H2 [H3 H4]]].
  unfold m, fitImage in *. cbn [scale drawWidth drawHeight offsetX offsetY] in *.
  set (s := Qmin _ _) in *. clearbody s.
  set (nw := ofN (naturalWidth img)) in *.
  set (nh := ofN (naturalHeight img)) in *.
  rewrite !Qhalf.
  repeat split; try lra; try ring.
Qed.

(** A witness of X19: an 800 x 600 bitmap on a 900 x 600 canvas is drawn
    800 x 600 with a margin of 50 left and right. *)
Lemma X19_fitImage_witness :
  offsetX (fitImage {| src := "a"; naturalWidth := 800; naturalHeight := 600 |}
             900 600) +
  drawWidth (fitImage {| src := "a"; naturalWidth := 800; naturalHeight := 600 |}
               900 600) +
  offsetX (fitImage {| src := "a"; naturalWidth := 800; naturalHeight := 600 |}
             900 600) == 900.
Proof.
  exact (proj1 (proj2 (proj2 (proj2 (proj2 (proj2
           (X19_fitImage {| src := "a"; naturalWidth := 800;
                            naturalHeight := 600 |} 900 600
              ltac:(discriminate) ltac:(discriminate)))))))).
Defined.

Lemma clamp_id v lo hi : lo <= v -> v <= hi -> clamp v lo hi == v.
Proof. intros. unfold clamp. minmax_cases; lra. Qed.

Lemma image_coordinate_round_trip v o s n :
  0 < s -> o <= v -> v <= o + n * s ->
  o + clamp ((v - o) / s) 0 n * s == v.
Proof.
  intros Hs H1 H2.
  assert (E : clamp ((v - o) / s) 0 n == (v - o) / s).
  { apply clamp_id.
    - apply Qle_shift_div_l; [exact Hs | lra].
    - apply Qle_shift_div_r; [exact Hs | lra]. }
  rewrite E. field. lra.
Qed.

(** X20: canvas points and image pixels.  Without an image to show,
    [toImagePoint] returns the point as it is.  With a bitmap of positive
    natural size the result always lies within the bitmap,
    0 <= x <= naturalWidth and 0 <= y <= naturalHeight; and for a point
    inside the drawn image on a canvas of positive size, converting the
    result back the way the compositor does (offset + pixel * scale, with
    the same fit) gives the point again: the source marker of a magnify
    lens is painted where the pointer was pressed. *)
Theorem X20_image_point (a : App) (p : Point) :
  (effectiveImage (home a) = None -> toImagePoint a p = {| px := px p; py := py p |}) /\
  (forall img, effectiveImage (home a) = Some img ->
     (naturalWidth img <> 0)%N -> (naturalHeight img <> 0)%N ->
     let ip := toImagePoint a p in
     let m := fitImage img (sizeWidth (size (stage a)))
                (sizeHeight (size (stage a))) in
     (0 <= px ip /\ px ip <= ofN (naturalWidth img) /\
      0 <= py ip /\ py ip <= ofN (naturalHeight img)) /\
     (0 < sizeWidth (size (stage a)) -> 0 < sizeHeight (size (stage a)) ->
      offsetX m <= px p -> px p <= offsetX m + drawWidth m ->
      offsetY m <= py p -> py p <= offsetY m + drawHeight m ->
      forall e isClick uuid now,
        sourceDisplay (magnifyLens p e isClick uuid now a) m = 
          {| px := offsetX m + px ip * scale m;
             py := offsetY m + py ip * scale m |} /\
        offsetX m + px ip * scale m == px p /\
        offsetY m + py ip * scale m == py p)).
Proof.
  split.
  - intro Hn. unfold toImagePoint, imageMetrics. now rewrite Hn.
  - intros img Hi Hw Hh ip m.
    pose proof (ofN_pos _ Hw) as Pw. pose proof (ofN_pos _ Hh) as Ph.
    assert (Eip : ip =
      {| px := clamp ((px p - offsetX m) / scale m) 0 (ofN (naturalWidth img));
         py := clamp ((py p - offsetY m) / scale m) 0 (ofN (naturalHeight img)) |}).
    { unfold ip, toImagePoint, imageMetrics. rewrite Hi. reflexivity. }
    split.
    + rewrite Eip. cbn [px py].
      repeat split;
        try apply clamp_le_max; apply clamp_ge_min; lra.
    + intros PW PH X1 X2 Y1 Y2 e isClick uuid now.
      split; [reflexivity|].
      destruct (fitImage_scale img (sizeWidth (size (stage a)))
                  (sizeHeight (size (stage a))) Hw Hh)
        as [_ [_ [_ Hs]]].
      specialize (Hs PW PH). fold m in Hs.
      rewrite Eip. cbn [px py].
      split; apply image_coordinate_round_trip; auto.
Qed.

(** A witness of X20: the point (50,50) on the 900 x 600 stage showing the
    900 x 600 photo. *)
Lemma X20_image_point_witness :
  0 <= px (toImagePoint Scene.magnifyPressed (Scene.pt 50 50)) /\
  px (toImagePoint Scene.magnifyPressed (Scene.pt 50 50)) <= 900.
Proof.
  destruct (proj1 (proj2 (X20_image_point Scene.magnifyPressed (Scene.pt 50 50))
                     Scene.photo eq_refl ltac:(discriminate)
                     ltac:(discriminate)))
    as [H1 [H2 _]].
  split; [exact H1 | exact H2].
Defined.

(** * Painting *)

(** X21: [drawText] paints one line of text per line of the content, in
    order, all at the x of the text, the line of index k at
    y + k * 1.2 * size; so a text with n line feeds is painted as n + 1
    lines. *)
Theorem X21_drawText_lines (t : TextOverlay) :
  exec (drawText t) =
    map (fun nl => PTextLine t (snd nl) (text_x t)
                     (text_y t + ofNat (fst nl) * (text_size t * (6 # 5))))
      (combine (seq 0 (List.length (splitLines (text_text t))))
               (splitLines (text_text t))) /\
  List.length (exec (drawText t)) = S (countLF (text_text t)).
Proof.
  assert (E : exec (drawText t) =
    map (fun nl => PTextLine t (snd nl) (text_x t)
                     (text_y t + ofNat (fst nl) * (text_size t * (6 # 5))))
      (combine (seq 0 (List.length (splitLines (text_text t))))
               (splitLines (text_text t)))).
  { unfold exec, drawText. rewrite forEachIdx_lines. reflexivity. }
  split; [exact E|].
  rewrite E, length_map, length_combine, length_seq, Nat.min_id.
  unfold splitLines. apply splitLinesFrom_length.
Qed.

(** X22: what [drawLens] paints for one lens.  Without an image it paints
    nothing.  With an image a blur lens is one blurred copy of the image; a
    magnify lens is one magnified copy followed by the glass highlight; a
    lens of any other mode is one magnified copy without the highlight.
    The magnified copy maps the sampled source point to the centre of the
    lens, at a factor that is the lens magnification clamped into [1, 4]. *)
Theorem X22_drawLens_paints (img : option Bitmap) (w h : Q) (l : Lens)
    (draw : option ImageMetrics) :
  ((img = None \/ draw = None) -> exec (drawLens img w h l draw) = []) /\
  (forall image m, img = Some image -> draw = Some m ->
     let factor := clamp (lens_magnification l) 1 4 in
     let magnified :=
       PLensMagnify l (lensCenter l) factor (sourceDisplay l m) image m in
     1 <= factor /\ factor <= 4 /\
     (1 <= lens_magnification l -> lens_magnification l <= 4 ->
      factor == lens_magnification l) /\
     exec (drawLens img w h l draw) =
       match lens_mode l with
       | MBlur => [PLensBlur l image m]
       | MMagnify => [magnified; PGlass l]
       | _ => [magnified]
       end).
Proof.
  split.
  - intros [-> | ->]; unfold drawLens; [reflexivity|now destruct img].
  - intros image m -> -> factor magnified. unfold factor, magnified.
    repeat split.
    + apply clamp_ge_min. lra.
    + apply clamp_le_max.
    + apply clamp_id.
    + unfold drawLens. destruct (lens_mode l); reflexivity.
Qed.

(** A witness of X22: the sticker-mode lens that a click without a sticker
    bitmap creates is painted as a magnified copy without highlight. *)
Lemma X22_drawLens_paints_witness :
  List.length
    (exec (drawLens (Some Scene.photo) 920 620 Scene.stickerModeLens
             (Some (fitImage Scene.photo 920 620)))) = 1%nat.
Proof.
  rewrite (proj2 (proj2 (proj2 (proj2 (X22_drawLens_paints (Some Scene.photo)
             920 620 Scene.stickerModeLens
             (Some (fitImage Scene.photo 920 620))) Scene.photo
             (fitImage Scene.photo 920 620) eq_refl eq_refl)))).
  reflexivity.
Defined.

(* The whole scene only appends to what the canvas holds. *)
Lemma appends_paintScene r : appends (paintScene r).
Proof.
  intro log.
  destruct (arg_image r) as [img|] eqn:Hi.
  - unfold paintScene. rewrite Hi. cbv beta iota zeta delta [isSome].
    destruct (forEach_spec drawSticker (arg_stickers r) appends_drawSticker)
      as [S1 _].
    destruct (forEach_spec drawText (arg_texts r) appends_drawText)
      as [T1 _].
    destruct (forEach_spec
                (fun l => drawConnector l
                            (fitImage img (arg_width r) (arg_height r)))
                (filter (fun l => Mode_eqb (lens_mode l) MMagnify)
                   (arg_lenses r))
                (fun l => appends_drawConnector l _)) as [C1 _].
    destruct (forEach_spec
                (fun l => drawLens (Some img) (arg_width r) (arg_height r) l
                            (Some (fitImage img (arg_width r) (arg_height r))))
                (arg_lenses r)
                (fun l => appends_drawLens _ _ _ l _)) as [L1 _].
    assert (P1 : appends (match arg_preview r with
                          | Some p => drawPreview p
                          | None => skip
                          end))
      by (destruct (arg_preview r);
          auto using appends_drawPreview, appends_skip).
    revert log. change (appends
      (bind (emit (PClear (arg_width r) (arg_height r))) (fun _ =>
       bind (emit (PBaseImage img (fitImage img (arg_width r) (arg_height r))))
         (fun _ =>
       bind (forEach (arg_stickers r) drawSticker) (fun _ =>
       bind (forEach (arg_texts r) drawText) (fun _ =>
       bind (forEach
               (filter (fun l => Mode_eqb (lens_mode l) MMagnify)
                  (arg_lenses r))
               (fun l => drawConnector l
                  (fitImage img (arg_width r) (arg_height r)))) (fun _ =>
       bind (forEach (arg_lenses r)
               (fun l => drawLens (Some img) (arg_width r) (arg_height r) l
                  (Some (fitImage img (arg_width r) (arg_height r)))))
         (fun _ =>
       match arg_preview r with
       | Some p => drawPreview p
       | None => skip
       end)))))))).
    solve_appends.
  - unfold paintScene. rewrite Hi. cbv beta iota zeta delta [isSome].
    destruct (forEach_spec drawText (arg_texts r) appends_drawText)
      as [T1 _].
    destruct (forEach_spec (fun _ : Lens => skip)
                (filter (fun l => Mode_eqb (lens_mode l) MMagnify)
                   (arg_lenses r))
                (fun _ => appends_skip)) as [C1 _].
    destruct (forEach_spec
                (fun l => drawLens None (arg_width r) (arg_height r) l None)
                (arg_lenses r)
                (fun l => appends_drawLens _ _ _ l _)) as [L1 _].
    assert (P1 : appends (match arg_preview r with
                          | Some p => drawPreview p
                          | None => skip
                          end))
      by (destruct (arg_preview r);
          auto using appends_drawPreview, appends_skip).
    revert log. change (appends
      (bind (emit (PClear (arg_width r) (arg_height r))) (fun _ =>
       bind (drawPlaceholder (arg_width r) (arg_height r)
               (arg_backgroundColor r) (arg_showPlaceholder r)) (fun _ =>
       bind skip (fun _ =>
       bind (forEach (arg_texts r) drawText) (fun _ =>
       bind (forEach
               (filter (fun l => Mode_eqb (lens_mode l) MMagnify)
                  (arg_lenses r))
               (fun _ : Lens => skip)) (fun _ =>
       bind (forEach (arg_lenses r)
               (fun l => drawLens None (arg_width r) (arg_height r) l None))
         (fun _ =>
       match arg_preview r with
       | Some p => drawPreview p
       | None => skip
       end)))))))).
    solve_appends.
Qed.

(** X23: what [renderScene] does to the canvas.  With no canvas there is
    nothing to return; a canvas without 2D context is left as it is; if the
    canvas has the requested size, the paints of the scene are added after
    what it holds (the first of them being the clear of the whole surface);
    if not, the canvas takes the requested size, which drops what it held,
    and holds the paints of the scene alone. *)
Theorem X23_renderScene_canvas (r : RenderArgs) :
  (arg_canvas r = None -> renderScene r = None) /\
  (forall c, arg_canvas r = Some c -> has2d c = false ->
     renderScene r = Some c) /\
  (forall c, arg_canvas r = Some c -> has2d c = true ->
     exists c', renderScene r = Some c' /\
       canvas_width c' == arg_width r /\ canvas_height c' == arg_height r /\
       (canvas_width c == arg_width r -> canvas_height c == arg_height r ->
        painted c' = (painted c ++ scenePaints r)%list) /\
       (~ (canvas_width c == arg_width r /\ canvas_height c == arg_height r) ->
        painted c' = scenePaints r) /\
       exists rest, scenePaints r = PClear (arg_width r) (arg_height r) :: rest).
Proof.
  split; [|split].
  - intro H. unfold renderScene. now rewrite H.
  - intros c Hc H2. unfold renderScene. now rewrite Hc, H2.
  - intros c Hc H2. unfold renderScene, scenePaints. rewrite Hc, H2.
    cbn [negb]. eexists. split; [reflexivity|].
    cbn [canvas_width canvas_height painted].
    pose proof (appends_paintScene r) as A.
    repeat split.
    + destruct (Qeq_bool (canvas_width c) (arg_width r)) eqn:E,
        (Qeq_bool (canvas_height c) (arg_height r)) eqn:E'; simpl;
        try reflexivity. now apply Qeq_bool_iff.
    + destruct (Qeq_bool (canvas_width c) (arg_width r)) eqn:E,
        (Qeq_bool (canvas_height c) (arg_height r)) eqn:E'; simpl;
        try reflexivity. now apply Qeq_bool_iff.
    + intros E1 E2. apply Qeq_bool_iff in E1. apply Qeq_bool_iff in E2.
      rewrite E1, E2. simpl. apply A.
    + intro Hne.
      assert (N : negb (Qeq_bool (canvas_width c) (arg_width r)) ||
                  negb (Qeq_bool (canvas_height c) (arg_height r)) = true).
      { destruct (Qeq_bool (canvas_width c) (arg_width r)) eqn:E1;
          [|reflexivity].
        destruct (Qeq_bool (canvas_height c) (arg_height r)) eqn:E2;
          [|reflexivity].
        exfalso. apply Hne. split; now apply Qeq_bool_iff. }
      rewrite N. reflexivity.
    + destruct (arg_image r) as [img|] eqn:Hi.
      * rewrite (paintScene_with_image r img Hi). eexists. reflexivity.
      * rewrite (paintScene_without_image r Hi). eexists. reflexivity.
Qed.

(** A witness of X23: the scene of [Scene.renderArgs] on the fresh 300 x 150
    canvas, which takes the size of the stage. *)
Lemma X23_renderScene_canvas_witness :
  exists c', renderScene Scene.renderArgs = Some c' /\
             canvas_width c' == 920 /\ canvas_height c' == 620.
Proof.
  destruct (proj2 (proj2 (X23_renderScene_canvas Scene.renderArgs))
              Scene.freshCanvas eq_refl eq_refl)
    as [c' [H1 [H2 [H3 _]]]].
  exists c'. split; [exact H1|]. split; [exact H2 | exact H3].
Defined.

(** * Lens creation *)

Lemma upCreate_blur ctx ds uuid now a :
  mode (home a) = MBlur ->
  let e := orElse (dragCurrent (stage a)) ds in
  let width := Qabs (px e - px ds) in
  let height := Qabs (py e - py ds) in
  let isClick := Qltb width 8 && Qltb height 8 in
  lenses (home (upCreate ctx ds uuid now a)) =
    (lenses (home a) ++ [regionLens ds e width height isClick uuid now a])%list.
Proof.
  intros Hm e width height isClick. unfold upCreate. rewrite Hm.
  fold e. fold width. fold height. fold isClick. simpl.
  now rewrite pushHistory_lenses.
Qed.

Lemma Qabs_sub_min a b : Qmin a b + Qabs (b - a) == Qmax a b.
Proof.
  destruct (Qlt_le_dec (b - a) 0) as [H | H].
  - rewrite (Qabs_neg (b - a)) by lra. minmax_cases; lra.
  - rewrite (Qabs_pos (b - a)) by lra. minmax_cases; lra.
Qed.

(** X24: the lens a release creates in blur mode.  After a press at ds and
    a release at e with no gesture pending, exactly one lens is appended.
    If the pointer moved by 8 units or more on some axis and both points
    lie on the canvas, the lens is the rectangle spanned by the two points:
    its corner is (min x, min y) and its extents are the distances on each
    axis.  If the pointer moved by less than 8 units on both axes, the lens
    is a square of the configured lens size (when that fits the canvas),
    centred on the press point when the square around it lies on the
    canvas.  In both cases the recorded source point is the centre of the
    lens. *)
Theorem X24_blur_lens_geometry
    (ctx : option (string -> FontString -> Q)) (uuid : string) (now : Z)
    (a : App) (ds e : Point) :
  gestureActive (stage a) = false ->
  dragStart (stage a) = Some ds ->
  dragCurrent (stage a) = Some e ->
  mode (home a) = MBlur ->
  let W := sizeWidth (size (stage a)) in
  let H := sizeHeight (size (stage a)) in
  let side := lensSize (home a) in
  exists l,
    lenses (home (handlePointerUp ctx uuid now a)) =
      (lenses (home a) ++ [l])%list /\
    lens_id l = uuid /\ lens_mode l = MBlur /\
    lens_shape l = lensShape (home a) /\ lens_blur l = blurAmount (home a) /\
    lens_sourceX l == lens_x l + lens_width l / 2 /\
    lens_sourceY l == lens_y l + lens_height l / 2 /\
    ((8 <= Qabs (px e - px ds) \/ 8 <= Qabs (py e - py ds)) ->
     0 <= px ds -> px ds <= W -> 0 <= px e -> px e <= W ->
     0 <= py ds -> py ds <= H -> 0 <= py e -> py e <= H ->
     lens_x l == Qmin (px ds) (px e) /\ lens_y l == Qmin (py ds) (py e) /\
     lens_width l == Qabs (px e - px ds) /\
     lens_height l == Qabs (py e - py ds)) /\
    (Qabs (px e - px ds) < 8 -> Qabs (py e - py ds) < 8 ->
     side <= W -> side <= H ->
     0 <= px ds - side / 2 -> px ds + side / 2 <= W ->
     0 <= py ds - side / 2 -> py ds + side / 2 <= H ->
     lens_width l == side /\ lens_height l == side /\
     lens_x l == px ds - side / 2 /\ lens_y l == py ds - side / 2).
Proof.
  intros Hg Hd Hc Hm W H side.
  rewrite (handlePointerUp_create ctx uuid now a ds Hg Hd).
  rewrite (upCreate_blur ctx ds uuid now
             (withStage (setTextDragOffset None) a) Hm).
  cbn [withStage stage home setTextDragOffset dragCurrent]. rewrite Hc.
  cbn [orElse]. eexists. split; [reflexivity|].
  unfold regionLens.
  cbn [lens_id lens_mode lens_shape lens_blur lens_sourceX lens_sourceY
         lens_x lens_y lens_width lens_height withStage stage home
         setTextDragOffset size].
  fold W H side.
  split; [reflexivity|]. split; [exact Hm|].
  split; [reflexivity|]. split; [reflexivity|].
  split; [reflexivity|]. split; [reflexivity|]. split.
  - intros Hdrag X1 X2 X3 X4 Y1 Y2 Y3 Y4.
    assert (Hclick : Qltb (Qabs (px e - px ds)) 8 &&
                     Qltb (Qabs (py e - py ds)) 8 = false).
    { apply andb_false_iff. destruct Hdrag as [D | D]; [left | right];
        now apply Qltb_ge. }
    rewrite Hclick.
    pose proof (Qabs_sub_min (px ds) (px e)) as Ax.
    pose proof (Qabs_sub_min (py ds) (py e)) as Ay.
    pose proof (Qabs_nonneg (px e - px ds)) as Nx.
    pose proof (Qabs_nonneg (py e - py ds)) as Ny.
    set (wx := Qabs (px e - px ds)) in *. set (wy := Qabs (py e - py ds)) in *.
    clearbody wx wy W H. unfold clamp. repeat split; minmax_cases; lra.
  - intros C1 C2 S1 S2 X1 X2 Y1 Y2.
    assert (Hclick : Qltb (Qabs (px e - px ds)) 8 &&
                     Qltb (Qabs (py e - py ds)) 8 = true).
    { apply andb_true_iff. split; now apply Qltb_lt. }
    rewrite Hclick. rewrite Qhalf in *.
    clearbody W H side. unfold clamp. rewrite !Qhalf.
    repeat split; minmax_cases; lra.
Qed.

(** A witness of X24: the drag that creates the lens of [Scene.oneLens]. *)
Lemma X24_blur_lens_geometry_witness :
  exists l,
    lenses (home (handlePointerUp None "l1" 0 Scene.blurDragged)) =
      (lenses (home Scene.blurDragged) ++ [l])%list /\
    lens_mode l = MBlur.
Proof.
  assert (Hg : gestureActive (stage Scene.blurDragged) = false)
    by (vm_compute; reflexivity).
  assert (Hd : dragStart (stage Scene.blurDragged) = Some (Scene.pt 100 100))
    by (vm_compute; reflexivity).
  assert (Hc : dragCurrent (stage Scene.blurDragged) = Some (Scene.pt 200 200))
    by (vm_compute; reflexivity).
  assert (Hm : mode (home Scene.blurDragged) = MBlur) by reflexivity.
  destruct (X24_blur_lens_geometry None "l1" 0%Z Scene.blurDragged
              (Scene.pt 100 100) (Scene.pt 200 200) Hg Hd Hc Hm)
    as [l [H1 [_ [H3 _]]]].
  exists l. split; [exact H1 | exact H3].
Defined.

(** * The live text update *)

Lemma patchTexts_snoc id p l t :
  patchTexts id p (l ++ [t]) =
  (patchTexts id p l ++
   [if String.eqb (text_id t) id then mergeText t p else t])%list.
Proof. unfold patchTexts. now rewrite map_app. Qed.

Lemma sliceLast_snoc_inv {A} n (l : list A) x :
  sliceLast (S n) (l ++ [x]) = (sliceLast n l ++ [x])%list.
Proof. symmetry. apply sliceLast_snoc. Qed.

(* The text that a release in text mode creates, and the page after it. *)
Lemma upText_home ctx ds e isClick uuid a :
  isEmpty (trim (textValue (home a))) = false ->
  exists t,
    text_id t = uuid /\ text_text t = trim (textValue (home a)) /\
    text_color t = textColor (home a) /\ text_size t = textSize (home a) /\
    text_font t = textFont /\
    home (upText ctx ds e isClick uuid a) =
      handleTextSelect t
        (setTexts (texts (home a) ++ [t])
           (pushHistory (lenses (home a)) (stickers (home a))
              (texts (home a)) (home a))) /\
    activeTextId (stage (upText ctx ds e isClick uuid a)) = Some uuid.
Proof.
  intro E. unfold upText. rewrite E. cbv zeta.
  match goal with |- context [handleTextAdd ?t] => set (newText := t) end.
  exists newText.
  assert (Ha : handleTextAdd newText (home a) =
               setTexts (texts (home a) ++ [newText])
                 (pushHistory (lenses (home a)) (stickers (home a))
                    (texts (home a)) (home a))).
  { unfold handleTextAdd. subst newText. cbn [text_text].
    rewrite trim_trim, E. cbv zeta. now rewrite pushHistory_texts. }
  cbn [withHome withStage home stage endDrag]. rewrite Ha.
  subst newText. repeat split.
Qed.

(** X25: the effect that mirrors the text controls into the selected text
    records a snapshot of its own.  After a release in text mode has
    created a text (non-blank text value, fresh non-empty id, no gesture
    pending, no undo restore in flight), the run of that effect leaves the
    three collections as the creation left them but adds a second snapshot
    to the history: the first undo then gives back the collections with the
    new text still in them, and only the second undo removes it. *)
Theorem X25_text_creation_takes_two_undos
    (ctx : option (string -> FontString -> Q)) (uuid : string) (now : Z)
    (a : App) (ds : Point) :
  gestureActive (stage a) = false ->
  dragStart (stage a) = Some ds ->
  mode (home a) = MText ->
  isEmpty (trim (textValue (home a))) = false ->
  uuid <> "" ->
  ~ In uuid (map text_id (texts (home a))) ->
  isUndoingRef (home a) = false ->
  let a' := handlePointerUp ctx uuid now a in
  let a'' := liveTextUpdate a' in
  collections (home a') <> collections (home a) /\
  collections (home a'') = collections (home a') /\
  collections (handleUndo (home a'')) = collections (home a') /\
  collections (undoTimes 2 (home a'')) = collections (home a).
Proof.
  intros Hg Hd Hm He Hid Hfresh Hu a' a''.
  assert (Ea : a' = upText ctx ds (orElse (dragCurrent (stage a)) ds)
                      (Qltb (Qabs (px (orElse (dragCurrent (stage a)) ds) - px ds)) 8 &&
                       Qltb (Qabs (py (orElse (dragCurrent (stage a)) ds) - py ds)) 8)
                      uuid (withStage (setTextDragOffset None) a)).
  { unfold a'. rewrite (handlePointerUp_create ctx uuid now a ds Hg Hd).
    unfold upCreate. cbn [withStage home]. now rewrite Hm. }
  destruct (upText_home ctx ds (orElse (dragCurrent (stage a)) ds)
              (Qltb (Qabs (px (orElse (dragCurrent (stage a)) ds) - px ds)) 8 &&
               Qltb (Qabs (py (orElse (dragCurrent (stage a)) ds) - py ds)) 8)
              uuid (withStage (setTextDragOffset None) a) He)
    as [t [T1 [T2 [T3 [T4 [T5 [Hh Hact]]]]]]].
  rewrite <- Ea in Hh, Hact. cbn [withStage home] in Hh.
  set (h1 := pushHistory (lenses (home a)) (stickers (home a))
               (texts (home a)) (home a)) in *.
  assert (Hc' : collections (home a') =
                {| snap_lenses := lenses (home a);
                   snap_stickers := stickers (home a);
                   snap_texts := (texts (home a) ++ [t])%list |}).
  { rewrite Hh. unfold collections, h1. simpl.
    now rewrite pushHistory_lenses, pushHistory_stickers. }
  assert (Hu' : isUndoingRef (home a') = false).
  { rewrite Hh. simpl. unfold h1. now rewrite pushHistory_isUndoing. }
  assert (Hh' : historyRef (home a') =
                (sliceLast 49 (historyRef (home a)) ++ [collections (home a)])%list).
  { rewrite Hh. simpl. unfold h1. now apply pushHistory_history. }
  assert (Ea'' : home a'' =
                 onTextUpdate uuid
                   (textStylePatch (textValue (home a')) (textColor (home a'))
                      (textSize (home a')) textFont) (home a')).
  { unfold a'', liveTextUpdate. rewrite Hact.
    destruct uuid; [congruence | reflexivity]. }
  assert (Hc'' : collections (home a'') = collections (home a')).
  { rewrite Ea'', onTextUpdate_collections, Hc'. unfold collections.
    rewrite Hh. cbn [lenses stickers texts handleTextSelect setTextControls
                       setTexts textValue textColor textSize].
    unfold h1. rewrite pushHistory_lenses, pushHistory_stickers.
    f_equal. rewrite patchTexts_snoc, patchTexts_absent by exact Hfresh.
    rewrite T1, String.eqb_refl. f_equal. f_equal.
    destruct t. simpl in *. subst. reflexivity. }
  destruct (mutate_history
              (UpdateText uuid
                 (textStylePatch (textValue (home a')) (textColor (home a'))
                    (textSize (home a')) textFont)) (home a') Hu' eq_refl)
    as [Hh'' _].
  cbn [mutate] in Hh''. rewrite <- Ea'' in Hh''.
  destruct (handleUndo_snoc _ _ _ Hh'') as [U1 [U2 _]].
  split; [|split; [exact Hc''|split; [exact U1|]]].
  - rewrite Hc'. unfold collections. intro H. injection H as H.
    apply (f_equal (@List.length _)) in H. rewrite length_app in H.
    simpl in H. lia.
  - cbn [undoTimes].
    rewrite Hh' in U2. rewrite sliceLast_snoc_inv in U2.
    destruct (handleUndo_snoc _ _ _ U2) as [V1 _]. exact V1.
Qed.

(** A witness of X25: the text created by a click at (100,500) with the
    text value " Hi ". *)
Lemma X25_text_creation_takes_two_undos_witness :
  collections
    (handleUndo
       (home (liveTextUpdate (handlePointerUp None "t1" 0 Scene.textClick)))) =
  collections (home (handlePointerUp None "t1" 0 Scene.textClick)).
Proof.
  assert (Hg : gestureActive (stage Scene.textClick) = false)
    by (vm_compute; reflexivity).
  assert (Hd : dragStart (stage Scene.textClick) = Some (Scene.pt 100 500))
    by (vm_compute; reflexivity).
  assert (Hm : mode (home Scene.textClick) = MText) by reflexivity.
  assert (He : isEmpty (trim (textValue (home Scene.textClick))) = false)
    by (vm_compute; reflexivity).
  assert (Hi : "t1" <> "") by discriminate.
  assert (Hf : ~ In "t1" (map text_id (texts (home Scene.textClick))))
    by (vm_compute; intros []).
  assert (Hu : isUndoingRef (home Scene.textClick) = false) by reflexivity.
  exact (proj1 (proj2 (proj2 (X25_text_creation_takes_two_undos None "t1" 0%Z
           Scene.textClick (Scene.pt 100 500) Hg Hd Hm He Hi Hf Hu)))).
Defined.

(** * The live preview *)

(** X26: the live preview.  There is none in text mode and none unless a
    region is being drawn.  In magnify mode it is a square of the lens size
    centred on the current pointer position.  In blur and sticker mode it
    is the rectangle spanned by the press point and the current point: its
    extents are non-negative and both points lie in it.  It always has the
    configured shape. *)
Theorem X26_preview (a : App) :
  (mode (home a) = MText -> preview a = None) /\
  (dragStart (stage a) = None \/ dragCurrent (stage a) = None ->
   preview a = None) /\
  (forall ds dc,
     dragStart (stage a) = Some ds -> dragCurrent (stage a) = Some dc ->
     mode (home a) <> MText ->
     exists p, preview a = Some p /\ preview_shape p = lensShape (home a) /\
       (mode (home a) = MMagnify ->
        preview_width p = lensSize (home a) /\
        preview_height p = lensSize (home a) /\
        preview_x p + preview_width p / 2 == px dc /\
        preview_y p + preview_height p / 2 == py dc) /\
       (mode (home a) <> MMagnify ->
        0 <= preview_width p /\ 0 <= preview_height p /\
        inRect (preview_x p) (preview_y p) (preview_width p)
          (preview_height p) ds /\
        inRect (preview_x p) (preview_y p) (preview_width p)
          (preview_height p) dc)).
Proof.
  split; [|split].
  - intro H. unfold preview. now rewrite H.
  - intros [H | H]; unfold preview; rewrite H;
      destruct (mode (home a)); try reflexivity;
      destruct (dragStart (stage a)); reflexivity.
  - intros ds dc Hs Hc Hm. unfold preview. rewrite Hs, Hc.
    assert (R : 0 <= Qabs (px ds - px dc) /\ 0 <= Qabs (py ds - py dc) /\
                inRect (Qmin (px ds) (px dc)) (Qmin (py ds) (py dc))
                  (Qabs (px ds - px dc)) (Qabs (py ds - py dc)) ds /\
                inRect (Qmin (px ds) (px dc)) (Qmin (py ds) (py dc))
                  (Qabs (px ds - px dc)) (Qabs (py ds - py dc)) dc).
    { pose proof (Qabs_sub_min (px dc) (px ds)) as Ax.
      pose proof (Qabs_sub_min (py dc) (py ds)) as Ay.
      pose proof (Qabs_nonneg (px ds - px dc)) as Nx.
      pose proof (Qabs_nonneg (py ds - py dc)) as Ny.
      unfold inRect.
      set (wx := Qabs (px ds - px dc)) in *.
      set (wy := Qabs (py ds - py dc)) in *. clearbody wx wy.
      repeat split; minmax_cases; lra. }
    destruct (mode (home a)) eqn:Em; try congruence;
      eexists; (split; [reflexivity|]); (split; [reflexivity|]);
      cbn [preview_x preview_y preview_width preview_height]; split;
      intro Hmm; try congruence; try exact R.
    rewrite !Qhalf. repeat split; ring.
Qed.

(** A witness of X26: the preview while the sticker of [Scene.oneSticker]
    is being drawn. *)
Lemma X26_preview_witness :
  exists p, preview Scene.badgeDragged = Some p /\
            preview_shape p = lensShape (home Scene.badgeDragged).
Proof.
  assert (Hs : dragStart (stage Scene.badgeDragged) = Some (Scene.pt 100 100))
    by (vm_compute; reflexivity).
  assert (Hc : dragCurrent (stage Scene.badgeDragged) = Some (Scene.pt 300 300))
    by (vm_compute; reflexivity).
  assert (Hm : mode (home Scene.badgeDragged) <> MText) by discriminate.
  destruct (proj2 (proj2 (X26_preview Scene.badgeDragged))
              (Scene.pt 100 100) (Scene.pt 300 300) Hs Hc Hm)
    as [p [H1 [H2 _]]].
  exists p. split; [exact H1 | exact H2].
Defined.

(** * Runs of pointer events *)

Lemma pushHistory_frame ls ss ts h :
  mode (pushHistory ls ss ts h) = mode h /\
  stickerImage (pushHistory ls ss ts h) = stickerImage h.
Proof. unfold pushHistory. destruct (isUndoingRef h); split; reflexivity. Qed.

Lemma patchLenses_ids id p l :
  lp_id p = None -> map lens_id (patchLenses id p l) = map lens_id l.
Proof.
  intro Hp. unfold patchLenses. rewrite map_map. apply map_ext. intro x.
  destruct (String.eqb (lens_id x) id); [|reflexivity].
  unfold mergeLens. cbn [lens_id]. now rewrite Hp.
Qed.

Lemma patchStickers_ids id p l :
  sp_id p = None -> map sticker_id (patchStickers id p l) = map sticker_id l.
Proof.
  intro Hp. unfold patchStickers. rewrite map_map. apply map_ext. intro x.
  destruct (String.eqb (sticker_id x) id); [|reflexivity].
  unfold mergeSticker. cbn [sticker_id]. now rewrite Hp.
Qed.

(* A size patch moves nothing. *)
Lemma patchLenses_size_corner id w h l x' :
  In x' (patchLenses id (lensSizePatch w h) l) ->
  exists x, In x l /\ lens_id x' = lens_id x /\
            lens_x x' = lens_x x /\ lens_y x' = lens_y x.
Proof.
  unfold patchLenses. intro Hin. apply in_map_iff in Hin.
  destruct Hin as [x [<- Hx]]. exists x. split; [exact Hx|].
  destruct (String.eqb (lens_id x) id); repeat split.
Qed.

Lemma patchStickers_size_corner id w h l x' :
  In x' (patchStickers id (stickerSizePatch w h) l) ->
  exists x, In x l /\ sticker_id x' = sticker_id x /\
            sticker_x x' = sticker_x x /\ sticker_y x' = sticker_y x.
Proof.
  unfold patchStickers. intro Hin. apply in_map_iff in Hin.
  destruct Hin as [x [<- Hx]]. exists x. split; [exact Hx|].
  destruct (String.eqb (sticker_id x) id); repeat split.
Qed.

(* Which conditions of [handlePointerMove] failed before a drag branch is
   taken. *)
Lemma moveBranch_priority a :
  match moveBranch a with
  | BStickerDrag _ _ =>
      stickerResizeState (stage a) = None \/ stickerImage (home a) = None
  | BLensDrag _ _ => resizeState (stage a) = None
  | _ => True
  end.
Proof. unfold moveBranch. split_matches; auto. Qed.

Lemma freshIds_uniqueIds ps a :
  freshIds ps a -> texts (home a) = [] -> uniqueIds a.
Proof.
  intros [Hl Hs] Ht. unfold uniqueIds. rewrite Ht.
  repeat split; [| |constructor].
  - now apply NoDup_app_remove_l in Hl.
  - now apply NoDup_app_remove_l in Hs.
Qed.

(** ** Presses *)

Lemma handlePointerDown_no_texts ctx ev a :
  texts (home a) = [] ->
  home (handlePointerDown ctx ev a) = home a /\
  size (stage (handlePointerDown ctx ev a)) = size (stage a) /\
  textResizeState (stage (handlePointerDown ctx ev a)) =
    textResizeState (stage a) /\
  (resizeState (stage (handlePointerDown ctx ev a)) = resizeState (stage a) \/
   exists l, In l (lenses (home a)) /\
     resizeState (stage (handlePointerDown ctx ev a)) =
     Some {| rs_id := lens_id l;
             rs_start := rectOf (lens_x l) (lens_y l) (lens_width l)
                                (lens_height l);
             rs_startPoint := point ev |}) /\
  (stickerResizeState (stage (handlePointerDown ctx ev a)) =
     stickerResizeState (stage a) \/
   exists s, In s (stickers (home a)) /\
     stickerResizeState (stage (handlePointerDown ctx ev a)) =
     Some {| rs_id := sticker_id s;
             rs_start := rectOf (sticker_x s) (sticker_y s) (sticker_width s)
                                (sticker_height s);
             rs_startPoint := point ev |}).
Proof.
  intro Ht. unfold handlePointerDown. rewrite Ht.
  change (topmost (fun t => isWithinText ctx t (point ev)) [])
    with (@None TextOverlay).
  cbv zeta.
  destruct (topmost _ (stickers (home a))) as [s|] eqn:Fs;
    [apply topmost_In in Fs|];
    (destruct (topmost _ (lenses (home a))) as [l|] eqn:Fl;
       [apply topmost_In in Fl|]);
    split_matches;
    (split; [reflexivity|]); (split; [reflexivity|]);
    (split; [reflexivity|]);
    (split;
       [first [left; reflexivity
              | right; eexists; split; [eassumption | reflexivity]]
       |first [left; reflexivity
              | right; eexists; split; [eassumption | reflexivity]]]).
Qed.

Lemma pointerInv_down ctx ev ps a :
  pointerInv ctx (PDown ev :: ps) a ->
  pointerInv ctx ps (handlePointerDown ctx ev a).
Proof.
  intros [Hf [Hl [Hs [Htr [Ht [Hm Hw]]]]]].
  pose proof (freshIds_uniqueIds _ _ Hf Ht) as [Ul [Us _]].
  destruct (handlePointerDown_no_texts ctx ev a Ht)
    as [Eh [Es [Etr [Er Esr]]]].
  unfold pointerInv, freshIds, lensAnchored, stickerAnchored, allWithin.
  rewrite Eh, Es, Etr.
  split; [exact Hf|]. split.
  { intros r l Hr Hin Hid. destruct Er as [Er | [l0 [Hin0 Er]]].
    - rewrite Er in Hr. now apply (Hl r l).
    - rewrite Er in Hr. injection Hr as <-. cbn [rs_id rs_start rectOf rx ry] in *.
      assert (l = l0) as -> by
        now apply (NoDup_map_In_eq lens_id (lenses (home a))).
      split; reflexivity. }
  split.
  { destruct Hs as [Hs | Hs]; [now left|]. right.
    intros r s Hr Hin Hid. destruct Esr as [Esr | [s0 [Hin0 Esr]]].
    - rewrite Esr in Hr. now apply (Hs r s).
    - rewrite Esr in Hr. injection Hr as <-. cbn [rs_id rs_start rectOf rx ry] in *.
      assert (s = s0) as -> by
        now apply (NoDup_map_In_eq sticker_id (stickers (home a))).
      split; reflexivity. }
  repeat split; auto; apply Hw.
Qed.

(** ** Moves *)

Lemma onLensUpdate_frame id p h :
  mode (onLensUpdate id p h) = mode h /\
  stickerImage (onLensUpdate id p h) = stickerImage h.
Proof. unfold onLensUpdate. simpl. apply pushHistory_frame. Qed.

Lemma onStickerUpdate_frame id p h :
  mode (onStickerUpdate id p h) = mode h /\
  stickerImage (onStickerUpdate id p h) = stickerImage h.
Proof. unfold onStickerUpdate. simpl. apply pushHistory_frame. Qed.

Lemma pointerInv_lens_update ctx ps a id p :
  pointerInv ctx ps a -> lp_id p = None ->
  lensAnchored (withHome (onLensUpdate id p) a) ->
  allWithin ctx (withHome (onLensUpdate id p) a) ->
  pointerInv ctx ps (withHome (onLensUpdate id p) a).
Proof.
  intros [[Fl Fs] [_ [Hs [Htr [Ht [Hm _]]]]]] Hp Ha Hw.
  destruct (onLensUpdate_frame id p (home a)) as [Em Ei].
  unfold pointerInv, freshIds, stickerAnchored.
  cbn [withHome home stage].
  rewrite onLensUpdate_collections_lenses, onLensUpdate_stickers,
    onLensUpdate_texts, Em, Ei, patchLenses_ids by exact Hp.
  split; [split; assumption|]. split; [exact Ha|]. split; [exact Hs|].
  split; [exact Htr|]. split; [exact Ht|]. split; [exact Hm | exact Hw].
Qed.

Lemma pointerInv_sticker_update ctx ps a id p :
  pointerInv ctx ps a -> sp_id p = None ->
  (stickerImage (home a) = None \/
   stickerAnchored (withHome (onStickerUpdate id p) a)) ->
  allWithin ctx (withHome (onStickerUpdate id p) a) ->
  pointerInv ctx ps (withHome (onStickerUpdate id p) a).
Proof.
  intros [[Fl Fs] [Hl [_ [Htr [Ht [Hm _]]]]]] Hp Ha Hw.
  destruct (onStickerUpdate_frame id p (home a)) as [Em Ei].
  unfold pointerInv, freshIds, lensAnchored.
  cbn [withHome home stage].
  rewrite onStickerUpdate_stickers, onStickerUpdate_lenses,
    onStickerUpdate_texts, Em, Ei, patchStickers_ids by exact Hp.
  split; [split; assumption|]. split; [exact Hl|]. split; [exact Ha|].
  split; [exact Htr|]. split; [exact Ht|]. split; [exact Hm | exact Hw].
Qed.

Lemma lens_size_patch_within ctx a id w h sx sy :
  (forall l, In l (lenses (home a)) -> lens_id l = id ->
     lens_x l == sx /\ lens_y l == sy) ->
  w <= sizeWidth (size (stage a)) - sx ->
  h <= sizeHeight (size (stage a)) - sy ->
  allWithin ctx a ->
  allWithin ctx (withHome (onLensUpdate id (lensSizePatch w h)) a).
Proof.
  intros Ha Hw Hh [Hl [Hs Ht]]. unfold allWithin. cbn [withHome home stage].
  rewrite onLensUpdate_collections_lenses, onLensUpdate_stickers,
    onLensUpdate_texts.
  repeat split; auto.
  apply Forall_patchLenses; [exact Hl|].
  intros x Hx Hid Px. destruct (Ha x Hx Hid) as [Ex Ey].
  unfold lensWithin in *. simpl.
  now apply (within_resized _ _ _ (lens_width x) (lens_height x) sx sy).
Qed.

Lemma moveLensResize_patch r p a :
  exists w h,
    moveLensResize r p a =
      withHome (onLensUpdate (rs_id r) (lensSizePatch w h)) a /\
    w <= sizeWidth (size (stage a)) - rx (rs_start r) /\
    h <= sizeHeight (size (stage a)) - ry (rs_start r).
Proof.
  unfold moveLensResize.
  set (roomX := sizeWidth (size (stage a)) - rx (rs_start r)).
  set (roomY := sizeHeight (size (stage a)) - ry (rs_start r)).
  set (nw := clamp _ 60 roomX). set (nh := clamp _ 60 roomY).
  destruct (isCircleLens (rs_id r) (lenses (home a))).
  - exists (Qmin (Qmax nw nh) (Qmin roomX roomY)),
           (Qmin (Qmax nw nh) (Qmin roomX roomY)).
    split; [reflexivity|]. clearbody nw nh roomX roomY.
    split; minmax_cases; lra.
  - exists nw, nh. split; [reflexivity|]. split; apply clamp_le_max.
Qed.

Lemma pointerInv_move ctx ev ps a :
  pointerInv ctx (PMove ev :: ps) a ->
  pointerInv ctx ps (handlePointerMove ctx ev a).
Proof.
  change (pointerInv ctx (PMove ev :: ps) a) with (pointerInv ctx ps a).
  intro HI. pose proof HI as [Hf [Hl [Hs [Htr [Ht [Hm Hw]]]]]].
  pose proof (freshIds_uniqueIds _ _ Hf Ht) as Hu.
  unfold handlePointerMove.
  pose proof (moveBranch_inv a) as Hb.
  pose proof (moveBranch_priority a) as Hp.
  destruct (moveBranch a) as [r|id off|r img|id off|r|id off| |].
  - congruence.
  - unfold moveTextDrag. rewrite Ht. exact HI.
  - (* sticker resize *)
    destruct Hb as [Hr Hi].
    destruct Hs as [Hs | Hs]; [congruence|].
    pose proof (moveStickerResize_within ctx r img (point ev) a
                  (conj Hl Hs) Hr Hw) as Hw'.
    unfold moveStickerResize in *. cbv zeta in *.
    apply pointerInv_sticker_update; [exact HI | reflexivity | | exact Hw'].
    right. intros r' s' Hr' Hin Hid. cbn [withHome home stage] in *.
    rewrite onStickerUpdate_stickers in Hin.
    apply patchStickers_size_corner in Hin.
    destruct Hin as [s [Hin [E1 [E2 E3]]]].
    rewrite E2, E3. apply Hs; [exact Hr' | exact Hin | congruence].
  - (* sticker drag *)
    pose proof (moveStickerDrag_within ctx id off (point ev) a Hu Hw) as Hw'.
    unfold moveStickerDrag in *.
    destruct (stickerById id (stickers (home a))) as [s|]; [|exact HI].
    apply pointerInv_sticker_update; [exact HI | reflexivity | | exact Hw'].
    destruct Hp as [Hp | Hp]; [right | now left].
    intros r' s' Hr'. cbn [withHome stage] in Hr'. congruence.
  - (* lens resize *)
    destruct (moveLensResize_patch r (point ev) a) as [w [h [E [Bw Bh]]]].
    rewrite E.
    apply pointerInv_lens_update; [exact HI | reflexivity | |].
    + intros r' l' Hr' Hin Hid. cbn [withHome home stage] in *.
      rewrite onLensUpdate_collections_lenses in Hin.
      apply patchLenses_size_corner in Hin.
      destruct Hin as [l [Hin [E1 [E2 E3]]]].
      rewrite E2, E3. apply Hl; [exact Hr' | exact Hin | congruence].
    + apply (lens_size_patch_within ctx a (rs_id r) w h
               (rx (rs_start r)) (ry (rs_start r)));
        [intros l Hin Hid; now apply (Hl r l) | exact Bw | exact Bh
        | exact Hw].
  - (* lens drag *)
    pose proof (moveLensDrag_within ctx id off (point ev) a Hu Hw) as Hw'.
    unfold moveLensDrag in *.
    destruct (lensById id (lenses (home a))) as [l|]; [|exact HI].
    apply pointerInv_lens_update; [exact HI | reflexivity | | exact Hw'].
    intros r' l' Hr'. cbn [withHome stage] in Hr'. congruence.
  - exact HI.
  - exact HI.
Qed.

(** ** Releases *)

Lemma isSome_false {A} (o : option A) : isSome o = false -> o = None.
Proof. now destruct o. Qed.

(* What appending a lens and ending the drag leaves alone. *)
Lemma lens_added l a :
  let a' := endDrag (withHome (handleLensAdd l) a) in
  size (stage a') = size (stage a) /\
  textResizeState (stage a') = textResizeState (stage a) /\
  resizeState (stage a') = resizeState (stage a) /\
  stickerResizeState (stage a') = stickerResizeState (stage a) /\
  mode (home a') = mode (home a) /\
  stickerImage (home a') = stickerImage (home a) /\
  texts (home a') = texts (home a) /\
  stickers (home a') = stickers (home a) /\
  lenses (home a') = (lenses (home a) ++ [l])%list.
Proof.
  destruct (pushHistory_frame (lenses (home a)) (stickers (home a))
              (texts (home a)) (home a)) as [Em Ei].
  cbv zeta. unfold endDrag, handleLensAdd.
  cbn [withStage withHome home stage size textResizeState resizeState
         stickerResizeState setDragCurrent setDragStart setLenses mode
         stickerImage texts stickers lenses].
  rewrite pushHistory_lenses, pushHistory_stickers, pushHistory_texts, Em, Ei.
  repeat split.
Qed.

Lemma upOutcome_release uuid a (f : Stage -> Stage) :
  size (f (stage a)) = size (stage a) ->
  textResizeState (f (stage a)) = None ->
  (resizeState (f (stage a)) = None \/
   resizeState (f (stage a)) = resizeState (stage a)) ->
  (stickerResizeState (f (stage a)) = None \/
   stickerResizeState (f (stage a)) = stickerResizeState (stage a)) ->
  upOutcome uuid a (withStage f a).
Proof.
  intros E1 E2 E3 E4. unfold upOutcome. cbn [withStage home stage].
  split; [exact E1|]. split; [exact E2|].
  split; [reflexivity|]. split; [reflexivity|]. split; [reflexivity|].
  left. split; [reflexivity|]. split; [reflexivity|].
  split; [exact E3 | exact E4].
Qed.

Lemma upOutcome_lens uuid a l :
  textResizeState (stage a) = None -> resizeState (stage a) = None ->
  stickerResizeState (stage a) = None ->
  lensWithin (size (stage a)) l -> lens_id l = uuid ->
  upOutcome uuid a
    (endDrag (withHome (handleLensAdd l) (withStage (setTextDragOffset None) a))).
Proof.
  intros Htr Hr Hsr Hw Hid.
  destruct (lens_added l (withStage (setTextDragOffset None) a))
    as [E1 [E2 [E3 [E4 [E5 [E6 [E7 [E8 E9]]]]]]]].
  unfold upOutcome. rewrite E1, E2, E3, E4, E5, E6, E7, E8, E9.
  cbn [withStage home stage size textResizeState resizeState
         stickerResizeState setTextDragOffset].
  split; [reflexivity|]. split; [exact Htr|].
  split; [reflexivity|]. split; [reflexivity|]. split; [reflexivity|].
  right. split; [exact Hr|]. split; [exact Hsr|].
  left. exists l. split; [exact Hid|]. split; [exact Hw|]. split; reflexivity.
Qed.

Lemma sticker_added s a :
  let a' := endDrag (withHome (handleStickerAdd s) a) in
  size (stage a') = size (stage a) /\
  textResizeState (stage a') = textResizeState (stage a) /\
  resizeState (stage a') = resizeState (stage a) /\
  stickerResizeState (stage a') = stickerResizeState (stage a) /\
  mode (home a') = mode (home a) /\
  stickerImage (home a') = stickerImage (home a) /\
  texts (home a') = texts (home a) /\
  lenses (home a') = lenses (home a) /\
  stickers (home a') = (stickers (home a) ++ [s])%list.
Proof.
  destruct (pushHistory_frame (lenses (home a)) (stickers (home a))
              (texts (home a)) (home a)) as [Em Ei].
  cbv zeta. unfold endDrag, handleStickerAdd.
  cbn [withStage withHome home stage size textResizeState resizeState
         stickerResizeState setDragCurrent setDragStart setStickers mode
         stickerImage texts stickers lenses].
  rewrite pushHistory_lenses, pushHistory_stickers, pushHistory_texts, Em, Ei.
  repeat split.
Qed.

Lemma upOutcome_sticker uuid a s :
  textResizeState (stage a) = None -> resizeState (stage a) = None ->
  stickerResizeState (stage a) = None ->
  stickerWithin (size (stage a)) s -> sticker_id s = uuid ->
  upOutcome uuid a
    (endDrag
       (withHome (handleStickerAdd s) (withStage (setTextDragOffset None) a))).
Proof.
  intros Htr Hr Hsr Hw Hid.
  destruct (sticker_added s (withStage (setTextDragOffset None) a))
    as [E1 [E2 [E3 [E4 [E5 [E6 [E7 [E8 E9]]]]]]]].
  unfold upOutcome. rewrite E1, E2, E3, E4, E5, E6, E7, E8, E9.
  cbn [withStage home stage size textResizeState resizeState
         stickerResizeState setTextDragOffset].
  split; [reflexivity|]. split; [exact Htr|].
  split; [reflexivity|]. split; [reflexivity|]. split; [reflexivity|].
  right. split; [exact Hr|]. split; [exact Hsr|].
  right. exists s. split; [exact Hid|]. split; [exact Hw|]. split; reflexivity.
Qed.

Lemma handlePointerUp_outcome ctx uuid now a :
  mode (home a) <> MText -> textResizeState (stage a) = None ->
  upOutcome uuid a (handlePointerUp ctx uuid now a).
Proof.
  intros Hm Htr. unfold handlePointerUp. rewrite Htr. cbn [isSome].
  destruct (isSome (stickerResizeState (stage a))) eqn:Hsr.
  { apply (upOutcome_release uuid a
             (fun s => setStickerResizeState None (setTextDragOffset None s)));
      [reflexivity | exact Htr | right; reflexivity | left; reflexivity]. }
  destruct (truthy (activeStickerId (stage a))).
  { apply (upOutcome_release uuid a
             (fun s => setStickerDragOffset None
                         (setActiveStickerId None (setTextDragOffset None s))));
      [reflexivity | exact Htr | right; reflexivity | right; reflexivity]. }
  destruct (isSome (resizeState (stage a))) eqn:Hr.
  { apply (upOutcome_release uuid a
             (fun s => setResizeState None (setTextDragOffset None s)));
      [reflexivity | exact Htr | left; reflexivity | right; reflexivity]. }
  destruct (truthy (activeLensId (stage a))).
  { apply (upOutcome_release uuid a
             (fun s => setDragOffset None
                         (setActiveLensId None (setTextDragOffset None s))));
      [reflexivity | exact Htr | right; reflexivity | right; reflexivity]. }
  apply isSome_false in Hsr, Hr.
  change (dragStart (stage (withStage (setTextDragOffset None) a)))
    with (dragStart (stage a)).
  destruct (dragStart (stage a)) as [ds|].
  2:{ apply (upOutcome_release uuid a
               (fun s => setTextDragOffset None (setTextDragOffset None s)));
        [reflexivity | exact Htr | right; reflexivity | right; reflexivity]. }
  unfold upCreate.
  set (a1 := withStage (setTextDragOffset None) a).
  change (mode (home a1)) with (mode (home a)).
  change (stickerImage (home a1)) with (stickerImage (home a)).
  destruct (mode (home a)) eqn:Em; [| | |congruence].
  - exact (upOutcome_lens uuid a _ Htr Hr Hsr
             (regionLens_within _ _ _ _ _ _ _ a1) eq_refl).
  - exact (upOutcome_lens uuid a _ Htr Hr Hsr
             (magnifyLens_within _ _ _ _ _ a1) eq_refl).
  - destruct (stickerImage (home a)) as [img|] eqn:Ei.
    + unfold upSticker. cbv zeta.
      apply upOutcome_sticker;
        [exact Htr | exact Hr | exact Hsr | | reflexivity].
      unfold stickerWithin.
      cbn [sticker_x sticker_y sticker_width sticker_height].
      apply (within_clamp_corner (size (stage a))); apply clamp_le_max.
    + exact (upOutcome_lens uuid a _ Htr Hr Hsr
               (regionLens_within _ _ _ _ _ _ _ a1) eq_refl).
Qed.

Lemma pointerInv_up ctx uuid now ps a :
  pointerInv ctx (PUp uuid now :: ps) a ->
  pointerInv ctx ps (handlePointerUp ctx uuid now a).
Proof.
  intros [[Fl Fs] [Hl [Hs [Htr [Ht [Hm Hw]]]]]].
  change (upIds (PUp uuid now :: ps)) with (uuid :: upIds ps) in Fl, Fs.
  rewrite <- app_comm_cons in Fl, Fs.
  pose proof (proj2 (proj1 (NoDup_cons_iff _ _) Fl)) as Fl'.
  pose proof (proj2 (proj1 (NoDup_cons_iff _ _) Fs)) as Fs'.
  destruct Hw as [Wl [Ws Wt]].
  destruct (handlePointerUp_outcome ctx uuid now a Hm Htr)
    as [Es [Etr [Em [Ei [Et O]]]]].
  unfold pointerInv, freshIds, lensAnchored, stickerAnchored, allWithin.
  rewrite Es, Etr, Em, Ei, Et.
  destruct O as [[El [Est [Or Osr]]]
                | [Hr' [Hsr' [[l [Hid [Hin [El Est]]]]
                             | [s [Hid [Hin [Est El]]]]]]]];
    rewrite El, Est.
  - split; [split; assumption|]. split.
    { intros r l Hr. destruct Or as [Or | Or]; rewrite Or in Hr;
        [discriminate | now apply Hl]. }
    split.
    { destruct Hs as [Hs | Hs]; [now left | right].
      intros r s Hr. destruct Osr as [Osr | Osr]; rewrite Osr in Hr;
        [discriminate | now apply Hs]. }
    split; [reflexivity|]. split; [exact Ht|]. split; [exact Hm|].
    split; [exact Wl|]. split; [exact Ws | exact Wt].
  - split.
    { split; [|exact Fs'].
      rewrite map_app, app_assoc. cbn [map]. rewrite Hid.
      apply (Permutation_NoDup (Permutation_cons_append _ _) Fl). }
    split; [intros r l' Hr; congruence|].
    split; [right; intros r s Hr; congruence|].
    split; [reflexivity|]. split; [exact Ht|]. split; [exact Hm|].
    split; [now apply Forall_snoc|]. split; [exact Ws | exact Wt].
  - split.
    { split; [exact Fl'|].
      rewrite map_app, app_assoc. cbn [map]. rewrite Hid.
      apply (Permutation_NoDup (Permutation_cons_append _ _) Fs). }
    split; [intros r l' Hr; congruence|].
    split; [right; intros r s' Hr; congruence|].
    split; [reflexivity|]. split; [exact Ht|]. split; [exact Hm|].
    split; [exact Wl|]. split; [now apply Forall_snoc | exact Wt].
Qed.

Lemma pointerInv_run ctx ps a :
  pointerInv ctx ps a -> pointerInv ctx [] (runPointer ctx ps a).
Proof.
  revert a. induction ps as [|p ps IH]; intros a H; [exact H|].
  unfold runPointer. cbn [fold_left]. apply IH.
  destruct p; [apply pointerInv_down | apply pointerInv_move
              | apply pointerInv_up]; exact H.
Qed.

(** X27: on a page without texts and outside text mode, no run of pointer
    presses, moves and releases takes a lens or a sticker off the canvas.
    If every entity lies within the canvas, the ids in use and the ids the
    releases will draw are pairwise different, no text resize is pending and
    the corner captured by a pending lens or sticker resize is the corner of
    its target, then after any sequence of [handlePointerDown],
    [handlePointerMove] and [handlePointerUp], at any positions and with any
    buttons, every entity lies within the canvas and the ids are still
    pairwise different. *)
Theorem X27_pointer_runs_stay_within
    (ctx : option (string -> FontString -> Q)) (ps : list PointerAction)
    (a : App) :
  freshIds ps a -> anchored a ->
  textResizeState (stage a) = None ->
  texts (home a) = [] -> mode (home a) <> MText ->
  allWithin ctx a ->
  allWithin ctx (runPointer ctx ps a) /\ uniqueIds (runPointer ctx ps a).
Proof.
  intros Hf [Hl Hs] Htr Ht Hm Hw.
  assert (HI : pointerInv ctx ps a).
  { split; [exact Hf|]. split; [exact Hl|]. split; [right; exact Hs|].
    split; [exact Htr|]. split; [exact Ht|]. split; [exact Hm | exact Hw]. }
  apply pointerInv_run in HI.
  destruct HI as [Hf' [_ [_ [_ [Ht' [_ Hw']]]]]].
  split; [exact Hw' | exact (freshIds_uniqueIds _ _ Hf' Ht')].
Qed.

(** A witness of X27: a sticker resize, a new lens and a lens drag on
    [Scene.stickerAndLens]. *)
Lemma X27_pointer_runs_stay_within_witness :
  allWithin None (runPointer None Scene.pointerRun Scene.stickerAndLens).
Proof.
  assert (Hf : freshIds Scene.pointerRun Scene.stickerAndLens)
    by (split; apply distinct_sound; vm_compute; reflexivity).
  assert (Ha : anchored Scene.stickerAndLens)
    by (apply anchoredb_sound; vm_compute; reflexivity).
  assert (Htr : textResizeState (stage Scene.stickerAndLens) = None)
    by (vm_compute; reflexivity).
  assert (Ht : texts (home Scene.stickerAndLens) = [])
    by (vm_compute; reflexivity).
  assert (Em : mode (home Scene.stickerAndLens) = MMagnify)
    by (vm_compute; reflexivity).
  assert (Hm : mode (home Scene.stickerAndLens) <> MText)
    by (rewrite Em; discriminate).
  assert (Hw : allWithin None Scene.stickerAndLens)
    by (apply allWithinb_sound; vm_compute; reflexivity).
  exact (proj1 (X27_pointer_runs_stay_within None Scene.pointerRun
                  Scene.stickerAndLens Hf Ha Htr Ht Hm Hw)).
Defined.

(** * The canvas size and the pointer position *)

Lemma round_mono x y : x <= y -> round x <= round y.
Proof.
  intro H. unfold round. rewrite <- Zle_Qle. apply Qfloor_resp_le. lra.
Qed.

Lemma round_Z z : round (inject_Z z) == inject_Z z.
Proof.
  unfold round. apply Qle_antisym.
  - pose proof (Qfloor_le (inject_Z z + (1 # 2))) as H.
    rewrite <- Zle_Qle.
    apply Z.lt_succ_r. rewrite Zlt_Qlt. unfold Z.succ.
    rewrite inject_Z_plus. change (inject_Z 1) with 1. lra.
  - rewrite <- Zle_Qle. rewrite <- (Qfloor_Z z) at 1.
    apply Qfloor_resp_le. lra.
Qed.

Lemma round_ofN n : round (ofN n) == ofN n.
Proof. apply round_Z. Qed.

Lemma ofN_nonneg n : 0 <= ofN n.
Proof. unfold ofN. change 0 with (inject_Z 0). rewrite <- Zle_Qle. lia. Qed.

Lemma fitRatio_le_1 mw mh img : fitRatio mw mh img <= 1.
Proof.
  unfold fitRatio.
  destruct (naturalHeight img =? 0)%N, (naturalWidth img =? 0)%N;
    minmax_cases; lra.
Qed.

Lemma Qdiv_ge_1 a b : 0 < b -> b <= a -> 1 <= a / b.
Proof.
  intros Hb Hab. apply Qle_shift_div_l; [exact Hb | lra].
Qed.

Lemma fitRatio_fits mw mh img :
  ofN (naturalWidth img) <= mw -> ofN (naturalHeight img) <= mh ->
  fitRatio mw mh img == 1.
Proof.
  intros Hw Hh. unfold fitRatio.
  destruct (naturalHeight img =? 0)%N eqn:Eh,
           (naturalWidth img =? 0)%N eqn:Ew;
    try apply N.eqb_neq in Eh; try apply N.eqb_neq in Ew;
    try pose proof (Qdiv_ge_1 _ _ (ofN_pos _ Eh) Hh);
    try pose proof (Qdiv_ge_1 _ _ (ofN_pos _ Ew) Hw);
    minmax_cases; lra.
Qed.

Lemma round_scaled_le n r : r <= 1 -> round (ofN n * r) <= ofN n.
Proof.
  intro Hr. rewrite <- (round_ofN n) at 2. apply round_mono.
  pose proof (ofN_nonneg n). nra.
Qed.

Lemma round_eq x y : x == y -> round x == round y.
Proof. intro E. apply Qle_antisym; apply round_mono; lra. Qed.

(** X28: the canvas size [computeSize] sets.  The page is left as it is.
    With an image to show the canvas is at least 420 x 320 and the image is
    never enlarged: the width is at most the larger of 420 and the natural
    width, the height at most the larger of 320 and the natural height; an
    image of at least 420 x 320 that fits the room of the container (its
    width less 24, at least 480; its height less 40, at least 420) gets a
    canvas of exactly its natural size.  Without an image the canvas is
    between 640 x 360 and 1920 x 1080, and exactly 1920 x 1080 when the
    container leaves that much room. *)
Theorem X28_computeSize (containerWidth containerHeight : Q) (a : App) :
  let a' := computeSize containerWidth containerHeight a in
  let W := sizeWidth (size (stage a')) in
  let H := sizeHeight (size (stage a')) in
  home a' = home a /\
  match effectiveImage (home a) with
  | Some img =>
      420 <= W /\ 320 <= H /\
      W <= Qmax 420 (ofN (naturalWidth img)) /\
      H <= Qmax 320 (ofN (naturalHeight img)) /\
      (420 <= ofN (naturalWidth img) -> 320 <= ofN (naturalHeight img) ->
       ofN (naturalWidth img) <= Qmax (containerWidth - 24) 480 ->
       ofN (naturalHeight img) <= Qmax 420 (containerHeight - 40) ->
       W == ofN (naturalWidth img) /\ H == ofN (naturalHeight img))
  | None =>
      640 <= W /\ W <= 1920 /\ 360 <= H /\ H <= 1080 /\
      (1920 <= containerWidth - 24 -> 1080 <= containerHeight - 40 ->
       W == 1920 /\ H == 1080)
  end.
Proof.
  cbv zeta. unfold computeSize.
  destruct (effectiveImage (home a)) as [img|].
  - cbn [withStage home stage size setSize sizeWidth sizeHeight].
    set (mw := Qmax (containerWidth - 24) 480).
    set (mh := Qmax 420 (containerHeight - 40)).
    pose proof (fitRatio_le_1 mw mh img) as Hr.
    pose proof (round_scaled_le (naturalWidth img) _ Hr) as Hw.
    pose proof (round_scaled_le (naturalHeight img) _ Hr) as Hh.
    split; [reflexivity|].
    split; [apply Q.le_max_l|]. split; [apply Q.le_max_l|].
    split; [apply Q.max_le_compat_l; exact Hw|].
    split; [apply Q.max_le_compat_l; exact Hh|].
    intros Mw Mh Fw Fh.
    pose proof (fitRatio_fits mw mh img Fw Fh) as E.
    assert (Ew : round (ofN (naturalWidth img) * fitRatio mw mh img) ==
                 ofN (naturalWidth img)).
    { rewrite <- (round_ofN (naturalWidth img)) at 2. apply round_eq.
      rewrite E. ring. }
    assert (Eh : round (ofN (naturalHeight img) * fitRatio mw mh img) ==
                 ofN (naturalHeight img)).
    { rewrite <- (round_ofN (naturalHeight img)) at 2. apply round_eq.
      rewrite E. ring. }
    split; minmax_cases; lra.
  - cbn [withStage home stage size setSize sizeWidth sizeHeight].
    set (mw := Qmax (containerWidth - 24) 480).
    set (mh := Qmax 420 (containerHeight - 40)).
    set (w := Qmin mw 1920). set (h := round (w * (1080 / 1920))).
    assert (R1080 : round 1080 == 1080) by exact (round_Z 1080).
    assert (R1920 : round 1920 == 1920) by exact (round_Z 1920).
    assert (Hw : w <= 1920) by apply Q.le_min_r.
    assert (Hh : h <= 1080).
    { unfold h. apply Qle_trans with (round 1080); [|rewrite R1080; lra].
      apply round_mono. change (1080 / 1920) with (1080 * / 1920).
      assert (E : / 1920 == 1 # 1920) by reflexivity. rewrite E. lra. }
    split; [reflexivity|].
    destruct (Qltb mh h) eqn:Eb.
    + apply Qltb_lt in Eb.
      assert (Hw' : round (mh * (1920 / 1080)) <= 1920).
      { apply Qle_trans with (round 1920); [|rewrite R1920; lra].
        apply round_mono. change (1920 / 1080) with (1920 * / 1080).
        assert (E : / 1080 == 1 # 1080) by reflexivity. rewrite E. lra. }
      split; [apply Q.le_max_l|].
      split; [apply Q.max_lub; [lra | exact Hw']|].
      split; [apply Q.le_max_l|].
      split; [apply Q.max_lub; lra|].
      intros Cw Ch. exfalso.
      assert (1080 <= mh) by (unfold mh; minmax_cases; lra). lra.
    + apply Qltb_ge in Eb.
      split; [apply Q.le_max_l|].
      split; [apply Q.max_lub; lra|].
      split; [apply Q.le_max_l|].
      split; [apply Q.max_lub; lra|].
      intros Cw Ch.
      assert (Ew : w == 1920) by (unfold w, mw; minmax_cases; lra).
      assert (Eh : h == 1080).
      { unfold h. apply Qeq_trans with (round 1080); [|exact R1080].
        apply round_eq. rewrite Ew. reflexivity. }
      split; minmax_cases; lra.
Qed.

(** A witness of X28: a page without image in a container of 2000 x 1200. *)
Lemma X28_computeSize_witness :
  sizeWidth (size (stage (computeSize 2000 1200 Scene.noImage))) == 1920 /\
  sizeHeight (size (stage (computeSize 2000 1200 Scene.noImage))) == 1080.
Proof.
  assert (E : effectiveImage (home Scene.noImage) = None)
    by (vm_compute; reflexivity).
  pose proof (X28_computeSize 2000 1200 Scene.noImage) as H.
  cbv zeta in H. rewrite E in H.
  apply (proj2 (proj2 (proj2 (proj2 (proj2 H))))); lra.
Defined.

Lemma Qeq_bool_false x y : ~ x == y -> Qeq_bool x y = false.
Proof.
  intro H. destruct (Qeq_bool x y) eqn:E; [|reflexivity].
  apply Qeq_bool_iff in E. contradiction.
Qed.

(** X29: the canvas point of a pointer position.  For an element with a
    positive extent on both axes and a canvas of positive size,
    [toCanvasPoint] maps a position within the element to a point within
    the canvas, the element's left and top edges to 0 and its right and
    bottom edges to the canvas width and height; and every canvas point is
    the image of the position at the same fraction of the element, so the
    result does not depend on the size the element is displayed at. *)
Theorem X29_toCanvasPoint (rect : DOMRect) (clientX clientY : Q) (a : App) :
  0 < rect_width rect -> 0 < rect_height rect ->
  0 < sizeWidth (size (stage a)) -> 0 < sizeHeight (size (stage a)) ->
  let W := sizeWidth (size (stage a)) in
  let H := sizeHeight (size (stage a)) in
  (exists p, toCanvasPoint rect clientX clientY a = Some p /\
     (rect_left rect <= clientX -> 0 <= px p) /\
     (clientX <= rect_left rect + rect_width rect -> px p <= W) /\
     (rect_top rect <= clientY -> 0 <= py p) /\
     (clientY <= rect_top rect + rect_height rect -> py p <= H) /\
     (clientX == rect_left rect -> px p == 0) /\
     (clientX == rect_left rect + rect_width rect -> px p == W) /\
     (clientY == rect_top rect -> py p == 0) /\
     (clientY == rect_top rect + rect_height rect -> py p == H)) /\
  (forall q : Point, exists p,
     toCanvasPoint rect (rect_left rect + px q / W * rect_width rect)
       (rect_top rect + py q / H * rect_height rect) a = Some p /\
     px p == px q /\ py p == py q).
Proof.
  intros Hw Hh HW HH W H. unfold toCanvasPoint, orOne.
  assert (E1 : Qeq_bool (rect_width rect) 0 = false)
    by (apply Qeq_bool_false; lra).
  assert (E2 : Qeq_bool (rect_height rect) 0 = false)
    by (apply Qeq_bool_false; lra).
  assert (E3 : Qeq_bool (sizeWidth (size (stage a))) 0 = false)
    by (apply Qeq_bool_false; lra).
  assert (E4 : Qeq_bool (sizeHeight (size (stage a))) 0 = false)
    by (apply Qeq_bool_false; lra).
  rewrite E1, E2, E3, E4. cbn [orb]. fold W H.
  change (0 < W) in HW. change (0 < H) in HH.
  set (w := rect_width rect) in *. set (h := rect_height rect) in *.
  set (l := rect_left rect). set (t := rect_top rect).
  assert (Fx : forall c, (c - l) / w * W == (c - l) * W / w)
    by (intro c; field; lra).
  assert (Fy : forall c, (c - t) / h * H == (c - t) * H / h)
    by (intro c; field; lra).
  split.
  - eexists. split; [reflexivity|]. cbn [px py]. rewrite Fx, Fy.
    clearbody W H w h l t.
    split; [intro; apply Qle_shift_div_l; [lra | nra]|].
    split; [intro; apply Qle_shift_div_r; [lra | nra]|].
    split; [intro; apply Qle_shift_div_l; [lra | nra]|].
    split; [intro; apply Qle_shift_div_r; [lra | nra]|].
    split; [intro E; rewrite E; field; lra|].
    split; [intro E; rewrite E; field; lra|].
    split; [intro E; rewrite E; field; lra|].
    intro E; rewrite E; field; lra.
  - intro q. eexists. split; [reflexivity|]. cbn [px py].
    clearbody W H w h l t. split; field; lra.
Qed.

(** A witness of X29: an element shown at half the canvas size. *)
Lemma X29_toCanvasPoint_witness :
  exists p,
    toCanvasPoint {| rect_left := 10; rect_top := 20; rect_width := 460;
                     rect_height := 310 |} 240 175 initialApp = Some p /\
    px p <= 920.
Proof.
  destruct (X29_toCanvasPoint
              {| rect_left := 10; rect_top := 20; rect_width := 460;
                 rect_height := 310 |} 240 175 initialApp)
    as [[p [E [_ [H _]]]] _]; try reflexivity.
  exists p. split; [exact E|]. apply H. cbn [rect_left rect_width]. lra.
Defined.

(** * The colour sliders *)

Lemma twoDigits_all :
  forallb RgbPicker.twoDigits (map N.of_nat (seq 0 256)) = true.
Proof. vm_compute. reflexivity. Qed.

Lemma channelHex_two z :
  exists c1 c2,
    RgbPicker.channelHex (Some z) = String c1 (String c2 EmptyString) /\
    c1 <> "#"%char /\
    RgbPicker.parseInt16 (String c1 (String c2 EmptyString)) =
      Some (RgbPicker.clamp255 z).
Proof.
  set (n := Z.to_N (RgbPicker.clamp255 z)).
  assert (Hn : Z.of_N n = RgbPicker.clamp255 z)
    by (unfold n, RgbPicker.clamp255; lia).
  assert (Hin : In n (map N.of_nat (seq 0 256))).
  { apply in_map_iff. exists (N.to_nat n). split; [lia|].
    apply in_seq. unfold n, RgbPicker.clamp255. lia. }
  pose proof (proj1 (forallb_forall _ _) twoDigits_all n Hin) as H.
  unfold RgbPicker.twoDigits in H.
  assert (E : RgbPicker.channelHex (Some z) =
              RgbPicker.channelHex (Some (Z.of_N n))).
  { unfold RgbPicker.channelHex. f_equal. f_equal. rewrite Hn.
    unfold RgbPicker.clamp255. f_equal. lia. }
  rewrite E.
  destruct (RgbPicker.channelHex (Some (Z.of_N n))) as [|c1 [|c2 [|]]];
    try discriminate.
  apply andb_true_iff in H. destruct H as [H1 H2].
  exists c1, c2. split; [reflexivity|]. split.
  - intros ->. discriminate.
  - destruct (RgbPicker.parseInt16 _) as [v|]; [|discriminate].
    apply Z.eqb_eq in H2. congruence.
Qed.

Lemma clamp255_idem z :
  RgbPicker.clamp255 (RgbPicker.clamp255 z) = RgbPicker.clamp255 z.
Proof. unfold RgbPicker.clamp255. lia. Qed.

Lemma hexToRgb_toHex cr cg cb :
  RgbPicker.hexToRgb (RgbPicker.toHex cr cg cb) =
  match cr, cg, cb with
  | Some x, Some y, Some z =>
      {| RgbPicker.r := Some (RgbPicker.clamp255 x);
         RgbPicker.g := Some (RgbPicker.clamp255 y);
         RgbPicker.b := Some (RgbPicker.clamp255 z) |}
  | _, _, _ => RgbPicker.white
  end.
Proof.
  unfold RgbPicker.toHex, RgbPicker.hexToRgb.
  destruct cr as [x|], cg as [y|], cb as [z|];
    try (destruct (channelHex_two x) as [r1 [r2 [Er [_ Pr]]]]; rewrite Er);
    try (destruct (channelHex_two y) as [g1 [g2 [Eg [_ Pg]]]]; rewrite Eg);
    try (destruct (channelHex_two z) as [b1 [b2 [Eb [_ Pb]]]]; rewrite Eb);
    cbn [append RgbPicker.removeFirst Ascii.eqb Bool.eqb String.length
           Nat.eqb negb RgbPicker.slice substring Nat.sub
           RgbPicker.channelHex];
    try reflexivity.
  rewrite Pr, Pg, Pb. reflexivity.
Qed.

(** X30: the colour sliders write what they read.  [hexToRgb] of the string
    [toHex] builds from three integers gives the three integers back, each
    clamped into [0, 255], and that string has seven characters; if a
    channel is [NaN] the string [toHex] builds is no colour of six digits
    and reads back as white.  Hence, on a value that [toHex] built from
    integers, [update] changes the channel of the moved slider and no
    other.  Whatever the value, it reads as white unless six characters
    remain once its first "#" is removed. *)
Theorem X30_rgb_round_trip :
  (forall cr cg cb : option Z,
     RgbPicker.hexToRgb (RgbPicker.toHex cr cg cb) =
     match cr, cg, cb with
     | Some x, Some y, Some z =>
         {| RgbPicker.r := Some (RgbPicker.clamp255 x);
            RgbPicker.g := Some (RgbPicker.clamp255 y);
            RgbPicker.b := Some (RgbPicker.clamp255 z) |}
     | _, _, _ => RgbPicker.white
     end) /\
  (forall x y z : Z,
     String.length (RgbPicker.toHex (Some x) (Some y) (Some z)) = 7%nat) /\
  (forall (x y z v : Z) (ch : RgbPicker.Channel),
     RgbPicker.hexToRgb
       (RgbPicker.update (RgbPicker.toHex (Some x) (Some y) (Some z)) ch v) =
     match ch with
     | RgbPicker.chR =>
         {| RgbPicker.r := Some (RgbPicker.clamp255 v);
            RgbPicker.g := Some (RgbPicker.clamp255 y);
            RgbPicker.b := Some (RgbPicker.clamp255 z) |}
     | RgbPicker.chG =>
         {| RgbPicker.r := Some (RgbPicker.clamp255 x);
            RgbPicker.g := Some (RgbPicker.clamp255 v);
            RgbPicker.b := Some (RgbPicker.clamp255 z) |}
     | RgbPicker.chB =>
         {| RgbPicker.r := Some (RgbPicker.clamp255 x);
            RgbPicker.g := Some (RgbPicker.clamp255 y);
            RgbPicker.b := Some (RgbPicker.clamp255 v) |}
     end) /\
  (forall value : string,
     RgbPicker.current value = RgbPicker.white \/
     String.length (RgbPicker.removeFirst "#" value) = 6%nat).
Proof.
  split; [exact hexToRgb_toHex|]. split.
  { intros x y z.
    destruct (channelHex_two x) as [r1 [r2 [Er _]]].
    destruct (channelHex_two y) as [g1 [g2 [Eg _]]].
    destruct (channelHex_two z) as [b1 [b2 [Eb _]]].
    unfold RgbPicker.toHex. rewrite Er, Eg, Eb. reflexivity. }
  split.
  { intros x y z v ch. unfold RgbPicker.update, RgbPicker.current.
    change (isEmpty (RgbPicker.toHex (Some x) (Some y) (Some z))) with false.
    cbv iota. rewrite (hexToRgb_toHex (Some x) (Some y) (Some z)).
    destruct ch; cbn [RgbPicker.r RgbPicker.g RgbPicker.b];
      rewrite hexToRgb_toHex, ?clamp255_idem; reflexivity. }
  intro value. unfold RgbPicker.current.
  destruct value as [|c rest].
  - left. vm_compute. reflexivity.
  - cbn [isEmpty]. unfold RgbPicker.hexToRgb.
    destruct (String.length (RgbPicker.removeFirst "#" (String c rest)) =? 6)%nat
      eqn:E.
    + right. now apply Nat.eqb_eq.
    + left. reflexivity.
Qed.
